(** * Task-lifecycle engine: plan execution, recovery, approval, ingestion

    A shallow embedding of the Python sources of the silver tier:
    - [iterative_reasoning_engine.py]  (modules [Engine], [Creation])
    - [agent_loop.py]                  (module [Recovery])
    - [approval_system.py]             (module [Approval])
    - [inbox_watcher.py]               (modules [Inbox], [InboxHandler])
    - [file_watcher_service.py]        (modules [Watcher], [Trigger])
    - [core/task_router.py]            (module [Router])
    - [watchers/file_watcher.py]       (module [FileWatcher])

    Python [int] is [Z]; Python [float] values that only take part in
    comparisons (confidence, the 0.8 completion ratio, elapsed seconds) are
    exact rationals [Q]; [dict]s are [gmap]s; a list of objects mutated in
    place is a [list] updated by index. *)

From Stdlib Require Import ZArith QArith Lqa Ascii String.
From stdpp Require Import gmap strings list fin_maps pretty.

Local Open Scope Z_scope.
Local Open Scope string_scope.

(* ===================================================================== *)
(** ** iterative_reasoning_engine.py                                      *)
(* ===================================================================== *)

Module Engine.

(** [class StepStatus(Enum)] *)
Inductive StepStatus :=
  | PENDING | IN_PROGRESS | COMPLETED | FAILED | SKIPPED | BLOCKED.

(** [class PlanStatus(Enum)] *)
Inductive PlanStatus :=
  | P_NOT_STARTED | P_IN_PROGRESS | P_COMPLETED | P_FAILED
  | P_BLOCKED | P_AWAITING_APPROVAL | P_OBSOLETE.

#[export] Instance StepStatus_eq_dec : EqDecision StepStatus.
Proof. solve_decision. Defined.

#[export] Instance PlanStatus_eq_dec : EqDecision PlanStatus.
Proof. solve_decision. Defined.

(** [@dataclass class Step].  The timestamps, the description, the expected
    outputs and the free-text notes are written but never read by the
    control flow and are left out. *)
Record Step := mkStep {
  id : string;
  name : string;
  actions : list string;
  status : StepStatus;
  dependencies : list string;
  attempts : Z;
  max_attempts : Z;
  actual_outputs : gmap string string;
  is_critical : bool;
  risk_level : string
}.

(** [Step(id=..., name=..., actions=..., dependencies=...)] with the
    dataclass defaults. *)
Definition new_step (i n : string) (acts deps : list string) : Step :=
  {| id := i; name := n; actions := acts; status := PENDING;
     dependencies := deps; attempts := 0; max_attempts := 3;
     actual_outputs := ∅; is_critical := true; risk_level := "MEDIUM" |}.

Definition set_status (s : Step) (st : StepStatus) : Step :=
  {| id := id s; name := name s; actions := actions s; status := st;
     dependencies := dependencies s; attempts := attempts s;
     max_attempts := max_attempts s; actual_outputs := actual_outputs s;
     is_critical := is_critical s; risk_level := risk_level s |}.

Definition set_attempts (s : Step) (a : Z) : Step :=
  {| id := id s; name := name s; actions := actions s; status := status s;
     dependencies := dependencies s; attempts := a;
     max_attempts := max_attempts s; actual_outputs := actual_outputs s;
     is_critical := is_critical s; risk_level := risk_level s |}.

Definition set_outputs (s : Step) (o : gmap string string) : Step :=
  {| id := id s; name := name s; actions := actions s; status := status s;
     dependencies := dependencies s; attempts := attempts s;
     max_attempts := max_attempts s; actual_outputs := o;
     is_critical := is_critical s; risk_level := risk_level s |}.

(** [@dataclass class StepResult]; [status] is a Python [str]. *)
Record StepResult := mkResult {
  r_status : string;
  r_outputs : gmap string string;
  r_error : option string;
  r_retry_strategy : option string;
  r_confidence : Q;
  r_is_unexpected : bool;
  r_invalidates_assumptions : bool;
  r_suggests_better_approach : bool
}.

(** [StepResult(status=..., outputs=..., error=..., retry_strategy=...)]
    with the dataclass defaults ([confidence = 1.0], flags [False]). *)
Definition new_result (st : string) (o : gmap string string)
    (e rs : option string) : StepResult :=
  {| r_status := st; r_outputs := o; r_error := e; r_retry_strategy := rs;
     r_confidence := 1; r_is_unexpected := false;
     r_invalidates_assumptions := false;
     r_suggests_better_approach := false |}.

(** [@dataclass class Plan]: the steps are shared mutable objects held in
    [plan.steps]; a step is named by its position in that list. *)
Record Plan := mkPlan {
  plan_id : string;
  objective : string;
  steps : list Step;
  plan_status : PlanStatus
}.

Definition set_steps (p : Plan) (l : list Step) : Plan :=
  {| plan_id := plan_id p; objective := objective p; steps := l;
     plan_status := plan_status p |}.

Definition set_plan_status (p : Plan) (st : PlanStatus) : Plan :=
  {| plan_id := plan_id p; objective := objective p; steps := steps p;
     plan_status := st |}.

(** [_are_dependencies_met]: every dependency id names a step (the first
    one carrying that id) whose status is COMPLETED. *)
Definition _are_dependencies_met (step : Step) (l : list Step) : bool :=
  forallb
    (fun dep_id =>
       match List.find (fun s => bool_decide (id s = dep_id)) l with
       | None => false
       | Some dep_step => bool_decide (status dep_step = COMPLETED)
       end)
    (dependencies step).

(** The [for step in plan.steps] loop of [_get_next_step], from position
    [i] with [n] positions left.  It returns the mutated step list and the
    position of the step handed back ([None] for Python's [None]). *)
Fixpoint next_step_loop (n i : nat) (l : list Step) : list Step * option nat :=
  match n with
  | O => (l, None)
  | S n' =>
      match l !! i with
      | None => (l, None)
      | Some step =>
          if negb (bool_decide (status step = PENDING)) then
            next_step_loop n' (S i) l
          else if negb (_are_dependencies_met step l) then
            next_step_loop n' (S i) l
          else if bool_decide (max_attempts step <= attempts step) then
            next_step_loop n' (S i) (<[i := set_status step FAILED]> l)
          else (l, Some i)
      end
  end.

Definition _get_next_step (plan : Plan) : Plan * option nat :=
  let '(l, r) := next_step_loop (length (steps plan)) 0 (steps plan) in
  (set_steps plan l, r).

(** What one call of the overridable [_execute_action] does: it returns a
    value or raises. *)
Inductive outcome :=
  | Returned (value : string)
  | Raised (error : string).

Section WithCollaborator.

(** The action collaborator: [self._execute_action(action, step, plan)]. *)
Variable _execute_action : string -> Step -> Plan -> outcome.

(** The [for action in step.actions] loop inside the [try] block:
    [outputs[action] = action_result]; the first exception leaves the loop. *)
Fixpoint run_actions (acts : list string) (step : Step) (plan : Plan)
    (outputs : gmap string string) : string + gmap string string :=
  match acts with
  | [] => inr outputs
  | action :: rest =>
      match _execute_action action step plan with
      | Raised e => inl e
      | Returned v => run_actions rest step plan (<[action := v]> outputs)
      end
  end.

(** [_validate_step_outputs]: [len(outputs) > 0]. *)
Definition _validate_step_outputs (step : Step) (outputs : gmap string string) : bool :=
  bool_decide (0 < size outputs)%nat.

(** [_handle_step_failure]: the step at position [i] goes back to PENDING
    while attempts remain, to FAILED otherwise. *)
Definition _handle_step_failure (plan : Plan) (i : nat) (step : Step)
    (error : string) : Plan * StepResult :=
  let can_retry := bool_decide (attempts step < max_attempts step) in
  if can_retry then
    (set_steps plan (<[i := set_status step PENDING]> (steps plan)),
     new_result "RETRY" ∅ (Some error) (Some "IMMEDIATE"))
  else
    (set_steps plan (<[i := set_status step FAILED]> (steps plan)),
     new_result "FAILED" ∅ (Some error) None).

(** [_execute_step(plan, step)], [step] being the object at position [i] of
    [plan.steps]; [None] when there is no such object. *)
Definition _execute_step (plan : Plan) (i : nat) : option (Plan * StepResult) :=
  match steps plan !! i with
  | None => None
  | Some step0 =>
      let step1 := set_attempts (set_status step0 IN_PROGRESS) (attempts step0 + 1) in
      let plan1 := set_steps plan (<[i := step1]> (steps plan)) in
      match run_actions (actions step1) step1 plan1 ∅ with
      | inr outputs =>
          if _validate_step_outputs step1 outputs then
            let step2 := set_outputs (set_status step1 COMPLETED) outputs in
            Some (set_steps plan1 (<[i := step2]> (steps plan1)),
                  new_result "SUCCESS" outputs None None)
          else
            Some (_handle_step_failure plan1 i step1 "Output validation failed")
      | inl error => Some (_handle_step_failure plan1 i step1 error)
      end
  end.

(** [_evaluate_plan_state] and [_update_plan_after_step] only refresh
    [updated_at] and rewrite the plan file. *)
Definition _evaluate_plan_state (plan : Plan) : Plan := plan.

Definition _update_plan_after_step (plan : Plan) (i : nat) (result : StepResult) : Plan :=
  plan.

Definition count_status (st : StepStatus) (l : list Step) : nat :=
  length (filter (fun s => status s = st) l).

(** [_should_replan]: [failed_count >= 2 or result.suggests_better_approach]. *)
Definition _should_replan (plan : Plan) (result : StepResult) : bool :=
  bool_decide (2 <= count_status FAILED (steps plan))%nat
  || r_suggests_better_approach result.

Definition _replan (plan : Plan) (result : StepResult) : Plan :=
  set_plan_status plan P_AWAITING_APPROVAL.

(** [_requires_human_intervention]:
    [result.status == 'FAILED' and result.confidence < 0.7]. *)
Definition _requires_human_intervention (plan : Plan) (result : StepResult) : bool :=
  bool_decide (r_status result = "FAILED")
  && negb (Qle_bool (7 # 10) (r_confidence result)).

Definition _request_human_intervention (plan : Plan) (i : nat)
    (result : StepResult) : Plan :=
  set_plan_status plan P_AWAITING_APPROVAL.

(** [_is_plan_complete]: every step is COMPLETED, FAILED or SKIPPED. *)
Definition _is_plan_complete (plan : Plan) : bool :=
  forallb
    (fun step => bool_decide (status step = COMPLETED)
                 || bool_decide (status step = FAILED)
                 || bool_decide (status step = SKIPPED))
    (steps plan).

(** What leaves the engine instead of a plan: the two Python exceptions, and
    a reference to a step that is not in the plan, which selection never
    produces. *)
Inductive error := IndexError | ZeroDivisionError | DanglingStep.

(** [_finalize_plan]: [completed == total], else [completed >= total * 0.8],
    else FAILED; the completion summary then computes [completed/total],
    which raises [ZeroDivisionError] on a plan without steps. *)
Definition _finalize_plan (plan : Plan) : error + Plan :=
  let completed := Z.of_nat (count_status COMPLETED (steps plan)) in
  let total := Z.of_nat (length (steps plan)) in
  let plan :=
    if bool_decide (completed = total) then set_plan_status plan P_COMPLETED
    else if Qle_bool (inject_Z total * (8 # 10)) (inject_Z completed)
         then set_plan_status plan P_COMPLETED
    else set_plan_status plan P_FAILED in
  if bool_decide (total = 0) then inl ZeroDivisionError else inr plan.

Definition _has_blocked_steps (plan : Plan) : bool :=
  existsb (fun s => bool_decide (status s = BLOCKED)) (steps plan).

Definition _handle_blocked_plan (plan : Plan) : Plan :=
  set_plan_status plan P_BLOCKED.

(** The [while not self._is_plan_complete(plan) and iteration < max_iterations]
    loop with [n] iterations left.  [None] only for a dangling step
    reference, which does not arise (see [EngineFacts.exec_loop_returns]). *)
Fixpoint exec_loop (n : nat) (plan : Plan) : option Plan :=
  match n with
  | O => Some plan
  | S n' =>
      if _is_plan_complete plan then Some plan
      else
        let plan := _evaluate_plan_state plan in
        let '(plan, next_step) := _get_next_step plan in
        match next_step with
        | None =>
            Some (if _has_blocked_steps plan then _handle_blocked_plan plan
                  else plan)
        | Some i =>
            match _execute_step plan i with
            | None => None
            | Some (plan, result) =>
                let plan := _update_plan_after_step plan i result in
                let plan := if _should_replan plan result
                            then _replan plan result else plan in
                if _requires_human_intervention plan result
                then Some (_request_human_intervention plan i result)
                else exec_loop n' plan
            end
        end
  end.

(** [_write_plan_markdown]: the progress line of the document divides by
    [len(plan.steps)], so writing a plan without steps raises
    [ZeroDivisionError]; on any other plan the call only rewrites the plan
    file.  The calls made after a step was selected are on plans with steps
    and are left out of the functions above. *)
Definition _write_plan_markdown (plan : Plan) : error + unit :=
  if bool_decide (steps plan = []) then inl ZeroDivisionError else inr tt.

(** [execute_plan_iteratively]; [plan.steps[0]] would raise [IndexError] on
    a plan without steps, had the first write of the plan not raised
    before. *)
Definition execute_plan_iteratively (plan : Plan) : error + Plan :=
  let plan := set_plan_status plan P_IN_PROGRESS in
  match _write_plan_markdown plan with
  | inl e => inl e
  | inr _ =>
      match steps plan with
      | [] => inl IndexError
      | first :: _ =>
          let max_iterations :=
            Z.of_nat (length (steps plan)) * max_attempts first in
          match exec_loop (Z.to_nat max_iterations) plan with
          | None => inl DanglingStep
          | Some plan => _finalize_plan plan
          end
      end
  end.

End WithCollaborator.

End Engine.

(* ===================================================================== *)
(** ** Python string methods and pathlib operations used by the sources   *)
(* ===================================================================== *)

Module Py.

(** [s.startswith(pre)] and [s.endswith(suf)] *)
Definition startswith (pre s : string) : bool := String.prefix pre s.

Definition endswith (suf s : string) : bool :=
  String.prefix (String.rev suf) (String.rev s).

(** [s[n:]] *)
Definition drop_chars (n : nat) (s : string) : string :=
  String.substring n (String.length s - n) s.

(** [sub in s] *)
Definition contains (sub s : string) : bool :=
  bool_decide (is_Some (String.index 0 sub s)).

(** [s.replace(old, new)] for a non-empty [old]: occurrences are replaced
    from the left, without overlap.  [skip] counts the characters of a
    matched occurrence still to be dropped. *)
Fixpoint replace_go (old new s : string) (skip : nat) : string :=
  match s with
  | EmptyString => EmptyString
  | String c s' =>
      match skip with
      | S k => replace_go old new s' k
      | O =>
          if String.prefix old s
          then new ++ replace_go old new s' (String.length old - 1)
          else String c (replace_go old new s' 0)
      end
  end.

Definition replace (old new s : string) : string := replace_go old new s 0.

(** [s.lower()] on ASCII letters *)
Definition lower_ascii (c : ascii) : ascii :=
  let n := nat_of_ascii c in
  if bool_decide (65 <= n <= 90)%nat then ascii_of_nat (n + 32) else c.

Fixpoint lower (s : string) : string :=
  match s with
  | EmptyString => EmptyString
  | String c s' => String (lower_ascii c) (lower s')
  end.

(** [s.split(sep)[-1]] for a one-character separator: what follows the
    last [sep] ([cur] is the piece being read). *)
Fixpoint last_piece_go (sep : ascii) (s cur : string) : string :=
  match s with
  | EmptyString => String.rev cur
  | String c s' =>
      if bool_decide (c = sep) then last_piece_go sep s' EmptyString
      else last_piece_go sep s' (String c cur)
  end.

Definition last_piece (sep : ascii) (s : string) : string :=
  last_piece_go sep s EmptyString.

(** [f"{n:03d}"] for [n >= 0]: decimal digits, zero-padded to width 3. *)
Definition fmt03d (n : nat) : string :=
  let d := pretty n in
  match String.length d with
  | 1%nat => "00" ++ d
  | 2%nat => "0" ++ d
  | _ => d
  end.

(** Position of the last ['.'] of a file name ([name.rfind('.')]). *)
Fixpoint rfind_dot_go (s : string) (i : nat) (last : option nat) : option nat :=
  match s with
  | EmptyString => last
  | String c s' =>
      rfind_dot_go s' (S i) (if bool_decide (c = "."%char) then Some i else last)
  end.

(** [PurePath.suffix]: the last dot-extension of the name, empty when the
    only dot is the first or the last character. *)
Definition suffix (name : string) : string :=
  match rfind_dot_go name 0 None with
  | Some i =>
      if bool_decide (0 < i < String.length name - 1)%nat
      then drop_chars i name else ""
  | None => ""
  end.

(** [PurePath.stem]: the name without its suffix. *)
Definition stem (name : string) : string :=
  String.substring 0 (String.length name - String.length (suffix name)) name.

(** A path is a directory and a file name; a file system maps paths to
    file contents. *)
Definition path : Type := string * string.

Inductive os := Posix | Windows.

Inductive os_error := FileNotFoundError | FileExistsError.

Definition file_exists (p : path) (fs : gmap path string) : bool :=
  bool_decide (is_Some (fs !! p)).

(** [Path.rename(target)]: on Unix an existing target file is replaced
    silently, on Windows [FileExistsError] is raised. *)
Definition rename (o : os) (src dst : path) (fs : gmap path string)
    : os_error + gmap path string :=
  match fs !! src with
  | None => inl FileNotFoundError
  | Some c =>
      match o with
      | Windows =>
          if file_exists dst fs && negb (bool_decide (src = dst))
          then inl FileExistsError
          else inr (<[dst := c]> (delete src fs))
      | Posix => inr (<[dst := c]> (delete src fs))
      end
  end.

End Py.

(* ===================================================================== *)
(** ** agent_loop.py: the recovery strategy selector                      *)
(* ===================================================================== *)

Module Recovery.

(** [RecoveryStrategy(type=..., reason=..., action=..., alternative_step=...,
    degradation=...)]; the keywords a call leaves out are [None]. *)
Record RecoveryStrategy := mkStrategy {
  type : string;
  reason : string;
  action : string;
  alternative_step : option Engine.Step;
  degradation : option string
}.

Section WithHelpers.

(** [assess_failure_impact] and [find_alternative_approach] are called by
    the selector and defined nowhere in the repository. *)
Variable assess_failure_impact : Engine.Plan -> Engine.Step -> string.
Variable find_alternative_approach : Engine.Plan -> Engine.Step -> option Engine.Step.

Definition determine_recovery_strategy (plan : Engine.Plan)
    (failed_step : Engine.Step) (error : string) : RecoveryStrategy :=
  let impact := assess_failure_impact plan failed_step in
  if bool_decide (impact = "CRITICAL") then
    mkStrategy "ABORT" "Critical step failed, cannot continue"
               "Request human intervention" None None
  else if bool_decide (impact = "HIGH") then
    match find_alternative_approach plan failed_step with
    | Some alternative =>
        mkStrategy "ALTERNATIVE" "Primary approach failed, trying alternative"
                   ("Execute alternative: " ++ Engine.name alternative)
                   (Some alternative) None
    | None =>
        mkStrategy "ABORT" "No alternative approach available"
                   "Request human intervention" None None
    end
  else if bool_decide (impact = "MEDIUM") then
    mkStrategy "SKIP_AND_CONTINUE" "Step failed but not critical"
               "Continue with remaining steps" None
               (Some "Some functionality may be limited")
  else
    mkStrategy "CONTINUE" "Non-critical step failed"
               "Continue with remaining steps" None None.

End WithHelpers.

End Recovery.

(* ===================================================================== *)
(** ** approval_system.py                                                 *)
(* ===================================================================== *)

Module Approval.

Import Py.

(** [class ApprovalStatus(Enum)] *)
Inductive ApprovalStatus := PENDING | APPROVED | REJECTED | EXPIRED.

#[export] Instance ApprovalStatus_eq_dec : EqDecision ApprovalStatus.
Proof. solve_decision. Defined.

(** [ApprovalStatus(status_str)]; [None] stands for [ValueError]. *)
Definition ApprovalStatus_of (s : string) : option ApprovalStatus :=
  if bool_decide (s = "PENDING") then Some PENDING
  else if bool_decide (s = "APPROVED") then Some APPROVED
  else if bool_decide (s = "REJECTED") then Some REJECTED
  else if bool_decide (s = "EXPIRED") then Some EXPIRED
  else None.

(** The values of [ActionType], [ImpactLevel] and [Reversibility]; calling
    the enum on any other string raises [ValueError]. *)
Definition ActionType_values : list string :=
  ["email"; "linkedin_post"; "twitter_post"; "api_call"; "file_delete";
   "database_write"; "financial"; "system_config"].

Definition ImpactLevel_values : list string :=
  ["low"; "medium"; "high"; "critical"].

Definition Reversibility_values : list string :=
  ["reversible"; "partially_reversible"; "irreversible"].

Definition enum_of (values : list string) (s : string) : option string :=
  if bool_decide (s ∈ values) then Some s else None.

(** The task dictionary, with the keys the module reads; an absent key is
    [None]. *)
Record Task := mkTask {
  t_action_type : option string;
  t_impact_level : option string;
  t_data_sensitivity : option string;
  t_reversibility : option string;
  t_content : option string;
  t_recipients : option (list string);
  t_amount : option Z;
  t_priority : option string;
  t_requested_by : option string;
  t_title : option string;
  t_scope : option string;
  t_action_details : option (gmap string string)
}.

(** [self.approval_rules] *)
Record Rules := mkRules {
  sensitive_actions : list string;
  auto_approve : list string;
  always_require_approval : list string;
  timeout_by_priority : gmap string Z
}.

(** The rules [_load_approval_rules] returns when there is no rules file. *)
Definition default_rules : Rules :=
  {| sensitive_actions :=
       ["send_email"; "post_linkedin"; "post_twitter"; "external_api_call";
        "delete_file"; "database_write"; "financial_transaction"];
     auto_approve := [];
     always_require_approval := ["financial_transaction"; "database_write"];
     timeout_by_priority :=
       <["low" := 7200]> (<["medium" := 3600]> (<["high" := 1800]>
         (<["critical" := 900]> ∅))) |}.

(** The fields of [ApprovalManager] set by [__init__]. *)
Record Manager := mkManager {
  vault_path : string;
  poll_interval : Q;
  default_timeout : Z;
  company_domains : list string;
  approval_rules : Rules;
  platform : os
}.

(** [ApprovalManager(config)] for a configuration that gives no key, on a
    machine without a rules file. *)
Definition default_manager (o : os) : Manager :=
  {| vault_path := "memory"; poll_interval := 30; default_timeout := 3600;
     company_domains := ["company.com"]; approval_rules := default_rules;
     platform := o |}.

Definition needs_approval_path (m : Manager) : string :=
  vault_path m ++ "/Needs_Approval".

Definition done_path (m : Manager) : string := vault_path m ++ "/Done".

(** [_contains_pii] *)
Definition _contains_pii (content : string) : bool :=
  let pii_patterns :=
    ["ssn"; "social security"; "credit card"; "card number"; "password";
     "secret"; "bank account"] in
  let content_lower := lower content in
  existsb (fun pattern => contains pattern content_lower) pii_patterns.

(** [_has_external_recipients] *)
Definition _has_external_recipients (m : Manager) (recipients : list string) : bool :=
  existsb
    (fun recipient =>
       let domain := if contains "@" recipient
                     then last_piece "@"%char recipient else "" in
       negb (bool_decide (domain ∈ company_domains m)))
    recipients.

(** [_violates_policy] *)
Definition _violates_policy (m : Manager) (task : Task) : bool :=
  if bool_decide (t_action_type task = Some "send_email")
     && (_contains_pii (default "" (t_content task))
         || _has_external_recipients m (default [] (t_recipients task)))
  then true
  else if bool_decide (t_action_type task = Some "financial_transaction")
          && bool_decide (1000 < default 0 (t_amount task))
  then true
  else if bool_decide (t_action_type task = Some "post_linkedin")
          || bool_decide (t_action_type task = Some "post_twitter")
  then true
  else false.

(** [is_sensitive_action] *)
Definition is_sensitive_action (m : Manager) (task : Task) : bool :=
  let action_type := default "" (t_action_type task) in
  let impact_level := default "low" (t_impact_level task) in
  let data_sensitivity := default "none" (t_data_sensitivity task) in
  let reversibility := default "reversible" (t_reversibility task) in
  if bool_decide (action_type ∈ sensitive_actions (approval_rules m)) then true
  else if bool_decide (action_type ∈ always_require_approval (approval_rules m))
  then true
  else if bool_decide (impact_level ∈ ["high"; "critical"]) then true
  else if bool_decide (data_sensitivity ∈ ["high"; "pii"]) then true
  else if bool_decide (reversibility = "irreversible") then true
  else if _violates_policy m task then true
  else false.

(** [@dataclass class ApprovalRequest]; datetimes are microseconds since the
    epoch, and the fields copied verbatim from [action_details] stay in
    [details]. *)
Record ApprovalRequest := mkRequest {
  approval_id : string;
  created_at : Z;
  status : ApprovalStatus;
  action_type : string;
  priority : string;
  expires_at : Z;
  requested_by : string;
  action_title : string;
  impact_level : string;
  reversibility : string;
  scope : string;
  data_sensitivity : string;
  details : gmap string string
}.

(** [@dataclass class ApprovalDecision] *)
Record ApprovalDecision := mkDecision {
  d_approval_id : string;
  d_status : ApprovalStatus;
  decided_by : string;
  decided_at : Z;
  comments : string
}.

(** [timedelta(seconds=n)] in microseconds *)
Definition timedelta_seconds (n : Z) : Z := n * 1000000.

(** The double-quote character, as a string. *)
Definition dq : string := String "034"%char EmptyString.

(** Exceptions that leave the functions of this module. *)
Inductive exn := ValueError | OSError (e : os_error).

(** What the manager works on: the files under the vault, and the log of
    the tasks the wrapped executor was invoked on. *)
Record World := mkWorld {
  files : gmap path string;
  executed : list Task
}.

(** A computation returns, raises, or is cut off by the fuel of the polling
    loop; in each case it leaves a world behind. *)
Inductive res (A : Type) :=
  | Ok (a : A)
  | Exn (e : exn)
  | OutOfFuel.

Arguments Ok {A} a.
Arguments Exn {A} e.
Arguments OutOfFuel {A}.

Definition M (A : Type) : Type := World -> res A * World.

Definition ret {A} (a : A) : M A := fun w => (Ok a, w).

Definition raise {A} (e : exn) : M A := fun w => (Exn e, w).

Definition bind {A B} (c : M A) (k : A -> M B) : M B :=
  fun w =>
    match c w with
    | (Ok a, w') => k a w'
    | (Exn e, w') => (Exn e, w')
    | (OutOfFuel, w') => (OutOfFuel, w')
    end.

Notation "'do' x <- c ; k" := (bind c (fun x => k))
  (at level 10, x name, c at level 100, k at level 200).

Definition get_files : M (gmap path string) := fun w => (Ok (files w), w).

Definition put_files (fs : gmap path string) : M unit :=
  fun w => (Ok tt, mkWorld fs (executed w)).

Definition log_executed (task : Task) : M unit :=
  fun w => (Ok tt, mkWorld (files w) (executed w ++ [task])).

(** [self.needs_approval_path.glob(f"APR-{day}-*.md")]: the names in the
    pending directory that start with [APR-day-] and end with [.md]. *)
Definition glob_apr (m : Manager) (day : string) (p : path) : bool :=
  let pre := "APR-" ++ day ++ "-" in
  bool_decide (p.1 = needs_approval_path m)
  && startswith pre p.2 && endswith ".md" p.2
  && bool_decide (String.length pre + 3 <= String.length p.2)%nat.

(** [_generate_approval_id]; [timestamp] is what
    [datetime.now().strftime("%Y%m%d-%H%M%S")] returned. *)
Definition _generate_approval_id (m : Manager) (timestamp : string) : M string :=
  do fs <- get_files ;
  let day := String.substring 0 8 timestamp in
  let existing_files := filter (fun kv => glob_apr m day kv.1 = true) fs in
  let sequence := (size existing_files + 1)%nat in
  ret ("APR-" ++ day ++ "-" ++ fmt03d sequence).

(** [_archive_approval]: rename [<id>.md] of the pending directory to
    [<id>-<final_status>.md] of the done directory, when the source exists. *)
Definition _archive_approval (m : Manager) (approval_id final_status : string) : M unit :=
  do fs <- get_files ;
  let source_path := (needs_approval_path m, approval_id ++ ".md") in
  let dest_path := (done_path m, approval_id ++ "-" ++ final_status ++ ".md") in
  if file_exists source_path fs then
    match rename (platform m) source_path dest_path fs with
    | inr fs' => put_files fs'
    | inl e => raise (OSError e)
    end
  else ret tt.

(** [_mark_expired] *)
Definition _mark_expired (m : Manager) (approval_id : string) : M unit :=
  do fs <- get_files ;
  let file_path := (needs_approval_path m, approval_id ++ ".md") in
  match fs !! file_path with
  | Some content =>
      let content :=
        replace ("status: " ++ dq ++ "PENDING" ++ dq)
                ("status: " ++ dq ++ "EXPIRED" ++ dq) content in
      let content := replace "status: PENDING" "status: EXPIRED" content in
      do _ <- put_files (<[file_path := content]> fs) ;
      _archive_approval m approval_id "EXPIRED"
  | None => ret tt
  end.

Section WithLibraries.

(** [yaml.safe_load] on the text between the two [---] markers: the mapping
    it returns, [None] when it raises or returns something else. *)
Variable yaml_safe_load : string -> option (gmap string string).

(** [datetime.fromisoformat]; [None] stands for [ValueError]. *)
Variable fromisoformat : string -> option Z.

(** [_generate_approval_file]: the request rendered through the template
    file found on disk, with [yaml.dump] for the parameters. *)
Variable _generate_approval_file : ApprovalRequest -> string.

(** The [ApprovalRequest(...)] call of [create_approval_request]; [now1] and
    [now2] are its two readings of [datetime.now()]. *)
Definition build_request (m : Manager) (approval_id : string) (task : Task)
    (action_details : gmap string string) (now1 now2 : Z) : option ApprovalRequest :=
  let priority := default "medium" (t_priority task) in
  let timeout_seconds :=
    default (default_timeout m)
            (timeout_by_priority (approval_rules m) !! priority) in
  match enum_of ActionType_values (default "api_call" (t_action_type task)),
        enum_of ImpactLevel_values (default "medium" (t_impact_level task)),
        enum_of Reversibility_values (default "reversible" (t_reversibility task))
  with
  | Some at_, Some il, Some rv =>
      Some {| approval_id := approval_id;
              created_at := now1;
              status := PENDING;
              action_type := at_;
              priority := priority;
              expires_at := now2 + timedelta_seconds timeout_seconds;
              requested_by := default "agent" (t_requested_by task);
              action_title := default "Untitled Action" (t_title task);
              impact_level := il;
              reversibility := rv;
              scope := default "internal" (t_scope task);
              data_sensitivity := default "none" (t_data_sensitivity task);
              details := action_details |}
  | _, _, _ => None
  end.

(** [create_approval_request] *)
Definition create_approval_request (m : Manager) (task : Task)
    (action_details : gmap string string) (timestamp : string) (now1 now2 : Z)
    : M string :=
  do approval_id <- _generate_approval_id m timestamp ;
  match build_request m approval_id task action_details now1 now2 with
  | None => raise ValueError
  | Some approval_request =>
      let approval_content := _generate_approval_file approval_request in
      let file_path := (needs_approval_path m, approval_id ++ ".md") in
      do fs <- get_files ;
      do _ <- put_files (<[file_path := approval_content]> fs) ;
      ret approval_id
  end.

(** [_read_approval_decision]; [None] when it raises (the file is gone, the
    header is not a YAML mapping, the status or the date is not valid);
    [now] is the reading of [datetime.now()] used for the defaults. *)
Definition _read_approval_decision (fs : gmap path string) (file_path : path)
    (now : Z) : option ApprovalDecision :=
  match fs !! file_path with
  | None => None
  | Some content =>
      let pending := Some (mkDecision "" PENDING "" now "") in
      if startswith "---" content then
        let rest := drop_chars 3 content in
        match String.index 0 "---" rest with
        | Some j =>
            match yaml_safe_load (String.substring 0 j rest) with
            | None => None
            | Some frontmatter =>
                match ApprovalStatus_of (default "PENDING" (frontmatter !! "status")),
                      match frontmatter !! "decided_at" with
                      | Some d => fromisoformat d
                      | None => Some now
                      end
                with
                | Some st, Some at_ =>
                    Some (mkDecision (default "" (frontmatter !! "id")) st
                            (default "" (frontmatter !! "decided_by")) at_
                            (default "" (frontmatter !! "approval_comments")))
                | _, _ => None
                end
            end
        | None => pending
        end
      else pending
  end.

(** What happens around the monitor: [clock k] is the reading of
    [time.time()] at the top of iteration [k]; [before_poll k] is what other
    actors (the human editing the document) did to the files since the last
    iteration, [before_read k] what they did between [file_path.exists()] and
    the [open] of iteration [k]; [datetime_now k] is [datetime.now()] there. *)
Record Env := mkEnv {
  clock : nat -> Q;
  before_poll : nat -> gmap path string -> gmap path string;
  before_read : nat -> gmap path string -> gmap path string;
  datetime_now : nat -> Z
}.

Definition interfere (f : gmap path string -> gmap path string) : M unit :=
  fun w => (Ok tt, mkWorld (f (files w)) (executed w)).

(** The [while True] loop of [monitor_approval], iteration [k]. *)
Fixpoint monitor_loop (env : Env) (m : Manager) (approval_id : string)
    (timeout_seconds : Z) (start_time : Q) (fuel k : nat)
    : M (ApprovalStatus * option ApprovalDecision) :=
  match fuel with
  | O => fun w => (OutOfFuel, w)
  | S fuel' =>
      let file_path := (needs_approval_path m, approval_id ++ ".md") in
      do _ <- interfere (before_poll env k) ;
      let elapsed := (clock env k - start_time)%Q in
      if negb (Qle_bool elapsed (inject_Z timeout_seconds)) then
        do _ <- _mark_expired m approval_id ;
        ret (EXPIRED, None)
      else
        do fs <- get_files ;
        if negb (file_exists file_path fs) then ret (REJECTED, None)
        else
          do _ <- interfere (before_read env k) ;
          do fs <- get_files ;
          match _read_approval_decision fs file_path (datetime_now env k) with
          | Some decision =>
              match d_status decision with
              | APPROVED => ret (APPROVED, Some decision)
              | REJECTED => ret (REJECTED, Some decision)
              | _ => monitor_loop env m approval_id timeout_seconds start_time fuel' (S k)
              end
          | None =>
              monitor_loop env m approval_id timeout_seconds start_time fuel' (S k)
          end
  end.

(** [monitor_approval]; [start_time] is the reading of [time.time()] taken
    before the loop. *)
Definition monitor_approval (env : Env) (m : Manager) (approval_id : string)
    (timeout_seconds : option Z) (start_time : Q) (fuel : nat)
    : M (ApprovalStatus * option ApprovalDecision) :=
  let timeout_seconds := default (default_timeout m) timeout_seconds in
  monitor_loop env m approval_id timeout_seconds start_time fuel 0.

(** The dictionaries [execute_with_approval_check] returns. *)
Inductive Response :=
  | Direct (result : string)
  | Success (approval_id : string) (result : string)
  | Rejected (approval_id : string) (reason : string)
  | Expired (approval_id : string) (reason : string).

(** The wrapped [executor.execute]. *)
Variable original_execute : Task -> string.

(** [execute_with_approval_check], the closure [integrate_with_executor]
    installs as [executor.execute]. *)
Definition execute_with_approval_check (env : Env) (m : Manager) (task : Task)
    (timestamp : string) (now1 now2 : Z) (start_time : Q) (fuel : nat)
    : M Response :=
  if is_sensitive_action m task then
    do approval_id <- create_approval_request m task
                     (default ∅ (t_action_details task)) timestamp now1 now2 ;
    do r <- monitor_approval env m approval_id None start_time fuel ;
    let '(status, decision) := r in
    match status with
    | APPROVED =>
        do _ <- log_executed task ;
        let result := original_execute task in
        do _ <- _archive_approval m approval_id "EXECUTED" ;
        ret (Success approval_id result)
    | REJECTED =>
        do _ <- _archive_approval m approval_id "REJECTED" ;
        ret (Rejected approval_id
               (match decision with
                | Some d => comments d
                | None => "No reason provided"
                end))
    | _ => ret (Expired approval_id "Approval request timed out")
    end
  else
    do _ <- log_executed task ;
    ret (Direct (original_execute task)).

End WithLibraries.

End Approval.

(* ===================================================================== *)
(** ** inbox_watcher.py: FileManager.move_file                            *)
(* ===================================================================== *)

Module Inbox.

Import Py.

(** [move_file(source, destination)]; [timestamp] is what
    [datetime.now().strftime("%Y%m%d-%H%M%S")] returns when it is read.  The
    [except Exception] clause turns a failed rename into [False]. *)
Definition move_file (o : os) (fs : gmap path string) (source destination : path)
    (timestamp : string) : gmap path string * bool :=
  let destination :=
    if file_exists destination fs then
      let stem := stem destination.2 in
      let suffix := suffix destination.2 in
      (destination.1, stem ++ "_" ++ timestamp ++ suffix)
    else destination in
  match rename o source destination fs with
  | inr fs' => (fs', true)
  | inl _ => (fs, false)
  end.

End Inbox.

(* ===================================================================== *)
(** ** file_watcher_service.py: InboxEventHandler                         *)
(* ===================================================================== *)

Module Watcher.

(** The fields of [WatcherConfig] the handler reads. *)
Record WatcherConfig := mkConfig {
  watch_patterns : list string;
  ignore_patterns : list string;
  debounce_seconds : Q;
  max_queue_size : Z
}.

(** [WatcherConfig()] *)
Definition default_config : WatcherConfig :=
  {| watch_patterns := ["*.md"; "*.txt"]; ignore_patterns := ["*.tmp"; ".*"];
     debounce_seconds := 2; max_queue_size := 100 |}.

(** A watchdog event; [src_path] is the path as [str(Path(event.src_path))]
    prints it. *)
Record Event := mkEvent {
  is_directory : bool;
  src_path : string
}.

(** The handler's [processed_files] dictionary (path to [datetime], in
    microseconds) and the [queue.Queue] it shares with the consumer thread. *)
Record Handler := mkHandler {
  processed_files : gmap string Z;
  event_queue : list string
}.

(** [timedelta(hours=1)] in microseconds *)
Definition one_hour : Z := 3600000000.

Section WithPathMatch.

(** [PurePath.match(pattern)] *)
Variable path_match : string -> string -> bool.

Variable config : WatcherConfig.

(** [_should_process_file]: the ignore patterns are tried first. *)
Definition _should_process_file (file_path : string) : bool :=
  if existsb (fun pattern => path_match file_path pattern) (ignore_patterns config)
  then false
  else existsb (fun pattern => path_match file_path pattern) (watch_patterns config).

(** [_is_recently_processed]; [now] is its reading of [datetime.now()]. *)
Definition _is_recently_processed (processed : gmap string Z) (file_path : string)
    (now : Z) : bool :=
  match processed !! file_path with
  | Some last_processed =>
      let time_since := now - last_processed in
      (* time_since.total_seconds() < self.config.debounce_seconds *)
      negb (Qle_bool (debounce_seconds config) (time_since # 1000000))
  | None => false
  end.

(** [_mark_processed]; [now1] and [now2] are its two readings of
    [datetime.now()]. *)
Definition _mark_processed (processed : gmap string Z) (file_path : string)
    (now1 now2 : Z) : gmap string Z :=
  let processed := <[file_path := now1]> processed in
  let cutoff := now2 - one_hour in
  filter (fun kv => cutoff < kv.2) processed.

(** [event_queue.put(item, block=False)]: [None] stands for [queue.Full]; a
    queue built with [maxsize <= 0] is unbounded. *)
Definition put_nowait (q : list string) (item : string) : option (list string) :=
  if bool_decide (0 < max_queue_size config)
     && bool_decide (max_queue_size config <= Z.of_nat (length q))
  then None else Some (q ++ [item])%list.

(** [on_created]; [now0], [now1] and [now2] are the readings of
    [datetime.now()] it makes, in order. *)
Definition on_created (h : Handler) (event : Event) (now0 now1 now2 : Z) : Handler :=
  if is_directory event then h
  else
    let file_path := src_path event in
    if negb (_should_process_file file_path) then h
    else if _is_recently_processed (processed_files h) file_path now0 then h
    else
      let processed := _mark_processed (processed_files h) file_path now1 now2 in
      match put_nowait (event_queue h) file_path with
      | Some q => mkHandler processed q
      | None => mkHandler processed (event_queue h)
      end.

End WithPathMatch.

End Watcher.

(* ===================================================================== *)
(** ** iterative_reasoning_engine.py: plan creation                        *)
(* ===================================================================== *)

Module Creation.

Import Py Engine.

(** One entry of [task['steps']], with the keys [_decompose_into_steps]
    reads and the engine uses; an absent key is [None]. *)
Record StepSpec := mkSpec {
  s_name : option string;
  s_actions : option (list string);
  s_dependencies : option (list string);
  s_is_critical : option bool
}.

(** The [Step(...)] built for entry [i] of [enumerate(task['steps'])]. *)
Definition step_of_spec (i : nat) (s : StepSpec) : Step :=
  {| id := "step-" ++ fmt03d (i + 1);
     name := default ("Step " ++ pretty (i + 1)%nat) (s_name s);
     actions := default [] (s_actions s);
     status := PENDING;
     dependencies := default [] (s_dependencies s);
     attempts := 0; max_attempts := 3; actual_outputs := ∅;
     is_critical := default true (s_is_critical s);
     risk_level := "MEDIUM" |}.

Section WithLower.

(** [str.lower], the library's: it lowers every cased character of the
    text, not the ASCII letters alone. *)
Variable str_lower : string -> string.

(** [_classify_task_type]; the keywords are ASCII, for which the substring
    test on the UTF-8 text is the one on its characters. *)
Definition _classify_task_type (objective : string) : string :=
  let objective_lower := str_lower objective in
  if existsb (fun kw => contains kw objective_lower)
       ["data"; "analyze"; "process"; "calculate"]
  then "DATA_PROCESSING"
  else if existsb (fun kw => contains kw objective_lower)
            ["report"; "generate"; "document"; "summary"]
  then "REPORT_GENERATION"
  else if existsb (fun kw => contains kw objective_lower)
            ["integrate"; "connect"; "api"; "sync"]
  then "INTEGRATION"
  else "GENERIC".

Definition _create_data_processing_steps : list Step :=
  [new_step "step-001" "Fetch Data"
     ["connect_to_source"; "execute_query"; "export_data"] [];
   new_step "step-002" "Validate and Clean Data"
     ["validate_schema"; "check_nulls"; "remove_duplicates";
      "standardize_formats"] ["step-001"];
   new_step "step-003" "Process Data"
     ["transform_data"; "calculate_metrics"; "aggregate_results"] ["step-002"];
   new_step "step-004" "Generate Outputs"
     ["format_results"; "create_visualizations"; "export_outputs"] ["step-003"]].

Definition _create_report_generation_steps : list Step :=
  [new_step "step-001" "Gather Information"
     ["identify_sources"; "collect_data"; "verify_completeness"] [];
   new_step "step-002" "Analyze and Synthesize"
     ["analyze_data"; "identify_trends"; "generate_insights"] ["step-001"];
   new_step "step-003" "Create Report"
     ["load_template"; "populate_content"; "add_visualizations";
      "format_document"] ["step-002"];
   new_step "step-004" "Review and Finalize"
     ["quality_check"; "spell_check"; "verify_accuracy"; "export_final"]
     ["step-003"]].

Definition _create_generic_steps (objective : string) : list Step :=
  [new_step "step-001" "Prepare"
     ["validate_inputs"; "check_resources"; "setup_environment"] [];
   new_step "step-002" "Execute" ["execute_main_task"] ["step-001"];
   new_step "step-003" "Verify"
     ["validate_outputs"; "check_success_criteria"] ["step-002"]].

(** What leaves plan creation instead of a plan: [AttributeError] for the
    method [_create_integration_steps], which the class does not define,
    and the errors of the engine itself. *)
Inductive exn := AttributeError | PlanError (e : error).

(** [_decompose_into_steps]; [task_steps] is [task['steps']] when the key
    is there. *)
Definition _decompose_into_steps (objective : string)
    (task_steps : option (list StepSpec)) : exn + list Step :=
  match task_steps with
  | Some l => inr (imap step_of_spec l)
  | None =>
      let task_type := _classify_task_type objective in
      if bool_decide (task_type = "DATA_PROCESSING")
      then inr _create_data_processing_steps
      else if bool_decide (task_type = "REPORT_GENERATION")
      then inr _create_report_generation_steps
      else if bool_decide (task_type = "INTEGRATION")
      then inl AttributeError
      else inr (_create_generic_steps objective)
  end.

(** [analyze_and_create_plan]; [plan_id] is what [_generate_plan_id]
    returned. *)
Definition analyze_and_create_plan (task_objective task_description : option string)
    (task_steps : option (list StepSpec)) (plan_id : string) : exn + Plan :=
  let objective :=
    default (default "Unknown objective" task_description) task_objective in
  match _decompose_into_steps objective task_steps with
  | inl e => inl e
  | inr steps =>
      let plan := mkPlan plan_id objective steps P_NOT_STARTED in
      match _write_plan_markdown plan with
      | inl e => inl (PlanError e)
      | inr _ => inr plan
      end
  end.

End WithLower.

End Creation.

(* ===================================================================== *)
(** ** inbox_watcher.py: routing and the inbox event handler              *)
(* ===================================================================== *)

Module InboxHandler.

Import Py Inbox.

Definition INBOX_PATH : string := "AI_Employee_Vault/Inbox".
Definition NEEDS_ACTION_PATH : string := "AI_Employee_Vault/Needs_Action".
Definition DONE_PATH : string := "AI_Employee_Vault/Done".

(** [FILE_STABLE_DELAY], in seconds *)
Definition FILE_STABLE_DELAY : Q := 2.

(** [TriageProcessor._route_file]; [status] is [triage_result.get('status')]
    when the key is there, [timestamp] what [move_file] reads from the clock
    when it needs it. *)
Definition _route_file (o : os) (fs : gmap path string) (file_path : path)
    (status : option string) (timestamp : string) : gmap path string * bool :=
  let status := default "needs_action" status in
  let filename := file_path.2 in
  if bool_decide (status = "needs_action") then
    move_file o fs file_path (NEEDS_ACTION_PATH, filename) timestamp
  else if bool_decide (status = "needs_clarification") then
    let new_filename := "[CLARIFICATION]-" ++ filename in
    move_file o fs file_path (INBOX_PATH, new_filename) timestamp
  else if bool_decide (status = "blocked") then
    let new_filename := "[BLOCKED]-" ++ filename in
    move_file o fs file_path (INBOX_PATH, new_filename) timestamp
  else if bool_decide (status = "completed") then
    move_file o fs file_path (DONE_PATH, filename) timestamp
  else
    move_file o fs file_path (NEEDS_ACTION_PATH, filename) timestamp.

(** A watchdog event of the inbox observer. *)
Record Event := mkEvent {
  is_directory : bool;
  src_path : path
}.

(** The handler's [pending_files] dictionary, in insertion order (path to
    the reading of [time.time()] at detection), and the module-level set
    [processed_files]. *)
Record State := mkState {
  pending_files : list (path * Q);
  processed_files : gset path
}.

(** [d[k] = v] on a dictionary kept in insertion order. *)
Fixpoint dict_set (k : path) (v : Q) (d : list (path * Q)) : list (path * Q) :=
  match d with
  | [] => [(k, v)]
  | (k', v') :: d' =>
      if bool_decide (k' = k) then (k, v) :: d' else (k', v') :: dict_set k v d'
  end.

(** [InboxWatcherHandler.on_created]; [now] is its reading of
    [time.time()]. *)
Definition on_created (s : State) (event : Event) (now : Q) : State :=
  if is_directory event then s
  else
    let file_path := src_path event in
    if negb (bool_decide (lower (suffix file_path.2) = ".md")) then s
    else if startswith "[CLARIFICATION]" file_path.2
            || startswith "[BLOCKED]" file_path.2 then s
    else if bool_decide (file_path ∈ processed_files s) then s
    else mkState (dict_set file_path now (pending_files s)) (processed_files s).

Section WithProcessor.

(** [TriageProcessor.process_file], as it acts on the files. *)
Variable process_file : gmap path string -> path -> gmap path string * bool.

(** [current_time - detection_time >= FILE_STABLE_DELAY] *)
Definition stabilized (current_time : Q) (entry : path * Q) : bool :=
  Qle_bool FILE_STABLE_DELAY (current_time - entry.2).

(** The second loop of [process_pending_files], over [files_to_process]. *)
Fixpoint process_all (fs : gmap path string) (processed : gset path)
    (files_to_process : list path) : gmap path string * gset path :=
  match files_to_process with
  | [] => (fs, processed)
  | file_path :: rest =>
      if negb (file_exists file_path fs) then process_all fs processed rest
      else
        let '(fs', success) := process_file fs file_path in
        if success then process_all fs' ({[file_path]} ∪ processed) rest
        else process_all fs' processed rest
  end.

(** [process_pending_files]; [current_time] is its reading of
    [time.time()]. *)
Definition process_pending_files (s : State) (fs : gmap path string)
    (current_time : Q) : State * gmap path string :=
  let files_to_process :=
    (List.filter (stabilized current_time) (pending_files s)).*1 in
  let pending :=
    List.filter (fun entry => negb (stabilized current_time entry))
      (pending_files s) in
  let '(fs', processed) := process_all fs (processed_files s) files_to_process in
  (mkState pending processed, fs').

End WithProcessor.

End InboxHandler.

(* ===================================================================== *)
(** ** core/task_router.py: TaskRouter                                    *)
(* ===================================================================== *)

Module Router.

Import Py.

(** One entry of the rules file, with the keys [_matches_rule] reads; an
    absent key is [None], and [rule_any_mcp_call] is the truth value of
    [rule.get('any_mcp_call')]. *)
Record Rule := mkRule {
  rule_skill : option string;
  rule_action_type : option string;
  rule_any_mcp_call : bool
}.

(** [self.approval_rules] *)
Record ApprovalRules := mkRules {
  auto_approve : list Rule;
  require_approval : list Rule
}.

(** The rules of a router whose rules file does not exist. *)
Definition default_rules : ApprovalRules :=
  {| auto_approve := []; require_approval := [] |}.

(** The event dictionary, with the keys the router reads. *)
Record Event := mkEvent {
  e_type : option string;
  e_matched_skill : option string;
  e_action_type : option string;
  e_requires_mcp : bool
}.

(** The output of the reasoning engine, with the keys the router reads. *)
Record Reasoning := mkReasoning {
  requires_approval : bool;
  confidence : option Q
}.

(** The fields of [TaskRouter] set by [__init__]. *)
Record TaskRouter := mkRouter {
  needs_action_path : string;
  needs_approval_path : string;
  approval_rules : ApprovalRules
}.

(** [_matches_rule] *)
Definition _matches_rule (event : Event) (rule : Rule) : bool :=
  if match rule_skill rule with
     | Some skill =>
         let matched_skill := default "" (e_matched_skill event) in
         negb (bool_decide (matched_skill = skill))
     | None => false
     end
  then false
  else if match rule_action_type rule with
          | Some action_type =>
              negb (bool_decide (e_action_type event = Some action_type))
          | None => false
          end
  then false
  else if rule_any_mcp_call rule && e_requires_mcp event then true
  else true.

(** [_check_approval_required] *)
Definition _check_approval_required (router : TaskRouter) (event : Event)
    (reasoning : Reasoning) : bool :=
  if requires_approval reasoning then true
  else if negb (Qle_bool 80 (default 0%Q (confidence reasoning))) then true
  else if existsb (_matches_rule event) (auto_approve (approval_rules router))
  then false
  else if existsb (_matches_rule event) (require_approval (approval_rules router))
  then true
  else true.

(** [_create_task_file]; [timestamp] is what
    [datetime.now().strftime("%Y%m%d-%H%M%S")] returned.  [write_text]
    replaces a file that is there. *)
Definition _create_task_file (fs : gmap path string) (destination content : string)
    (event : Event) (timestamp : string) : gmap path string * path :=
  let event_type := replace " " "_" (default "unknown" (e_type event)) in
  let filename := "task-" ++ timestamp ++ "-" ++ event_type ++ ".md" in
  let task_file := (destination, filename) in
  (<[task_file := content]> fs, task_file).

Section WithContent.

(** [_generate_task_content]; the last argument is its reading of the
    clock. *)
Variable _generate_task_content : Event -> Reasoning -> string -> string.

(** [route_task]; [created] is the clock reading of the content,
    [timestamp] the one of the file name. *)
Definition route_task (router : TaskRouter) (fs : gmap path string)
    (event : Event) (reasoning : Reasoning) (created timestamp : string)
    : gmap path string * path :=
  let requires_approval := _check_approval_required router event reasoning in
  let task_content := _generate_task_content event reasoning created in
  if requires_approval then
    _create_task_file fs (needs_approval_path router) task_content event timestamp
  else
    _create_task_file fs (needs_action_path router) task_content event timestamp.

End WithContent.

End Router.

(* ===================================================================== *)
(** ** file_watcher_service.py: AgentTrigger                              *)
(* ===================================================================== *)

Module Trigger.

(** The counters of [AgentTrigger]. *)
Record Counters := mkCounters {
  processing_count : Z;
  success_count : Z;
  failure_count : Z
}.

(** What the file system answers while [trigger_agent] runs:
    [file_path.exists()], [file_path.is_file()], and whether
    [file_path.stat()] and the read of the file go through. *)
Record Probe := mkProbe {
  p_exists : bool;
  p_is_file : bool;
  p_stat_ok : bool
}.

(** [_execute_agent_loop]: the call of the agent is simulated. *)
Definition _execute_agent_loop : bool := true.

(** [trigger_agent]; [_create_task_from_file] catches its own exceptions. *)
Definition trigger_agent (c : Counters) (f : Probe) : Counters * bool :=
  let c := mkCounters (processing_count c + 1) (success_count c) (failure_count c) in
  if negb (p_exists f) then (c, false)
  else if negb (p_is_file f) then (c, false)
  else if negb (p_stat_ok f) then
    (mkCounters (processing_count c) (success_count c) (failure_count c + 1), false)
  else
    let success := _execute_agent_loop in
    if success then
      (mkCounters (processing_count c) (success_count c + 1) (failure_count c), success)
    else
      (mkCounters (processing_count c) (success_count c) (failure_count c + 1), success).

End Trigger.

(* ===================================================================== *)
(** ** watchers/file_watcher.py: FileWatcherHandler                       *)
(* ===================================================================== *)

Module FileWatcher.

(** A watchdog event, with what [file_path.stat()] answers while it is
    handled: the modification time as [f"{stat.st_mtime}"] prints it, [None]
    when [stat] raises. *)
Record Event := mkEvent {
  is_directory : bool;
  src_path : string;
  st_mtime : option string
}.

(** The handler's [processed_files] set and the calls of [self.callback]
    made so far, the latest last; each call is named by the event that
    caused it. *)
Record Handler := mkHandler {
  processed_files : gset string;
  callbacks : list Event
}.

Section WithLibraries.

(** [PurePath.match(pattern)] *)
Variable path_match : string -> string -> bool.

(** [hashlib.md5(s.encode()).hexdigest()] *)
Variable md5_hexdigest : string -> string.

(** [self.patterns] *)
Variable patterns : list string.

(** [_get_file_hash] *)
Definition _get_file_hash (event : Event) : string :=
  match st_mtime event with
  | Some mtime => md5_hexdigest (src_path event ++ ":" ++ mtime)
  | None => src_path event
  end.

(** [on_created] *)
Definition on_created (h : Handler) (event : Event) : Handler :=
  if is_directory event then h
  else if negb (existsb (fun pattern => path_match (src_path event) pattern) patterns)
  then h
  else
    let file_hash := _get_file_hash event in
    if bool_decide (file_hash ∈ processed_files h) then h
    else mkHandler ({[file_hash]} ∪ processed_files h) (callbacks h ++ [event]).

End WithLibraries.

End FileWatcher.

(* ===================================================================== *)
(** ** Facts about the plan execution engine                           *)
(* ===================================================================== *)

Module EngineFacts.

Import Engine.

(** A step that the scan of [_get_next_step] hands back when it reaches it. *)
Definition eligible (l : list Step) (s : Step) : Prop :=
  status s = PENDING /\ _are_dependencies_met s l = true
  /\ attempts s < max_attempts s.

(** A step that the scan marks FAILED when it reaches it. *)
Definition exhausted (l : list Step) (s : Step) : Prop :=
  status s = PENDING /\ _are_dependencies_met s l = true
  /\ max_attempts s <= attempts s.

#[export] Instance exhausted_dec l s : Decision (exhausted l s).
Proof. unfold exhausted. apply _. Defined.

(** What the scan does to a step it passes over. *)
Definition mark (l : list Step) (s : Step) : Step :=
  if decide (exhausted l s) then set_status s FAILED else s.

Definition attempts_bounded (l : list Step) : Prop :=
  Forall (fun s => attempts s <= max_attempts s) l.

Lemma dep_lookup_mark_failed (dep : string) l i s :
  l !! i = Some s -> status s = PENDING ->
  match List.find (fun x => bool_decide (id x = dep)) (<[i := set_status s FAILED]> l) with
  | None => false
  | Some d => bool_decide (status d = COMPLETED)
  end
  = match List.find (fun x => bool_decide (id x = dep)) l with
    | None => false
    | Some d => bool_decide (status d = COMPLETED)
    end.
Proof.
  revert i. induction l as [|x l IH]; intros [|i] Hi Hs; simplify_eq/=.
  - destruct (bool_decide (id s = dep)); [|done]. by rewrite Hs.
  - destruct (bool_decide (id x = dep)); [done|]. by apply IH.
Qed.

(** Marking a PENDING step FAILED changes no dependency check: the step was
    not COMPLETED before and is not COMPLETED after. *)
Lemma deps_met_mark_failed l i s t :
  l !! i = Some s -> status s = PENDING ->
  _are_dependencies_met t (<[i := set_status s FAILED]> l)
  = _are_dependencies_met t l.
Proof.
  intros Hi Hs. unfold _are_dependencies_met.
  induction (dependencies t) as [|dep ds IH]; [done|]. simpl.
  rewrite IH. f_equal. by apply dep_lookup_mark_failed.
Qed.

Lemma eligible_mark_failed l i s t :
  l !! i = Some s -> status s = PENDING ->
  eligible (<[i := set_status s FAILED]> l) t <-> eligible l t.
Proof.
  intros Hi Hs. unfold eligible. by rewrite (deps_met_mark_failed l i s t Hi Hs).
Qed.

Lemma mark_mark_failed l i s t :
  l !! i = Some s -> status s = PENDING ->
  mark (<[i := set_status s FAILED]> l) t = mark l t.
Proof.
  intros Hi Hs.
  assert (exhausted (<[i := set_status s FAILED]> l) t <-> exhausted l t) as Hiff.
  { unfold exhausted. by rewrite (deps_met_mark_failed l i s t Hi Hs). }
  unfold mark. repeat case_decide; tauto.
Qed.

(** The scan from position [i]: it stops at [k] (the position handed back,
    or the end of the list), has marked the exhausted steps of [i..k-1], has
    left every other step alone, and has passed over no eligible step. *)
Lemma next_step_loop_spec n i l l' r :
  next_step_loop n i l = (l', r) -> (length l <= n + i)%nat ->
  let k := default (length l) r in
  (forall j, l' !! j = if decide (i <= j < k)%nat then mark l <$> l !! j else l !! j)
  /\ (forall j s, (i <= j < k)%nat -> l !! j = Some s -> ~ eligible l s)
  /\ match r with
     | Some k => (i <= k)%nat /\ exists s, l !! k = Some s /\ eligible l s
     | None => True
     end.
Proof.
  revert i l. induction n as [|n IH]; intros i l Hloop Hlen; simpl in Hloop.
  { simplify_eq/=. split_and!; [|intros; lia|done].
    intros j. case_decide; [lia|done]. }
  destruct (l !! i) as [step|] eqn:Hi; cycle 1.
  { simplify_eq/=. apply lookup_ge_None in Hi.
    split_and!; [|intros; lia|done]. intros j. case_decide; [lia|done]. }
  assert (Hskip : forall l1,
    (forall t, eligible l1 t <-> eligible l t) ->
    (forall t, mark l1 t = mark l t) ->
    length l1 = length l ->
    (forall j, j <> i -> l1 !! j = l !! j) ->
    l1 !! i = Some (mark l step) ->
    ~ eligible l step ->
    next_step_loop n (S i) l1 = (l', r) ->
    let k := default (length l) r in
    (forall j, l' !! j = if decide (i <= j < k)%nat then mark l <$> l !! j else l !! j)
    /\ (forall j s, (i <= j < k)%nat -> l !! j = Some s -> ~ eligible l s)
    /\ match r with
       | Some k => (i <= k)%nat /\ exists s, l !! k = Some s /\ eligible l s
       | None => True
       end).
  { intros l1 Hel Hmk Hl1 Hother Hat Hnel Hrec.
    apply IH in Hrec; [|lia]. rewrite Hl1 in Hrec.
    destruct Hrec as (Hlook & Hnone & Hr). simpl.
    assert (Hk : (S i <= default (length l) r)%nat).
    { destruct r as [k|]; simpl; [lia|]. apply lookup_lt_Some in Hi. lia. }
    split_and!.
    - intros j. rewrite Hlook. destruct (decide (j = i)) as [->|Hne].
      + rewrite decide_False by lia. rewrite decide_True by lia.
        by rewrite Hat, Hi.
      + rewrite Hother by done.
        destruct (decide (S i <= j < _)%nat), (decide (i <= j < _)%nat);
          try lia; [|done].
        destruct (l !! j); [|done]. simpl. by rewrite Hmk.
    - intros j s Hj Hs. destruct (decide (j = i)) as [->|Hne].
      + by simplify_eq.
      + rewrite <-Hel. apply (Hnone j); [lia|]. by rewrite Hother.
    - destruct r as [k|]; [|done]. destruct Hr as (Hik & s & Hs & He).
      split; [lia|]. exists s. rewrite <-Hel. split; [|done].
      rewrite <-Hother; [done|lia]. }
  destruct (bool_decide (status step = PENDING)) eqn:Hp; simpl in Hloop;
    [apply bool_decide_eq_true in Hp|apply bool_decide_eq_false in Hp]; cycle 1.
  { apply (Hskip l); try done.
    - rewrite Hi. f_equal. unfold mark, exhausted. rewrite decide_False; tauto.
    - unfold eligible. tauto. }
  destruct (_are_dependencies_met step l) eqn:Hd; simpl in Hloop; cycle 1.
  { apply (Hskip l); try done.
    - rewrite Hi. f_equal. unfold mark, exhausted. rewrite decide_False; [done|].
      rewrite Hd. intros (_ & ? & _); discriminate.
    - unfold eligible. rewrite Hd. intros (_ & ? & _); discriminate. }
  destruct (bool_decide (max_attempts step <= attempts step)) eqn:Hm;
    [apply bool_decide_eq_true in Hm|apply bool_decide_eq_false in Hm].
  { apply (Hskip (<[i := set_status step FAILED]> l)); try done.
    - intros t. by apply eligible_mark_failed.
    - intros t. by apply mark_mark_failed.
    - by rewrite length_insert.
    - intros j Hj. by rewrite list_lookup_insert_ne.
    - rewrite list_lookup_insert_eq by (by eapply lookup_lt_Some).
      f_equal. unfold mark. by rewrite decide_True.
    - unfold eligible. lia. }
  simplify_eq/=. split_and!.
  - intros j. case_decide; [lia|done].
  - intros; lia.
  - lia.
  - exists step. unfold eligible. split_and!; [done..|lia].
Qed.

(** Every dependency id of [s] names a step of [l] (the first one that
    carries the id), and that step is COMPLETED. *)
Definition dependencies_completed (l : list Step) (s : Step) : Prop :=
  forall dep, dep ∈ dependencies s ->
    exists d, List.find (fun x => bool_decide (id x = dep)) l = Some d
              /\ status d = COMPLETED.

Lemma are_dependencies_met_spec s l :
  _are_dependencies_met s l = true <-> dependencies_completed l s.
Proof.
  unfold _are_dependencies_met, dependencies_completed.
  induction (dependencies s) as [|dep ds IH]; simpl.
  - split; [|done]. intros _ dep Hin. by apply elem_of_nil in Hin.
  - rewrite andb_true_iff, IH. split.
    + intros [Hd Hds] dep' Hin. apply elem_of_cons in Hin as [->|Hin]; [|by apply Hds].
      destruct (List.find _ l) as [d|]; [|done].
      exists d. split; [done|]. by apply bool_decide_eq_true in Hd.
    + intros H. split.
      * destruct (H dep) as (d & -> & Hd); [by left|]. by apply bool_decide_eq_true.
      * intros dep' Hin. apply H. by right.
Qed.

Lemma next_step_loop_length n i l :
  length (next_step_loop n i l).1 = length l.
Proof.
  revert i l. induction n as [|n IH]; intros i l; simpl; [done|].
  destruct (l !! i) as [step|]; [|done].
  repeat (case_match; simpl; try done); rewrite IH; by rewrite ?length_insert.
Qed.

Lemma get_next_step_length plan :
  length (steps (_get_next_step plan).1) = length (steps plan).
Proof.
  unfold _get_next_step.
  pose proof (next_step_loop_length (length (steps plan)) 0 (steps plan)).
  by destruct (next_step_loop _ _ _).
Qed.

(** What [_get_next_step] returns and what it leaves behind. *)
Lemma get_next_step_spec plan plan' r :
  _get_next_step plan = (plan', r) ->
  let l := steps plan in
  let k := default (length l) r in
  plan_status plan' = plan_status plan
  /\ (forall j, steps plan' !! j
                = if decide (j < k)%nat then mark l <$> l !! j else l !! j)
  /\ (forall j s, (j < k)%nat -> l !! j = Some s -> ~ eligible l s)
  /\ match r with
     | Some k => exists s, l !! k = Some s /\ eligible l s
     | None => True
     end.
Proof.
  unfold _get_next_step. intros H.
  destruct (next_step_loop _ _ _) as [l' r'] eqn:Hloop. simplify_eq/=.
  apply next_step_loop_spec in Hloop as (Hlook & Hnone & Hr); [|lia].
  split_and!; [done| | |].
  - intros j. rewrite Hlook. repeat case_decide; try lia; done.
  - intros j s Hj. apply Hnone. lia.
  - destruct r; [|done]. by destruct Hr as [_ Hr].
Qed.

(** The selection criterion in the words of the specification. *)
Definition ready (l : list Step) (s : Step) : Prop :=
  status s = PENDING /\ dependencies_completed l s
  /\ attempts s < max_attempts s.

Lemma eligible_ready l s : eligible l s <-> ready l s.
Proof. unfold eligible, ready. by rewrite are_dependencies_met_spec. Qed.

(** C3 (as amended): [_get_next_step] hands back the first step of the plan
    that is PENDING, has every dependency COMPLETED and has attempts left,
    and [None] when there is no such step; a PENDING step with every
    dependency COMPLETED whose attempt counter has reached its bound is
    marked FAILED when it lies before the position where the scan stops; no
    step whose counter has reached its bound and no step with a dependency
    that is not COMPLETED is handed back; all other steps are left alone. *)
Theorem get_next_step_first_ready plan plan' r :
  _get_next_step plan = (plan', r) ->
  let l := steps plan in
  let stop := default (length l) r in
  (forall k, r = Some k ->
     exists s, l !! k = Some s /\ steps plan' !! k = Some s /\ ready l s
               /\ forall j t, (j < k)%nat -> l !! j = Some t -> ~ ready l t)
  /\ (r = None -> forall j t, l !! j = Some t -> ~ ready l t)
  /\ (forall j t, l !! j = Some t -> (j < stop)%nat ->
        status t = PENDING -> dependencies_completed l t ->
        max_attempts t <= attempts t ->
        steps plan' !! j = Some (set_status t FAILED))
  /\ (forall j t, l !! j = Some t -> max_attempts t <= attempts t ->
        r <> Some j)
  /\ (forall j t, l !! j = Some t -> ~ dependencies_completed l t ->
        r <> Some j /\ steps plan' !! j = Some t)
  /\ (forall j t, l !! j = Some t -> status t <> PENDING ->
        steps plan' !! j = Some t).
Proof.
  intros H. apply get_next_step_spec in H as (_ & Hlook & Hnone & Hr).
  simpl. split_and!.
  - intros k ->. destruct Hr as (s & Hs & He). exists s. simpl in *.
    split_and!; [done| |by apply eligible_ready|].
    + rewrite Hlook. rewrite decide_False by lia. done.
    + intros j t Hj Ht. rewrite <-eligible_ready. by apply (Hnone j).
  - intros -> j t Ht. rewrite <-eligible_ready. apply (Hnone j); [|done].
    simpl. by eapply lookup_lt_Some.
  - intros j t Ht Hj Hp Hd Hm. rewrite Hlook, decide_True, Ht by done.
    simpl. unfold mark. rewrite decide_True; [done|].
    unfold exhausted. by rewrite are_dependencies_met_spec.
  - intros j t Ht Hm ->. destruct Hr as (s & Hs & He).
    unfold eligible in He. simplify_eq. lia.
  - intros j t Ht Hd. split.
    + intros ->. destruct Hr as (s & Hs & He). simplify_eq.
      apply eligible_ready in He. unfold ready in He. tauto.
    + rewrite Hlook, Ht. case_decide; [|done]. simpl. unfold mark.
      rewrite decide_False; [done|]. unfold exhausted.
      rewrite are_dependencies_met_spec. tauto.
  - intros j t Ht Hp. rewrite Hlook, Ht. case_decide; [|done]. simpl.
    unfold mark. rewrite decide_False; [done|]. unfold exhausted. tauto.
Qed.

(** A plan whose second step is PENDING with its three attempts used up,
    behind a first step that is ready. *)
Definition plan_exhausted_behind_ready : Plan :=
  mkPlan "plan-c3" "objective"
    [new_step "step-001" "A" ["a"] [];
     set_attempts (new_step "step-002" "B" ["b"] []) 3]
    P_IN_PROGRESS.

(** C3 (as stated) fails: the scan hands back the first step and leaves the
    second one PENDING, although its attempt counter has reached its bound. *)
Lemma exhausted_step_behind_selected_stays_pending :
  (_get_next_step plan_exhausted_behind_ready).2 = Some 0%nat
  /\ (status <$> steps plan_exhausted_behind_ready !! 1%nat) = Some PENDING
  /\ (attempts <$> steps plan_exhausted_behind_ready !! 1%nat) = Some 3
  /\ (max_attempts <$> steps plan_exhausted_behind_ready !! 1%nat) = Some 3
  /\ (status <$> steps (_get_next_step plan_exhausted_behind_ready).1 !! 1%nat)
     = Some PENDING.
Proof. repeat split. Qed.

(** A plan whose first step is PENDING with its attempts used up, before a
    second step that is ready. *)
Definition plan_exhausted_before_ready : Plan :=
  mkPlan "plan-c3b" "objective"
    [set_attempts (new_step "step-001" "A" ["a"] []) 3;
     new_step "step-002" "B" ["b"] []]
    P_IN_PROGRESS.

(** C3, at a concrete plan: the scan marks the exhausted first step FAILED
    and hands back the second step. *)
Lemma get_next_step_first_ready_witness :
  exists plan' s,
    _get_next_step plan_exhausted_before_ready = (plan', Some 1%nat)
    /\ steps plan' !! 1%nat = Some s /\ ready (steps plan_exhausted_before_ready) s
    /\ steps plan' !! 0%nat
       = Some (set_status (set_attempts (new_step "step-001" "A" ["a"] []) 3) FAILED).
Proof.
  pose proof (get_next_step_first_ready plan_exhausted_before_ready _ _ eq_refl)
    as (Hsel & _ & Hmark & _).
  destruct (Hsel 1%nat eq_refl) as (s & _ & Hs & Hready & _).
  eexists _, s. split; [reflexivity|]. split; [exact Hs|]. split; [exact Hready|].
  apply Hmark; simpl; try done; try lia.
  intros dep Hdep. by apply elem_of_nil in Hdep.
Defined.

Section Execution.

Variable _execute_action : string -> Step -> Plan -> outcome.

Local Abbreviation execute_step := (_execute_step _execute_action).
Local Abbreviation run := (exec_loop _execute_action).

(** One call of [_execute_step]: the attempt counter of the executed step
    goes up by one, nothing else in the plan changes but that step's status
    and outputs, and the result carries the default confidence. *)
Lemma execute_step_spec plan i s :
  steps plan !! i = Some s ->
  exists s' result,
    execute_step plan i
      = Some (set_steps plan (<[i := s']> (steps plan)), result)
    /\ attempts s' = attempts s + 1
    /\ max_attempts s' = max_attempts s
    /\ (r_confidence result == 1)%Q
    /\ (status s' = COMPLETED /\ r_status result = "SUCCESS"
        \/ status s' = PENDING /\ r_status result = "RETRY"
           /\ attempts s' < max_attempts s'
        \/ status s' = FAILED /\ r_status result = "FAILED"
           /\ max_attempts s' <= attempts s').
Proof.
  intros Hs. unfold _execute_step. rewrite Hs.
  set (s1 := set_attempts (set_status s IN_PROGRESS) (attempts s + 1)).
  set (p1 := set_steps plan (<[i := s1]> (steps plan))).
  assert (Hfail : forall e, exists s' result,
    _handle_step_failure p1 i s1 e
      = (set_steps plan (<[i := s']> (steps plan)), result)
    /\ attempts s' = attempts s + 1
    /\ max_attempts s' = max_attempts s
    /\ (r_confidence result == 1)%Q
    /\ (status s' = COMPLETED /\ r_status result = "SUCCESS"
        \/ status s' = PENDING /\ r_status result = "RETRY"
           /\ attempts s' < max_attempts s'
        \/ status s' = FAILED /\ r_status result = "FAILED"
           /\ max_attempts s' <= attempts s')).
  { intros e. unfold _handle_step_failure. case_bool_decide as Hc.
    - eexists (set_status s1 PENDING), _. split; [|split; [|split; [|split]]].
      + unfold p1, set_steps. simpl. by rewrite list_insert_insert_eq.
      + done.
      + done.
      + done.
      + right; left. done.
    - eexists (set_status s1 FAILED), _. split; [|split; [|split; [|split]]].
      + unfold p1, set_steps. simpl. by rewrite list_insert_insert_eq.
      + done.
      + done.
      + done.
      + right; right. split_and!; [done..|]. simpl in *. lia. }
  destruct (run_actions _ _ _ _ _) as [e|outputs].
  - destruct (Hfail e) as (s' & result & -> & ?). eauto.
  - destruct (_validate_step_outputs _ _).
    + eexists (set_outputs (set_status s1 COMPLETED) outputs), _.
      split; [|split; [|split; [|split]]].
      * unfold p1, set_steps. simpl. by rewrite list_insert_insert_eq.
      * done.
      * done.
      * done.
      * left. done.
    + destruct (Hfail "Output validation failed") as (s' & result & -> & ?). eauto.
Qed.

Lemma attempts_bounded_insert l i s s' :
  attempts_bounded l -> l !! i = Some s ->
  attempts s' <= max_attempts s' -> attempts_bounded (<[i := s']> l).
Proof.
  unfold attempts_bounded. rewrite !Forall_lookup. intros Hl Hs Hs' j t Ht.
  destruct (decide (j = i)) as [->|Hne].
  - rewrite list_lookup_insert_eq in Ht by (by eapply lookup_lt_Some).
    by simplify_eq.
  - rewrite list_lookup_insert_ne in Ht by done. eauto.
Qed.

Lemma mark_attempts l s :
  attempts (mark l s) = attempts s /\ max_attempts (mark l s) = max_attempts s.
Proof. unfold mark. by case_decide. Qed.

(** Step selection changes no counter. *)
Lemma get_next_step_attempts_bounded plan plan' r :
  _get_next_step plan = (plan', r) ->
  attempts_bounded (steps plan) -> attempts_bounded (steps plan').
Proof.
  intros H. apply get_next_step_spec in H as (_ & Hlook & _).
  unfold attempts_bounded. rewrite !Forall_lookup. intros Hb j t Ht.
  rewrite Hlook in Ht. case_decide; [|by eauto].
  destruct (steps plan !! j) as [t0|] eqn:E; simplify_eq/=.
  destruct (mark_attempts (steps plan) t0) as [-> ->]. eauto.
Qed.

(** Executing the step that selection handed back keeps the bound: the
    step had attempts left. *)
Lemma execute_selected_attempts_bounded plan plan' k :
  _get_next_step plan = (plan', Some k) ->
  attempts_bounded (steps plan) ->
  exists plan'' result,
    execute_step plan' k = Some (plan'', result)
    /\ attempts_bounded (steps plan'')
    /\ plan_status plan'' = plan_status plan
    /\ (r_confidence result == 1)%Q.
Proof.
  intros H Hb. pose proof (get_next_step_attempts_bounded _ _ _ H Hb) as Hb'.
  apply get_next_step_spec in H as (Hst & Hlook & _ & s & Hs & He).
  simpl in *. assert (Hs' : steps plan' !! k = Some s).
  { rewrite Hlook. by rewrite decide_False by lia. }
  destruct (execute_step_spec plan' k s Hs') as (s' & result & -> & Ha & Hm & Hc & _).
  eexists _, _. split; [done|]. split_and!; [|done|done].
  simpl. eapply attempts_bounded_insert; [done..|].
  unfold eligible in He. lia.
Qed.

Lemma requires_human_intervention_default_confidence plan result :
  (r_confidence result == 1)%Q ->
  _requires_human_intervention plan result = false.
Proof.
  intros Hc. unfold _requires_human_intervention.
  assert (Qle_bool (7 # 10) (r_confidence result) = true) as ->.
  { apply Qle_bool_iff. rewrite Hc. by compute. }
  by rewrite andb_false_r.
Qed.

(** X9: every result the engine builds carries the default confidence, so
    the engine never asks for human intervention on a result of its own,
    whatever the plan the question is asked on. *)
Lemma engine_results_never_escalate plan i s :
  steps plan !! i = Some s ->
  exists plan' result,
    execute_step plan i = Some (plan', result)
    /\ forall p, _requires_human_intervention p result = false.
Proof.
  intros Hs.
  destruct (execute_step_spec plan i s Hs) as (s' & result & Hex & _ & _ & Hc & _).
  eexists _, result. split; [exact Hex|].
  intros p. by apply requires_human_intervention_default_confidence.
Qed.

(** The loop returns for every iteration budget, and every plan it returns
    keeps the bound. *)
Lemma exec_loop_returns n plan :
  attempts_bounded (steps plan) ->
  exists plan', run n plan = Some plan'
    /\ attempts_bounded (steps plan')
    /\ length (steps plan') = length (steps plan).
Proof.
  revert plan. induction n as [|n IH]; intros plan Hb; simpl; [by eauto|].
  destruct (_is_plan_complete plan); [by eauto|].
  unfold _evaluate_plan_state.
  pose proof (get_next_step_length plan) as Hlen.
  destruct (_get_next_step plan) as [plan1 [k|]] eqn:Hnext; simpl in Hlen.
  - destruct (execute_selected_attempts_bounded _ _ _ Hnext Hb)
      as (plan2 & result & Hex & Hb2 & _ & Hc).
    rewrite Hex. unfold _update_plan_after_step.
    rewrite requires_human_intervention_default_confidence by done.
    assert (length (steps plan2) = length (steps plan)) as Hlen2.
    { apply get_next_step_spec in Hnext as (_ & Hlook & _ & s & Hs & _).
      simpl in *. assert (Hs' : steps plan1 !! k = Some s).
      { rewrite Hlook. by rewrite decide_False by lia. }
      destruct (execute_step_spec plan1 k s Hs') as (s' & r' & Hex' & _).
      rewrite Hex' in Hex. simplify_eq/=. by rewrite length_insert. }
    destruct (IH (if _should_replan plan2 result then _replan plan2 result
                  else plan2)) as (plan' & Hrun & Hb' & Hlen').
    { by destruct (_should_replan _ _). }
    exists plan'. split_and!; [done..|].
    rewrite Hlen'. by destruct (_should_replan _ _).
  - pose proof (get_next_step_attempts_bounded _ _ _ Hnext Hb).
    eexists. split; [done|]. by destruct (_has_blocked_steps _).
Qed.

Lemma finalize_plan_steps plan :
  steps plan <> [] ->
  exists plan', _finalize_plan plan = inr plan' /\ steps plan' = steps plan.
Proof.
  intros Hne. unfold _finalize_plan.
  rewrite (bool_decide_eq_false_2 (Z.of_nat (length (steps plan)) = 0)).
  - eexists. split; [done|]. by repeat case_match.
  - destruct (steps plan); [done|]. simpl. lia.
Qed.

(** C4: if [attempts <= max_attempts] holds for every step of a plan, it
    holds after step selection, after the execution of the selected step
    (success, the retry path back to PENDING, and the final failure), after
    any number of iterations of the outer loop, and after the whole run
    with its finalization; and each of these does return a plan. *)
Theorem attempts_never_exceed_max_attempts plan :
  attempts_bounded (steps plan) ->
  attempts_bounded (steps (_get_next_step plan).1)
  /\ (forall k, (_get_next_step plan).2 = Some k ->
        exists plan' result,
          execute_step (_get_next_step plan).1 k = Some (plan', result)
          /\ attempts_bounded (steps plan'))
  /\ (forall n, exists plan',
        run n plan = Some plan' /\ attempts_bounded (steps plan'))
  /\ (steps plan <> [] ->
        exists plan',
          execute_plan_iteratively _execute_action plan = inr plan'
          /\ attempts_bounded (steps plan')).
Proof.
  intros Hb. split_and!.
  - destruct (_get_next_step plan) as [p r] eqn:E.
    by eapply get_next_step_attempts_bounded.
  - intros k Hk. destruct (_get_next_step plan) as [p r] eqn:E.
    simpl in *; subst r.
    destruct (execute_selected_attempts_bounded _ _ _ E Hb)
      as (p' & result & ? & ? & _). eauto.
  - intros n. destruct (exec_loop_returns n plan Hb) as (p' & ? & ? & _). eauto.
  - intros Hne. unfold execute_plan_iteratively, _write_plan_markdown. simpl.
    rewrite bool_decide_eq_false_2 by done.
    destruct (steps plan) as [|first rest] eqn:Hsteps; [done|].
    destruct (exec_loop_returns
                (Z.to_nat (Z.of_nat (length (first :: rest)) * max_attempts first))
                (set_plan_status plan P_IN_PROGRESS))
      as (p' & Hrun & Hb' & Hlen).
    { simpl. by rewrite Hsteps. }
    rewrite Hrun. destruct (finalize_plan_steps p') as (p'' & -> & Hst).
    { intros Hnil. rewrite Hnil in Hlen. simpl in Hlen. by rewrite Hsteps in Hlen. }
    exists p''. split; [done|]. by rewrite Hst.
Qed.

End Execution.

(** The base class's [_execute_action]: it returns a record of the action
    and never raises. *)
Definition always_returns (a : string) (s : Step) (p : Plan) : outcome :=
  Returned a.

(** A collaborator under which the second step fails on its first two
    attempts and succeeds on the third. *)
Definition fails_twice (a : string) (s : Step) (p : Plan) : outcome :=
  if bool_decide (id s = "step-002") && bool_decide (attempts s < 3)
  then Raised "transient" else Returned a.

Definition plan_linear : Plan :=
  mkPlan "plan-abc" "objective"
    [new_step "step-001" "A" ["a"] [];
     new_step "step-002" "B" ["b"] ["step-001"];
     new_step "step-003" "C" ["c"] ["step-002"]]
    P_NOT_STARTED.

(** The scenario of the specification: A -> B -> C where B fails twice and
    succeeds on its third attempt ends COMPLETED with [B.attempts = 3]. *)
Example linear_plan_with_two_retries :
  match execute_plan_iteratively fails_twice plan_linear with
  | inr p => plan_status p = P_COMPLETED
             /\ map status (steps p) = [COMPLETED; COMPLETED; COMPLETED]
             /\ map attempts (steps p) = [1; 3; 1]
  | inl _ => False
  end.
Proof. vm_compute. repeat split. Qed.

(** C4, at the linear plan under the collaborator that fails twice. *)
Lemma attempts_never_exceed_max_attempts_witness :
  attempts_bounded (steps plan_linear)
  /\ exists plan', execute_plan_iteratively fails_twice plan_linear = inr plan'
                   /\ attempts_bounded (steps plan').
Proof.
  assert (Hb : attempts_bounded (steps plan_linear)).
  { repeat constructor; simpl; lia. }
  split; [exact Hb|].
  destruct (attempts_never_exceed_max_attempts fails_twice plan_linear Hb)
    as (_ & _ & _ & H).
  apply H. discriminate.
Defined.

(** *** Finalization *)

(** The ratio of COMPLETED steps to all steps. *)
Definition completed_ratio (l : list Step) : Q :=
  Z.of_nat (count_status COMPLETED l) # Pos.of_nat (length l).

(** Following the specification's words: the final status is COMPLETED iff
    the completed-step ratio is at least the completion threshold, else
    FAILED. *)
Definition spec_final_status (threshold : Q) (l : list Step) : PlanStatus :=
  if Qle_bool threshold (completed_ratio l) then P_COMPLETED else P_FAILED.

Lemma ratio_at_least_four_fifths l :
  l <> [] ->
  Qle_bool (8 # 10) (completed_ratio l)
  = Qle_bool (inject_Z (Z.of_nat (length l)) * (8 # 10))
             (inject_Z (Z.of_nat (count_status COMPLETED l))).
Proof.
  intros Hne. apply eq_true_iff_eq. rewrite !Qle_bool_iff.
  unfold completed_ratio, Qle. simpl.
  assert (Z.pos (Pos.of_nat (length l)) = Z.of_nat (length l)) as ->.
  { destruct l; [done|]. simpl length. lia. }
  lia.
Qed.

Lemma count_status_le st l : (count_status st l <= length l)%nat.
Proof. unfold count_status. apply length_filter. Qed.

(** C2 (as amended): on a plan with at least one step, [_finalize_plan]
    keeps the steps and sets the status to COMPLETED iff the ratio of
    COMPLETED steps to all steps is at least 0.8, the constant written in
    the code, and to FAILED otherwise; a plan whose steps are all COMPLETED
    ends COMPLETED. *)
Theorem finalize_plan_four_fifths plan :
  steps plan <> [] ->
  exists plan',
    _finalize_plan plan = inr plan'
    /\ steps plan' = steps plan
    /\ plan_status plan' = spec_final_status (8 # 10) (steps plan)
    /\ (plan_status plan' = P_COMPLETED
        <-> (8 # 10 <= completed_ratio (steps plan))%Q)
    /\ (plan_status plan' = P_FAILED
        <-> ~ (8 # 10 <= completed_ratio (steps plan))%Q)
    /\ (count_status COMPLETED (steps plan) = length (steps plan) ->
        plan_status plan' = P_COMPLETED).
Proof.
  intros Hne.
  assert (Hdiv : bool_decide (Z.of_nat (length (steps plan)) = 0) = false).
  { apply bool_decide_eq_false. destruct (steps plan); [done|]. simpl. lia. }
  assert (Hst : forall plan', _finalize_plan plan = inr plan' ->
            plan_status plan' = spec_final_status (8 # 10) (steps plan)).
  { unfold _finalize_plan, spec_final_status. rewrite Hdiv.
    rewrite ratio_at_least_four_fifths by done. intros plan' Heq.
    case_bool_decide as Hall; [|by case_match; simplify_eq].
    simplify_eq/=. rewrite Hall.
    assert (Qle_bool (inject_Z (Z.of_nat (length (steps plan))) * (8 # 10))
              (inject_Z (Z.of_nat (length (steps plan)))) = true) as ->; [|done].
    apply Qle_bool_iff. unfold Qle. simpl. lia. }
  destruct (finalize_plan_steps plan Hne) as (plan' & Hfin & Hsteps).
  exists plan'. specialize (Hst plan' Hfin).
  split_and!; [done|done|done| | |].
  - rewrite Hst. unfold spec_final_status. rewrite <-Qle_bool_iff.
    by destruct (Qle_bool _ _).
  - rewrite Hst. unfold spec_final_status. rewrite <-Qle_bool_iff.
    by destruct (Qle_bool _ _).
  - intros Hall. rewrite Hst. unfold spec_final_status.
    assert (Qle_bool (8 # 10) (completed_ratio (steps plan)) = true) as ->; [|done].
    rewrite ratio_at_least_four_fifths by done. rewrite Hall.
    apply Qle_bool_iff. unfold Qle. simpl. lia.
Qed.

Definition done_step (i : string) (st : StepStatus) : Step :=
  set_attempts (set_status (new_step i i [i] []) st) 1.

(** Three steps COMPLETED out of five. *)
Definition plan_three_of_five : Plan :=
  mkPlan "plan-c2" "objective"
    [done_step "step-001" COMPLETED; done_step "step-002" COMPLETED;
     done_step "step-003" COMPLETED; done_step "step-004" FAILED;
     done_step "step-005" FAILED]
    P_IN_PROGRESS.

(** C2 (as stated) fails: finalization takes no threshold from any
    configuration.  With a completion threshold configured to 0.5 the
    specification's rule makes a plan with 3 of 5 steps COMPLETED end
    COMPLETED; [_finalize_plan] makes it FAILED. *)
Lemma finalize_plan_ignores_configured_threshold :
  spec_final_status (1 # 2) (steps plan_three_of_five) = P_COMPLETED
  /\ _finalize_plan plan_three_of_five
     = inr (set_plan_status plan_three_of_five P_FAILED).
Proof. split; reflexivity. Qed.

(** C2 (as amended), at the plan with three of five steps COMPLETED. *)
Lemma finalize_plan_four_fifths_witness :
  exists plan',
    _finalize_plan plan_three_of_five = inr plan'
    /\ plan_status plan' = spec_final_status (8 # 10) (steps plan_three_of_five).
Proof.
  destruct (finalize_plan_four_fifths plan_three_of_five)
    as (plan' & H1 & _ & H3 & _); [discriminate|].
  exists plan'. by split.
Defined.

(** *** Human intervention *)

(** What [_requires_human_intervention] asks for: both a FAILED result and
    a confidence below 0.7. *)
Lemma requires_human_intervention_iff plan result :
  _requires_human_intervention plan result = true
  <-> r_status result = "FAILED" /\ (r_confidence result < 7 # 10)%Q.
Proof.
  unfold _requires_human_intervention.
  rewrite andb_true_iff, bool_decide_eq_true, negb_true_iff.
  rewrite <-not_true_iff_false, Qle_bool_iff.
  split; intros [? ?]; (split; [done|]).
  - by apply Qnot_le_lt.
  - by apply Qlt_not_le.
Qed.

(** A critical first step without actions (its outputs never validate),
    followed by an independent second step. *)
Definition plan_critical_step_fails : Plan :=
  mkPlan "plan-c1" "objective"
    [new_step "step-001" "A" [] []; new_step "step-002" "B" ["b"] []]
    P_NOT_STARTED.

Definition after_two_attempts : option Plan :=
  exec_loop always_returns 2 (set_plan_status plan_critical_step_fails P_IN_PROGRESS).

(** C1, on the code: the third attempt of the critical first step yields a
    FAILED result, [_requires_human_intervention] answers [False] for it,
    the loop goes on to the second step, and the run ends FAILED, never
    AWAITING_APPROVAL. *)
Theorem critical_failure_is_not_escalated :
  match after_two_attempts with
  | Some plan2 =>
      map status (steps plan2) = [PENDING; PENDING]
      /\ map attempts (steps plan2) = [2; 0]
      /\ map is_critical (steps plan2) = [true; true]
      /\ match _execute_step always_returns plan2 0 with
         | Some (plan3, result) =>
             r_status result = "FAILED"
             /\ map status (steps plan3) = [FAILED; PENDING]
             /\ _requires_human_intervention plan3 result = false
         | None => False
         end
  | None => False
  end
  /\ match execute_plan_iteratively always_returns plan_critical_step_fails with
     | inr p => plan_status p = P_FAILED
                /\ map status (steps p) = [FAILED; COMPLETED]
     | inl _ => False
     end.
Proof. vm_compute. repeat split. Qed.

(** X10: a plan without steps cannot be run: the first write of the plan
    file raises [ZeroDivisionError], before the loop and before
    [plan.steps[0]] is read. *)
Lemma run_without_steps exec plan :
  steps plan = [] ->
  execute_plan_iteratively exec plan = inl ZeroDivisionError.
Proof.
  intros H. unfold execute_plan_iteratively, _write_plan_markdown. simpl.
  by rewrite bool_decide_eq_true_2.
Qed.

(** X8: whatever the collaborator does, a run never ends AWAITING_APPROVAL,
    BLOCKED or IN_PROGRESS: finalization overwrites the status that
    replanning, a blocked plan or a request for intervention has set, with
    COMPLETED or FAILED. *)
Lemma run_never_ends_awaiting_approval exec plan plan' :
  execute_plan_iteratively exec plan = inr plan' ->
  plan_status plan' = P_COMPLETED \/ plan_status plan' = P_FAILED.
Proof.
  unfold execute_plan_iteratively, _write_plan_markdown. simpl.
  case_bool_decide; [done|].
  destruct (steps plan); [done|]. destruct (exec_loop _ _ _) as [p|]; [|done].
  unfold _finalize_plan. intros Hfin.
  repeat (case_match; simplify_eq/=); auto.
Qed.

End EngineFacts.

(* ===================================================================== *)
(** ** Facts about the recovery strategy selector                      *)
(* ===================================================================== *)

Module RecoveryFacts.

Import Recovery.

(** The four strategy tags of the specification. *)
Definition strategy_tags : list string :=
  ["ABORT"; "ALTERNATIVE"; "SKIP_AND_CONTINUE"; "CONTINUE"].

(** C10: for every pair of helpers, [determine_recovery_strategy] returns
    one strategy for every (plan, failed step, error): CRITICAL impact gives
    ABORT with the recommendation to request human intervention; HIGH impact
    gives ALTERNATIVE carrying the substitute step when
    [find_alternative_approach] finds one, and ABORT with the same
    recommendation when it finds none; MEDIUM impact gives SKIP_AND_CONTINUE
    with a degradation note; LOW impact (and any impact that is none of the
    other three) gives CONTINUE; the tag is always one of the four. *)
Theorem recovery_strategy_by_impact
    (assess_failure_impact : Engine.Plan -> Engine.Step -> string)
    (find_alternative_approach : Engine.Plan -> Engine.Step -> option Engine.Step)
    (plan : Engine.Plan) (failed_step : Engine.Step) (error : string) :
  let impact := assess_failure_impact plan failed_step in
  let strategy :=
    determine_recovery_strategy assess_failure_impact find_alternative_approach
      plan failed_step error in
  (impact = "CRITICAL" ->
     type strategy = "ABORT"
     /\ action strategy = "Request human intervention"
     /\ alternative_step strategy = None)
  /\ (impact = "HIGH" ->
      forall alternative,
        find_alternative_approach plan failed_step = Some alternative ->
        type strategy = "ALTERNATIVE"
        /\ alternative_step strategy = Some alternative
        /\ action strategy = "Execute alternative: " ++ Engine.name alternative)
  /\ (impact = "HIGH" ->
      find_alternative_approach plan failed_step = None ->
      type strategy = "ABORT"
      /\ action strategy = "Request human intervention"
      /\ alternative_step strategy = None)
  /\ (impact = "MEDIUM" ->
      type strategy = "SKIP_AND_CONTINUE"
      /\ degradation strategy = Some "Some functionality may be limited")
  /\ (impact = "LOW" -> type strategy = "CONTINUE")
  /\ (impact <> "CRITICAL" -> impact <> "HIGH" -> impact <> "MEDIUM" ->
      type strategy = "CONTINUE")
  /\ type strategy ∈ strategy_tags
  /\ (forall error',
        determine_recovery_strategy assess_failure_impact
          find_alternative_approach plan failed_step error' = strategy).
Proof.
  simpl. unfold determine_recovery_strategy, strategy_tags.
  split_and!.
  - intros ->. done.
  - intros -> alternative ->. done.
  - intros -> ->. done.
  - intros ->. done.
  - intros ->. done.
  - intros H1 H2 H3. by rewrite !bool_decide_eq_false_2.
  - repeat case_bool_decide; try case_match; simpl; set_solver.
  - done.
Qed.

(** Helpers for a concrete run: impact from the criticality flag and the
    risk level, the next step of the plan as the alternative. *)
Definition impact_by_flags (plan : Engine.Plan) (s : Engine.Step) : string :=
  if Engine.is_critical s then "HIGH" else Engine.risk_level s.

Definition same_named_alternative (plan : Engine.Plan) (s : Engine.Step)
    : option Engine.Step :=
  List.find (fun t => bool_decide (Engine.name t = Engine.name s)
                      && negb (bool_decide (Engine.id t = Engine.id s)))
            (Engine.steps plan).

Definition plan_with_alternative : Engine.Plan :=
  Engine.mkPlan "plan-c10" "objective"
    [Engine.new_step "step-001" "Fetch" ["a"] [];
     Engine.new_step "step-002" "Fetch" ["b"] []]
    Engine.P_IN_PROGRESS.

(** C10, at a critical step that has a substitute of the same name. *)
Lemma recovery_strategy_by_impact_witness :
  let strategy :=
    determine_recovery_strategy impact_by_flags same_named_alternative
      plan_with_alternative (Engine.new_step "step-001" "Fetch" ["a"] [])
      "timeout" in
  type strategy = "ALTERNATIVE"
  /\ alternative_step strategy = Some (Engine.new_step "step-002" "Fetch" ["b"] []).
Proof.
  pose proof (recovery_strategy_by_impact impact_by_flags same_named_alternative
    plan_with_alternative (Engine.new_step "step-001" "Fetch" ["a"] [])
    "timeout") as (_ & H & _).
  destruct (H eq_refl _ eq_refl) as (H1 & H2 & _). by split.
Defined.

End RecoveryFacts.

(* ===================================================================== *)
(** ** Facts about the approval workflow                               *)
(* ===================================================================== *)

Module ApprovalFacts.

Import Py Approval.

(** *** Stand-ins for the libraries, for concrete runs *)

Definition nl : string := String "010"%char EmptyString.

(** A template with a status header, as [_generate_approval_file] fills it. *)
Definition render (r : ApprovalRequest) : string :=
  "---" ++ nl ++ "id: " ++ approval_id r ++ nl
  ++ "status: PENDING" ++ nl ++ "priority: " ++ priority r ++ nl
  ++ "---" ++ nl ++ "# Approval Request: " ++ action_title r ++ nl.

(** A loader that reads the [status] line of such a header. *)
Definition load_status (header : string) : option (gmap string string) :=
  if contains "status: APPROVED" header then Some {[ "status" := "APPROVED" ]}
  else if contains "status: REJECTED" header then Some {[ "status" := "REJECTED" ]}
  else if contains "status: EXPIRED" header then Some {[ "status" := "EXPIRED" ]}
  else if contains "status: PENDING" header then Some {[ "status" := "PENDING" ]}
  else Some ∅.

Definition no_date (s : string) : option Z := None.

Definition run_task (t : Task) : string := "done".

Definition empty_world : World := mkWorld ∅ [].

(** A task that is sensitive (its type is on both lists of the default
    rules) and whose type is a value of [ActionType]. *)
Definition critical_write : Task :=
  {| t_action_type := Some "database_write"; t_impact_level := None;
     t_data_sensitivity := None; t_reversibility := None; t_content := None;
     t_recipients := None; t_amount := None; t_priority := Some "critical";
     t_requested_by := None; t_title := Some "Update ledger";
     t_scope := None; t_action_details := None |}.

(** *** Paths *)

Definition pending_file (m : Manager) (approval_id : string) : path :=
  (needs_approval_path m, approval_id ++ ".md").

Definition archived_file (m : Manager) (approval_id final_status : string) : path :=
  (done_path m, approval_id ++ "-" ++ final_status ++ ".md").

Lemma pending_not_archived m id1 id2 st :
  pending_file m id1 <> archived_file m id2 st.
Proof.
  unfold pending_file, archived_file, needs_approval_path, done_path.
  intros H. injection H as H _. by apply (inj (String.app _)) in H.
Qed.

(** *** Archiving *)

(** The file system after a successful archive. *)
Definition archived (m : Manager) (approval_id final_status content : string)
    (fs : gmap path string) : gmap path string :=
  <[archived_file m approval_id final_status := content]>
    (delete (pending_file m approval_id) fs).

(** [_archive_approval] when the document is in the pending directory and
    the rename goes through (always on Unix; on Windows when no file of the
    target name is in the done directory): the document leaves the pending
    directory, lands in the done directory under [<id>-<status>.md], and no
    other file changes. *)
Lemma archive_approval_moves m approval_id final_status w content :
  files w !! pending_file m approval_id = Some content ->
  platform m = Posix
  \/ files w !! archived_file m approval_id final_status = None ->
  exists w',
    _archive_approval m approval_id final_status w = (Ok tt, w')
    /\ files w' = archived m approval_id final_status content (files w)
    /\ executed w' = executed w
    /\ files w' !! pending_file m approval_id = None
    /\ files w' !! archived_file m approval_id final_status = Some content
    /\ (forall p, p <> pending_file m approval_id ->
                  p <> archived_file m approval_id final_status ->
                  files w' !! p = files w !! p).
Proof.
  intros Hsrc Hok.
  pose proof (pending_not_archived m approval_id approval_id final_status) as Hne.
  exists (mkWorld (archived m approval_id final_status content (files w)) (executed w)).
  split.
  - unfold _archive_approval, bind, get_files, put_files, ret, raise. simpl.
    fold (pending_file m approval_id).
    fold (archived_file m approval_id final_status).
    unfold file_exists, rename. rewrite Hsrc. simpl.
    destruct Hok as [->|Hfree]; [done|].
    destruct (platform m); [done|]. unfold file_exists. rewrite Hfree.
    rewrite (bool_decide_eq_false_2 (is_Some None)); [done|]. by intros [? ?].
  - simpl. unfold archived. split_and!; [done|done| | |].
    + rewrite lookup_insert_ne by done. apply lookup_delete_eq.
    + apply lookup_insert_eq.
    + intros p H1 H2. rewrite lookup_insert_ne by done.
      by rewrite lookup_delete_ne.
Qed.

(** Without a document of that id in the pending directory,
    [_archive_approval] logs a warning and changes nothing. *)
Lemma archive_approval_missing m approval_id final_status w :
  files w !! pending_file m approval_id = None ->
  _archive_approval m approval_id final_status w = (Ok tt, w).
Proof.
  intros Hsrc. unfold _archive_approval, bind, get_files, ret. simpl.
  fold (pending_file m approval_id). unfold file_exists. rewrite Hsrc.
  rewrite bool_decide_eq_false_2; [done|]. by intros [? ?].
Qed.

Lemma archive_approval_executed m approval_id final_status w :
  executed (_archive_approval m approval_id final_status w).2 = executed w.
Proof.
  unfold _archive_approval, bind, get_files, put_files, ret, raise. simpl.
  destruct (file_exists _ _); [|done]. by destruct (rename _ _ _ _).
Qed.

(** *** The polling loop *)

Section Monitor.

Variable yaml_safe_load : string -> option (gmap string string).
Variable fromisoformat : string -> option Z.
Variable _generate_approval_file : ApprovalRequest -> string.
Variable original_execute : Task -> string.

Local Abbreviation read_decision := (_read_approval_decision yaml_safe_load fromisoformat).
Local Abbreviation loop := (monitor_loop yaml_safe_load fromisoformat).
Local Abbreviation monitor := (monitor_approval yaml_safe_load fromisoformat).
Local Abbreviation create_request :=
  (create_approval_request _generate_approval_file).
Local Abbreviation checked_execute :=
  (execute_with_approval_check yaml_safe_load fromisoformat
     _generate_approval_file original_execute).

(** Iteration [j] of the loop neither times out nor returns: the timeout
    has not passed, the document is there when its existence is checked,
    and reading it raises or yields a status other than APPROVED and
    REJECTED. *)
Definition keeps_polling (env : Env) (m : Manager) (approval_id : string)
    (timeout_seconds : Z) (start_time : Q) (j : nat) (fs : gmap path string) : Prop :=
  (clock env j - start_time <= inject_Z timeout_seconds)%Q
  /\ is_Some (before_poll env j fs !! pending_file m approval_id)
  /\ match read_decision (before_read env j (before_poll env j fs))
             (pending_file m approval_id) (datetime_now env j) with
     | Some d => d_status d = PENDING \/ d_status d = EXPIRED
     | None => True
     end.

(** The files as iteration [j + n] finds them, when the iterations
    [j .. j+n-1] all kept polling. *)
Fixpoint advance (env : Env) (j n : nat) (fs : gmap path string) : gmap path string :=
  match n with
  | O => fs
  | S n' => advance env (S j) n' (before_read env j (before_poll env j fs))
  end.

Lemma monitor_loop_continue env m approval_id timeout_seconds start_time fuel j w :
  keeps_polling env m approval_id timeout_seconds start_time j (files w) ->
  loop env m approval_id timeout_seconds start_time (S fuel) j w
  = loop env m approval_id timeout_seconds start_time fuel (S j)
      (mkWorld (before_read env j (before_poll env j (files w))) (executed w)).
Proof.
  intros (Ht & Hex & Hrd). simpl.
  unfold bind, interfere, get_files, ret. simpl.
  apply Qle_bool_iff in Ht. rewrite Ht. simpl.
  fold (pending_file m approval_id).
  unfold file_exists. rewrite (bool_decide_eq_true_2 _ Hex). simpl.
  destruct (read_decision _ _ _) as [d|]; [|done].
  by destruct Hrd as [-> | ->].
Qed.

Lemma monitor_loop_advance env m approval_id timeout_seconds start_time fuel n j w :
  (forall i, (i < n)%nat ->
     keeps_polling env m approval_id timeout_seconds start_time (j + i)
       (advance env j i (files w))) ->
  loop env m approval_id timeout_seconds start_time (n + fuel) j w
  = loop env m approval_id timeout_seconds start_time fuel (j + n)
      (mkWorld (advance env j n (files w)) (executed w)).
Proof.
  revert j w. induction n as [|n IH]; intros j w Hkeep.
  - rewrite Nat.add_0_r. by destruct w.
  - replace (S n + fuel)%nat with (S (n + fuel)) by lia.
    rewrite monitor_loop_continue.
    + rewrite IH.
      * replace (j + S n)%nat with (S j + n)%nat by lia. done.
      * intros i Hi.
        replace (S j + i)%nat with (j + S i)%nat by lia.
        apply (Hkeep (S i)). lia.
    + specialize (Hkeep 0%nat). rewrite Nat.add_0_r in Hkeep.
      apply Hkeep. lia.
Qed.

(** The document is gone when iteration [j] checks for it, before the
    timeout: the loop returns REJECTED without a decision. *)
Lemma monitor_loop_document_gone env m approval_id timeout_seconds start_time fuel j w :
  (clock env j - start_time <= inject_Z timeout_seconds)%Q ->
  before_poll env j (files w) !! pending_file m approval_id = None ->
  loop env m approval_id timeout_seconds start_time (S fuel) j w
  = (Ok (REJECTED, None), mkWorld (before_poll env j (files w)) (executed w)).
Proof.
  intros Ht Hgone. simpl. unfold bind, interfere, get_files, ret. simpl.
  apply Qle_bool_iff in Ht. rewrite Ht. simpl.
  fold (pending_file m approval_id). unfold file_exists. rewrite Hgone.
  rewrite (bool_decide_eq_false_2 (is_Some None)); [done|]. by intros [? ?].
Qed.

Lemma mark_expired_executed m approval_id w :
  executed (_mark_expired m approval_id w).2 = executed w.
Proof.
  unfold _mark_expired, bind, get_files, put_files, ret. simpl.
  destruct (files w !! _); [|done].
  match goal with |- context [_archive_approval ?m ?i ?s ?w'] =>
    pose proof (archive_approval_executed m i s w') as H;
    destruct (_archive_approval m i s w') as [[] ?] end; done.
Qed.

(** The loop invokes nothing, and APPROVED comes with a decision that was
    read with that status. *)
Lemma monitor_loop_sound env m approval_id timeout_seconds start_time fuel j w :
  let out := loop env m approval_id timeout_seconds start_time fuel j w in
  executed out.2 = executed w
  /\ forall st d, out.1 = Ok (st, d) ->
       (st = APPROVED ->
          exists dec, d = Some dec /\ d_status dec = APPROVED)
       /\ (st = PENDING -> False).
Proof.
  revert j w. induction fuel as [|fuel IH]; intros j w; simpl; [done|].
  unfold bind, interfere, get_files, ret. simpl.
  destruct (Qle_bool _ _); simpl.
  - destruct (file_exists _ _); simpl; [|by split; [|intros ?? [= <- <-]]].
    destruct (read_decision _ _ _) as [dec|] eqn:Hrd.
    + destruct (d_status dec) eqn:Hst.
      * apply (IH (S j) (mkWorld _ _)).
      * split; [done|]. intros ?? [= <- <-]. split; [eauto|done].
      * split; [done|]. intros ?? [= <- <-]. done.
      * apply (IH (S j) (mkWorld _ _)).
    + apply (IH (S j) (mkWorld _ _)).
  - pose proof (mark_expired_executed m approval_id
        (mkWorld (before_poll env j (files w)) (executed w))) as He.
    destruct (_mark_expired _ _ _) as [[] w']; simpl in *;
      (split; [done|]); [|done..].
    by intros ?? [= <- <-].
Qed.

(** What [_mark_expired] writes back before archiving. *)
Definition expired_text (content : string) : string :=
  replace "status: PENDING" "status: EXPIRED"
    (replace ("status: " ++ dq ++ "PENDING" ++ dq)
             ("status: " ++ dq ++ "EXPIRED" ++ dq) content).

Lemma mark_expired_archives m approval_id w content :
  files w !! pending_file m approval_id = Some content ->
  platform m = Posix
  \/ files w !! archived_file m approval_id "EXPIRED" = None ->
  _mark_expired m approval_id w
  = (Ok tt, mkWorld (archived m approval_id "EXPIRED" (expired_text content)
                       (files w)) (executed w)).
Proof.
  intros Hsrc Hok. unfold _mark_expired, bind at 1, get_files at 1.
  fold (pending_file m approval_id). cbv beta iota. cbn [files].
  lazymatch goal with
  | |- match ?x with _ => _ end _ = _ =>
      assert (x = Some content) as -> by exact Hsrc
  end.
  fold (expired_text content). unfold bind, put_files.
  cbn [files executed].
  destruct (archive_approval_moves m approval_id "EXPIRED"
              (mkWorld (<[pending_file m approval_id := expired_text content]>
                          (files w)) (executed w))
              (expired_text content)) as (w' & Harch & Hf & He & _).
  - simpl. apply lookup_insert_eq.
  - destruct Hok as [?|Hfree]; [by left|right]. simpl.
    rewrite lookup_insert_ne; [done|]. apply pending_not_archived.
  - etransitivity; [exact Harch|].
    f_equal. destruct w' as [fs' ex']. simpl in *. subst.
    f_equal. unfold archived. by rewrite delete_insert_eq.
Qed.

(** The timeout has passed when iteration [j] starts and the document is
    still there: the loop marks it EXPIRED, archives it as
    [<id>-EXPIRED.md] and returns EXPIRED. *)
Lemma monitor_loop_timeout env m approval_id timeout_seconds start_time fuel j w content :
  ~ (clock env j - start_time <= inject_Z timeout_seconds)%Q ->
  before_poll env j (files w) !! pending_file m approval_id = Some content ->
  platform m = Posix
  \/ before_poll env j (files w) !! archived_file m approval_id "EXPIRED" = None ->
  loop env m approval_id timeout_seconds start_time (S fuel) j w
  = (Ok (EXPIRED, None),
     mkWorld (archived m approval_id "EXPIRED" (expired_text content)
                (before_poll env j (files w))) (executed w)).
Proof.
  intros Ht Hsrc Hok. simpl. unfold bind at 1. unfold interfere at 1.
  rewrite <-Qle_bool_iff in Ht. apply not_true_is_false in Ht. rewrite Ht.
  simpl. unfold bind.
  by rewrite (mark_expired_archives m approval_id (mkWorld _ _) content).
Qed.

(** X15: the monitor started with a timeout: when the iterations before [k]
    kept polling and iteration [k] is the first one past the timeout, it
    returns EXPIRED and the document is archived as [<id>-EXPIRED.md], with
    its status line rewritten, and nothing is executed. *)
Lemma monitor_expires env m approval_id timeout_seconds start_time w k fuel content :
  let timeout := default (default_timeout m) timeout_seconds in
  let fs := before_poll env k (advance env 0 k (files w)) in
  (forall j, (j < k)%nat ->
     keeps_polling env m approval_id timeout start_time j
       (advance env 0 j (files w))) ->
  ~ (clock env k - start_time <= inject_Z timeout)%Q ->
  fs !! pending_file m approval_id = Some content ->
  platform m = Posix \/ fs !! archived_file m approval_id "EXPIRED" = None ->
  (k < fuel)%nat ->
  monitor env m approval_id timeout_seconds start_time fuel w
  = (Ok (EXPIRED, None),
     mkWorld (archived m approval_id "EXPIRED" (expired_text content) fs)
       (executed w)).
Proof.
  intros timeout fs Hkeep Ht Hsrc Hok Hfuel. unfold monitor_approval.
  replace fuel with (k + S (fuel - S k))%nat by lia.
  rewrite monitor_loop_advance by done.
  by rewrite (monitor_loop_timeout _ _ _ _ _ _ _ _ content).
Qed.

Lemma mark_expired_returns m approval_id w :
  (_mark_expired m approval_id w).1 <> OutOfFuel.
Proof.
  unfold _mark_expired, _archive_approval, bind, get_files, put_files, ret,
    raise. simpl.
  destruct (files w !! _); [|done]. simpl.
  destruct (file_exists _ _); [|done]. by destruct (rename _ _ _ _).
Qed.

(** X16: the loop stops.  [time.sleep(self.poll_interval)] makes every clock
    reading at least one poll interval later than the one before; once the
    fuel covers the polls that fit into the timeout, the loop returns or
    raises before the fuel runs out. *)
Lemma monitor_loop_returns env m approval_id timeout_seconds start_time fuel j w :
  (0 < poll_interval m)%Q ->
  (forall k, clock env k + poll_interval m <= clock env (S k))%Q ->
  (inject_Z timeout_seconds - (clock env j - start_time)
   < inject_Z (Z.of_nat fuel) * poll_interval m)%Q ->
  (monitor_loop yaml_safe_load fromisoformat env m approval_id timeout_seconds
     start_time (S fuel) j w).1 <> OutOfFuel.
Proof.
  intros Hpoll Hclock. revert j w.
  induction fuel as [|fuel IH]; intros j w Hfuel.
  - simpl. unfold bind at 1. unfold interfere at 1.
    assert (Qle_bool (clock env j - start_time) (inject_Z timeout_seconds) = false)
      as ->.
    { apply not_true_is_false. rewrite Qle_bool_iff. intros Hle.
      change (inject_Z (Z.of_nat 0)) with 0%Q in Hfuel. lra. }
    simpl. unfold bind, ret.
    pose proof (mark_expired_returns m approval_id
                  (mkWorld (before_poll env j (files w)) (executed w))) as Hm.
    by destruct (_mark_expired _ _ _) as [[] ?].
  - assert (Hnext : forall w',
      (loop env m approval_id timeout_seconds start_time (S fuel) (S j) w').1
      <> OutOfFuel).
    { intros w'. apply IH. specialize (Hclock j).
      rewrite Nat2Z.inj_succ in Hfuel. unfold Z.succ in Hfuel.
      rewrite inject_Z_plus in Hfuel. change (inject_Z 1) with 1%Q in Hfuel.
      set (x := inject_Z (Z.of_nat fuel)) in *.
      assert ((x + 1) * poll_interval m == x * poll_interval m + poll_interval m)%Q
        as Hdist by ring.
      rewrite Hdist in Hfuel. lra. }
    remember (S fuel) as fuel' eqn:Hf. simpl.
    unfold bind at 1. unfold interfere at 1.
    destruct (Qle_bool _ _); simpl.
    + unfold bind, get_files, interfere, ret. simpl.
      destruct (file_exists _ _); simpl; [|done].
      destruct (read_decision _ _ _) as [dec|]; [|apply Hnext].
      destruct (d_status dec); try done; apply Hnext.
    + unfold bind, ret.
      pose proof (mark_expired_returns m approval_id
                    (mkWorld (before_poll env j (files w)) (executed w))) as Hm.
      by destruct (_mark_expired _ _ _) as [[] ?].
Qed.

(** [create_approval_request] writes one document under the id it returns
    and invokes nothing. *)
Lemma create_request_spec m task details timestamp now1 now2 w approval_id w1 :
  create_request m task details timestamp now1 now2 w = (Ok approval_id, w1) ->
  executed w1 = executed w
  /\ exists request,
       build_request m approval_id task details now1 now2 = Some request
       /\ files w1 = <[pending_file m approval_id :=
                         _generate_approval_file request]> (files w).
Proof.
  unfold create_approval_request, _generate_approval_id, bind, get_files,
    put_files, ret, raise. simpl.
  destruct (build_request _ _ _ _ _ _) as [request|] eqn:Hb; [|done].
  intros [= <- <-]. simpl. split; [done|]. exists request. split; [|done].
  done.
Qed.

Lemma create_request_executed m task details timestamp now1 now2 w :
  executed (create_request m task details timestamp now1 now2 w).2 = executed w.
Proof.
  unfold create_approval_request, _generate_approval_id, bind, get_files,
    put_files, ret, raise. simpl.
  by destruct (build_request _ _ _ _ _ _).
Qed.

(** Whatever the timeout handed to [monitor_approval]: when the iterations
    before [k] kept polling and the document is gone at iteration [k],
    before the timeout, the monitor returns REJECTED. *)
Lemma monitor_rejects_when_document_gone env m approval_id timeout_seconds
    start_time w k fuel :
  let timeout := default (default_timeout m) timeout_seconds in
  (forall j, (j < k)%nat ->
     keeps_polling env m approval_id timeout start_time j
       (advance env 0 j (files w))) ->
  (clock env k - start_time <= inject_Z timeout)%Q ->
  before_poll env k (advance env 0 k (files w)) !! pending_file m approval_id
    = None ->
  (k < fuel)%nat ->
  monitor env m approval_id timeout_seconds start_time fuel w
  = (Ok (REJECTED, None),
     mkWorld (before_poll env k (advance env 0 k (files w))) (executed w)).
Proof.
  intros timeout Hkeep Ht Hgone Hfuel. unfold monitor_approval.
  replace fuel with (k + S (fuel - S k))%nat by lia.
  rewrite monitor_loop_advance by done.
  by rewrite monitor_loop_document_gone.
Qed.

(** The wrapped executor runs on a sensitive task only after the monitor
    returned APPROVED, with a decision read with that status. *)
Lemma execution_requires_approval env m task timestamp now1 now2 start_time fuel w :
  is_sensitive_action m task = true ->
  let out := checked_execute env m task timestamp now1 now2 start_time fuel w in
  executed out.2 = executed w
  \/ (executed out.2 = (executed w ++ [task])%list
      /\ exists approval_id w1 decision w2,
           create_request m task (default ∅ (t_action_details task))
             timestamp now1 now2 w = (Ok approval_id, w1)
           /\ monitor env m approval_id None start_time fuel w1
              = (Ok (APPROVED, Some decision), w2)
           /\ d_status decision = APPROVED).
Proof.
  intros Hs. unfold execute_with_approval_check. rewrite Hs.
  unfold monitor_approval, bind, log_executed, ret. simpl.
  pose proof (create_request_executed m task (default ∅ (t_action_details task))
                timestamp now1 now2 w) as Hc.
  destruct (create_request _ _ _ _ _ _ _) as [[approval_id| |] w1] eqn:Hcreate;
    simpl in Hc; [|by left..].
  pose proof (monitor_loop_sound env m approval_id
                (default_timeout m) start_time fuel 0 w1) as [He Hd].
  destruct (monitor_loop _ _ _ _ _ _ _ _ _) as [[[st d]| |] w2] eqn:Hmon;
    simpl in He; [|left; simpl; congruence..].
  destruct (Hd st d eq_refl) as [Happ Hpend].
  destruct st.
  - by destruct Hpend.
  - destruct (Happ eq_refl) as (dec & -> & Hdec). right.
    pose proof (archive_approval_executed m approval_id "EXECUTED"
        (mkWorld (files w2) (executed w2 ++ [task]))) as Ha.
    destruct (_archive_approval _ _ _ _) as [[] w3]; simpl in *;
      (split; [congruence|]); eauto 10.
  - left.
    pose proof (archive_approval_executed m approval_id "REJECTED" w2) as Ha.
    destruct (_archive_approval _ _ _ _) as [[] w3]; simpl in *; congruence.
  - left. simpl. congruence.
Qed.

(** C9: the monitor fails closed.  A sensitive task's approval document is
    created; the iterations before [k] keep polling; at iteration [k], before
    the timeout, the document is gone.  Then the monitor returns REJECTED
    without a decision, [execute_with_approval_check] answers with the
    rejection and the wrapped executor is not invoked.  And in every run on a
    sensitive task the wrapped executor is invoked only after an APPROVED
    outcome of the monitor. *)
Theorem monitor_fails_closed env m task timestamp now1 now2 start_time w
    approval_id w1 k fuel :
  is_sensitive_action m task = true ->
  create_request m task (default ∅ (t_action_details task)) timestamp now1 now2 w
    = (Ok approval_id, w1) ->
  (forall j, (j < k)%nat ->
     keeps_polling env m approval_id (default_timeout m) start_time j
       (advance env 0 j (files w1))) ->
  (clock env k - start_time <= inject_Z (default_timeout m))%Q ->
  before_poll env k (advance env 0 k (files w1)) !! pending_file m approval_id
    = None ->
  (k < fuel)%nat ->
  let w2 := mkWorld (before_poll env k (advance env 0 k (files w1))) (executed w) in
  monitor env m approval_id None start_time fuel w1 = (Ok (REJECTED, None), w2)
  /\ checked_execute env m task timestamp now1 now2 start_time fuel w
     = (Ok (Rejected approval_id "No reason provided"), w2)
  /\ executed w2 = executed w
  /\ (forall env' start' fuel',
        let out := checked_execute env' m task timestamp now1 now2 start' fuel' w in
        executed out.2 <> executed w ->
        exists decision w',
          monitor env' m approval_id None start' fuel' w1
            = (Ok (APPROVED, Some decision), w')
          /\ d_status decision = APPROVED).
Proof.
  intros Hs Hcreate Hkeep Ht Hgone Hfuel w2.
  destruct (create_request_spec _ _ _ _ _ _ _ _ _ Hcreate) as [Hex _].
  assert (Hmon : monitor env m approval_id None start_time fuel w1
                 = (Ok (REJECTED, None), w2)).
  { unfold w2. rewrite <-Hex.
    by apply (monitor_rejects_when_document_gone env m approval_id None). }
  split_and!; [done| |done|].
  - unfold execute_with_approval_check. rewrite Hs.
    unfold bind at 1. rewrite Hcreate. unfold bind at 1. rewrite Hmon.
    unfold bind, ret. by rewrite archive_approval_missing.
  - intros env' start' fuel' out Hne.
    destruct (execution_requires_approval env' m task timestamp now1 now2
                start' fuel' w Hs) as [Heq|(_ & id' & w1' & dec & w' & Hc & Hm & Hd)].
    + by destruct Hne.
    + rewrite Hcreate in Hc. simplify_eq. eauto.
Qed.

End Monitor.

(** *** Concrete runs *)

Definition create (ts : string) : M string :=
  create_approval_request render (default_manager Posix) critical_write ∅ ts 0 0.

Definition first_id : string := "APR-20260213-001".

(** The document [render] produces for a critical request with that id,
    given its title. *)
Definition render_as (approval_id title : string) : string :=
  "---" ++ nl ++ "id: " ++ approval_id ++ nl
  ++ "status: PENDING" ++ nl ++ "priority: critical" ++ nl
  ++ "---" ++ nl ++ "# Approval Request: " ++ title ++ nl.

(** The clock advances by the poll interval of 30 seconds per iteration. *)
Definition clock_30 (k : nat) : Q := inject_Z (30 * Z.of_nat k).

(** Somebody deletes the document while the monitor sleeps before its
    third iteration. *)
Definition env_document_deleted : Env :=
  {| clock := clock_30;
     before_poll := fun k fs =>
       if bool_decide (k = 2%nat)
       then delete (pending_file (default_manager Posix) first_id) fs else fs;
     before_read := fun _ fs => fs;
     datetime_now := fun _ => 0 |}.

(** C9, at a run where the document is deleted during the second sleep. *)
Lemma monitor_fails_closed_witness :
  execute_with_approval_check load_status no_date render run_task
    env_document_deleted (default_manager Posix) critical_write
    "20260213-101500" 0 0 0 5 empty_world
  = (Ok (Rejected first_id "No reason provided"), empty_world).
Proof.
  destruct (monitor_fails_closed load_status no_date render run_task
              env_document_deleted (default_manager Posix) critical_write
              "20260213-101500" 0 0 0 empty_world first_id
              (create "20260213-101500" empty_world).2 2 5)
    as (_ & H & _).
  - reflexivity.
  - reflexivity.
  - intros j Hj. destruct j as [|[|j]]; [| |lia].
    + split_and!; [by vm_compute|by vm_compute; eexists|vm_compute; by left].
    + split_and!; [by vm_compute|by vm_compute; eexists|vm_compute; by left].
  - by vm_compute.
  - reflexivity.
  - lia.
  - exact H.
Defined.

(** The human writes APPROVED into the header while the monitor sleeps
    before iteration 34, that is between second 990 and second 1020. *)
Definition env_late_approval : Env :=
  {| clock := clock_30;
     before_poll := fun k fs =>
       if bool_decide (k = 34%nat)
       then alter (replace "status: PENDING" "status: APPROVED")
                  (pending_file (default_manager Posix) first_id) fs
       else fs;
     before_read := fun _ fs => fs;
     datetime_now := fun _ => 0 |}.

(** With the default rules a request of priority "critical" expires 900
    seconds after the second clock reading of [create_approval_request]. *)
Lemma critical_request_expires_after_900s m approval_id task details now1 now2 r :
  approval_rules m = default_rules ->
  t_priority task = Some "critical" ->
  build_request m approval_id task details now1 now2 = Some r ->
  created_at r = now1 /\ expires_at r = now2 + 900 * 1000000.
Proof.
  intros Hrules Hprio. unfold build_request. rewrite Hrules, Hprio. simpl.
  repeat case_match; try done. intros [= <-]. done.
Qed.

(** C5, on the code: the document of a critical request carries an expiry
    900 seconds after its creation, yet [execute_with_approval_check] starts
    the monitor without a timeout, so the monitor waits for the default 3600
    seconds: an approval written after second 990 is accepted at second 1020
    and the gated action is executed.  The same monitor started with the
    timeout of 900 seconds expires at second 930 and archives the document as
    [<id>-EXPIRED.md]. *)
Theorem critical_approval_outlives_its_expiry :
  (expires_at <$> build_request (default_manager Posix) first_id critical_write ∅ 0 0)
    = Some (900 * 1000000)
  /\ (let out :=
        execute_with_approval_check load_status no_date render run_task
          env_late_approval (default_manager Posix) critical_write
          "20260213-101500" 0 0 0 200 empty_world in
      out.1 = Ok (Success first_id "done")
      /\ executed out.2 = [critical_write]
      /\ (map_to_list (files out.2)).*1
         = [("memory/Done", "APR-20260213-001-EXECUTED.md")])
  /\ (let out :=
        monitor_approval load_status no_date env_late_approval
          (default_manager Posix) first_id (Some 900) 0 200
          (create "20260213-101500" empty_world).2 in
      out.1 = Ok (EXPIRED, None)
      /\ executed out.2 = []
      /\ (map_to_list (files out.2)).*1
         = [("memory/Done", "APR-20260213-001-EXPIRED.md")]).
Proof. vm_compute. repeat split. Qed.

(** *** Identities *)

Definition titled (title : string) : Task :=
  {| t_action_type := Some "database_write"; t_impact_level := None;
     t_data_sensitivity := None; t_reversibility := None; t_content := None;
     t_recipients := None; t_amount := None; t_priority := Some "critical";
     t_requested_by := None; t_title := Some title;
     t_scope := None; t_action_details := None |}.

Definition create_titled (title ts : string) : M string :=
  create_approval_request render (default_manager Posix) (titled title) ∅ ts 0 0.

(** Create, archive, create again on the same day. *)
Definition create_archive_create : M (string * string) :=
  do id1 <- create_titled "first" "20260213-101500" ;
  do _ <- _archive_approval (default_manager Posix) id1 "EXECUTED" ;
  do id2 <- create_titled "second" "20260213-101501" ;
  ret (id1, id2).

(** Two requests pending, the first is archived, a third is created. *)
Definition create_twice_archive_create : M (string * string * string) :=
  do id1 <- create_titled "first" "20260213-101500" ;
  do id2 <- create_titled "second" "20260213-101501" ;
  do _ <- _archive_approval (default_manager Posix) id1 "EXECUTED" ;
  do id3 <- create_titled "third" "20260213-101502" ;
  ret (id1, id2, id3).

(** C6, on the code: the sequence number is the count of documents in the
    pending directory plus one, so an id comes back once a document has been
    archived: the request created after an archive gets the id of the
    archived one, and with two requests pending the third request gets the
    id of the second, whose pending document it replaces. *)
Theorem approval_id_reused_after_archive :
  (create_archive_create empty_world).1 = Ok (first_id, first_id)
  /\ (create_twice_archive_create empty_world).1
     = Ok ("APR-20260213-001", "APR-20260213-002", "APR-20260213-002")
  /\ files (create_twice_archive_create empty_world).2
       !! pending_file (default_manager Posix) "APR-20260213-002"
     = Some (render_as "APR-20260213-002" "third").
Proof. vm_compute. repeat split. Qed.

(** *** Archiving onto an existing target *)

(** The done directory holds the document of an earlier request archived as
    EXPIRED; a later request with the same id is pending. *)
Definition world_with_archived_twin : World :=
  mkWorld
    (<[pending_file (default_manager Posix) first_id := "second request"]>
       (<[archived_file (default_manager Posix) first_id "EXPIRED"
            := "first request"]> ∅))
    [].

(** Two requests of the same day that both expire. *)
Definition expire_twice : M unit :=
  do id1 <- create_titled "first" "20260213-101500" ;
  do _ <- _mark_expired (default_manager Posix) id1 ;
  do id2 <- create_titled "second" "20260213-111500" ;
  _mark_expired (default_manager Posix) id2.

(** C7, on the code: [_archive_approval] renames onto the target whatever is
    there.  On Unix the document archived earlier is replaced and the done
    directory holds no file with a timestamp suffix; on Windows the rename
    raises and the source stays in the pending directory.  Two requests that
    expire on the same day leave one document in the done directory. *)
Theorem archive_replaces_existing_target :
  (let out := _archive_approval (default_manager Posix) first_id "EXPIRED"
                world_with_archived_twin in
   out.1 = Ok tt
   /\ map_to_list (files out.2)
      = [(archived_file (default_manager Posix) first_id "EXPIRED",
          "second request")])
  /\ (let out := _archive_approval (default_manager Windows) first_id "EXPIRED"
                   world_with_archived_twin in
      out.1 = Exn (OSError FileExistsError)
      /\ out.2 = world_with_archived_twin)
  /\ (let out := expire_twice empty_world in
      out.1 = Ok tt
      /\ map_to_list (files out.2)
         = [(archived_file (default_manager Posix) first_id "EXPIRED",
             expired_text (render_as first_id "second"))]).
Proof. vm_compute. repeat split. Qed.

End ApprovalFacts.

(* ===================================================================== *)
(** ** Facts about FileManager.move_file                               *)
(* ===================================================================== *)

Module InboxFacts.

Import Py Inbox.

Lemma length_append (s1 s2 : string) :
  String.length (s1 ++ s2) = (String.length s1 + String.length s2)%nat.
Proof. induction s1 as [|c s1 IH]; simpl; [done|]. by rewrite IH. Qed.

Lemma length_substring (n m : nat) (s : string) :
  (n + m <= String.length s)%nat -> String.length (String.substring n m s) = m.
Proof.
  revert n m. induction s as [|c s IH]; intros n m H; simpl in *.
  - destruct n, m; simpl; lia.
  - destruct n as [|n].
    + destruct m as [|m]; simpl; [done|]. rewrite IH; [done|lia].
    + apply IH. lia.
Qed.

Lemma stem_suffix_length (name : string) :
  (String.length (stem name) + String.length (suffix name))%nat
  = String.length name.
Proof.
  assert (Hs : (String.length (suffix name) <= String.length name)%nat).
  { unfold suffix. destruct (rfind_dot_go name 0 None) as [i|]; simpl; [|lia].
    case_bool_decide; simpl; [|lia].
    unfold drop_chars. rewrite length_substring; lia. }
  unfold stem. rewrite length_substring; lia.
Qed.

(** The name [move_file] falls back to is never the name it found taken. *)
Lemma disambiguated_name_differs (name timestamp : string) :
  stem name ++ "_" ++ timestamp ++ suffix name <> name.
Proof.
  intros H. apply (f_equal String.length) in H.
  rewrite !length_append in H. simpl in H.
  pose proof (stem_suffix_length name). lia.
Qed.

(** The target [move_file] renames to when [destination] is taken. *)
Definition disambiguated (destination : path) (timestamp : string) : path :=
  (destination.1,
   stem destination.2 ++ "_" ++ timestamp ++ suffix destination.2).

(** [move_file] onto a free destination is a plain move. *)
Lemma move_file_free_destination o fs source destination timestamp content :
  fs !! source = Some content ->
  fs !! destination = None ->
  move_file o fs source destination timestamp
  = (<[destination := content]> (delete source fs), true).
Proof.
  intros Hs Hd. unfold move_file, file_exists. rewrite Hd.
  rewrite (bool_decide_eq_false_2 (is_Some None)) by (by intros [? ?]).
  unfold rename. rewrite Hs. destruct o; [done|].
  unfold file_exists. rewrite Hd.
  by rewrite (bool_decide_eq_false_2 (is_Some None)) by (by intros [? ?]).
Qed.

(** [move_file] onto a destination that exists: the file there is kept, and
    the source is moved to the name with the timestamp suffix (on Windows
    provided that name is free). *)
Lemma move_file_keeps_existing_destination o fs source destination timestamp
    content existing :
  fs !! source = Some content ->
  fs !! destination = Some existing ->
  source <> destination ->
  o = Posix \/ fs !! disambiguated destination timestamp = None ->
  let target := disambiguated destination timestamp in
  let fs' := <[target := content]> (delete source fs) in
  move_file o fs source destination timestamp = (fs', true)
  /\ target <> destination
  /\ fs' !! destination = Some existing
  /\ fs' !! target = Some content
  /\ (source <> target -> fs' !! source = None).
Proof.
  intros Hs Hd Hne Hok target fs'.
  assert (Ht : target <> destination).
  { unfold target, disambiguated. destruct destination as [dir name]. simpl.
    intros [= H]. by apply disambiguated_name_differs in H. }
  split_and!; [|done| | |].
  - unfold move_file, file_exists. rewrite Hd.
    rewrite bool_decide_eq_true_2 by done.
    fold (disambiguated destination timestamp). fold target.
    unfold rename. rewrite Hs. destruct Hok as [->|Hfree]; [done|].
    destruct o; [done|]. unfold file_exists. fold target in Hfree.
    rewrite Hfree.
    by rewrite (bool_decide_eq_false_2 (is_Some None)) by (by intros [? ?]).
  - unfold fs'. rewrite lookup_insert_ne by done.
    by rewrite lookup_delete_ne.
  - apply lookup_insert_eq.
  - intros H. unfold fs'. rewrite lookup_insert_ne by done.
    apply lookup_delete_eq.
Qed.

(** [report.md] is moved to a done directory that already holds a
    [report.md]. *)
Example move_file_with_conflict :
  let fs : gmap path string :=
    <[("Inbox", "report.md") := "new"]> (<[("Done", "report.md") := "old"]> ∅) in
  let out := move_file Posix fs ("Inbox", "report.md") ("Done", "report.md")
               "20260213-101500" in
  out.2 = true
  /\ map_to_list out.1
     = [("Done", "report_20260213-101500.md", "new");
        ("Done", "report.md", "old")].
Proof. vm_compute. repeat split. Qed.

End InboxFacts.

(* ===================================================================== *)
(** ** Facts about the inbox event handler                             *)
(* ===================================================================== *)

Module WatcherFacts.

Import Watcher.

Section Debounce.

Variable path_match : string -> string -> bool.
Variable config : WatcherConfig.

Local Abbreviation created := (on_created path_match config).
Local Abbreviation recently := (_is_recently_processed config).
Local Abbreviation should_process := (_should_process_file path_match config).

(** One delivery: the event and the three clock readings [on_created]
    makes while it handles it. *)
Definition delivery : Type := Event * Z * Z * Z.

Definition deliver (h : Handler) (d : delivery) : Handler :=
  let '(event, now0, now1, now2) := d in created h event now0 now1 now2.

(** Every clock reading of the delivery is at most [t]. *)
Definition read_by (t : Z) (d : delivery) : Prop :=
  let '(_, now0, now1, now2) := d in now0 <= t /\ now1 <= t /\ now2 <= t.

(** The handler accepts the event: it is a file, passes the patterns and
    was not processed within the debounce window. *)
Definition accepted (h : Handler) (event : Event) (now0 : Z) : Prop :=
  is_directory event = false
  /\ should_process (src_path event) = true
  /\ recently (processed_files h) (src_path event) now0 = false.

Lemma recently_spec processed file_path now last :
  processed !! file_path = Some last ->
  recently processed file_path now = true
  <-> ((now - last) # 1000000 < debounce_seconds config)%Q.
Proof.
  intros Hl. unfold _is_recently_processed. rewrite Hl.
  rewrite negb_true_iff, <-not_true_iff_false, Qle_bool_iff.
  split; [apply Qnot_le_lt|apply Qlt_not_le].
Qed.

Lemma within_window_earlier (last t t' : Z) :
  t' <= t ->
  ((t - last) # 1000000 < debounce_seconds config)%Q ->
  ((t' - last) # 1000000 < debounce_seconds config)%Q.
Proof.
  unfold Qlt. simpl. intros Hle H.
  pose proof (Pos2Z.is_pos (Qden (debounce_seconds config))). nia.
Qed.

Lemma within_window_within_hour (last t : Z) :
  (debounce_seconds config <= 3600)%Q ->
  ((t - last) # 1000000 < debounce_seconds config)%Q ->
  t - one_hour < last.
Proof.
  unfold Qlt, Qle, one_hour. simpl. intros Hd H.
  pose proof (Pos2Z.is_pos (Qden (debounce_seconds config))). nia.
Qed.

Lemma mark_processed_lookup processed file_path now1 now2 :
  now2 - one_hour < now1 ->
  _mark_processed processed file_path now1 now2 !! file_path = Some now1.
Proof.
  intros H. unfold _mark_processed.
  apply map_lookup_filter_Some. split; [apply lookup_insert_eq|done].
Qed.

Lemma mark_processed_other processed file_path other now1 now2 last :
  other <> file_path ->
  processed !! other = Some last ->
  now2 - one_hour < last ->
  _mark_processed processed file_path now1 now2 !! other = Some last.
Proof.
  intros Hne Hl H. unfold _mark_processed.
  apply map_lookup_filter_Some. split; [|done].
  by rewrite lookup_insert_ne.
Qed.

(** A delivery for a path processed within the window changes nothing. *)
Lemma created_discards_recent h event now0 now1 now2 last :
  processed_files h !! src_path event = Some last ->
  ((now0 - last) # 1000000 < debounce_seconds config)%Q ->
  created h event now0 now1 now2 = h.
Proof.
  intros Hl Hw. unfold on_created.
  destruct (is_directory event); [done|].
  destruct (_should_process_file _ _ _); [|done]. simpl.
  by rewrite (proj2 (recently_spec _ _ _ _ Hl) Hw).
Qed.

(** What a delivery does to the queue: nothing, or one more item. *)
Lemma created_queue h event now0 now1 now2 :
  event_queue (created h event now0 now1 now2) = event_queue h
  \/ event_queue (created h event now0 now1 now2)
     = (event_queue h ++ [src_path event])%list.
Proof.
  unfold on_created, put_nowait.
  repeat (case_match; simpl; auto); simplify_eq; auto.
Qed.

(** While every clock reading stays inside the debounce window opened at
    [last], deliveries keep the entry of [file_path] and put no event for
    [file_path] on the queue. *)
Lemma deliveries_keep_entry (ds : list delivery) h file_path last t :
  (debounce_seconds config <= 3600)%Q ->
  ((t - last) # 1000000 < debounce_seconds config)%Q ->
  processed_files h !! file_path = Some last ->
  Forall (read_by t) ds ->
  let h' := foldl deliver h ds in
  processed_files h' !! file_path = Some last
  /\ filter (fun p => p = file_path) (event_queue h')
     = filter (fun p => p = file_path) (event_queue h).
Proof.
  intros Hd Hw. revert h. induction ds as [|[[[event now0] now1] now2] ds IH];
    intros h Hl Hall; simpl; [done|].
  apply Forall_cons in Hall as [(H0 & H1 & H2) Hall].
  assert (Hstep :
    processed_files (created h event now0 now1 now2) !! file_path = Some last
    /\ filter (fun p => p = file_path) (event_queue (created h event now0 now1 now2))
       = filter (fun p => p = file_path) (event_queue h)).
  { destruct (decide (src_path event = file_path)) as [Heq|Hne].
    - rewrite (created_discards_recent h event now0 now1 now2 last); [done| |].
      + by rewrite Heq.
      + by apply (within_window_earlier last t).
    - assert (Hcut : now2 - one_hour < last).
      { apply (within_window_earlier last t now2) in Hw; [|done].
        by apply within_window_within_hour. }
      unfold on_created, put_nowait.
      repeat (case_match; simpl; try done); simplify_eq.
      + split; [by apply mark_processed_other|].
        rewrite filter_app, filter_cons_False by done.
        by rewrite filter_nil, app_nil_r.
      + split; [by apply mark_processed_other|done]. }
  destruct Hstep as [Hl' Hq'].
  destruct (IH _ Hl' Hall) as [Hl'' Hq'']. simpl in *.
  split; [done|]. by rewrite Hq''.
Qed.

(** C8 (as amended): a creation event for a path is accepted (marked at
    reading [now1]); any deliveries follow whose clock readings do not pass
    [t0]; then a creation event for the same path is delivered at reading
    [t0], within the debounce window after [now1], for a window of at most an
    hour, the age at which entries are dropped.  The second event is
    discarded: handler and queue stay as they are, so the two deliveries and
    everything between them put at most one event for the path on the
    queue. *)
Theorem duplicate_within_debounce_discarded h event now0 now1 now2
    (ds : list delivery) second t0 t1 t2 :
  accepted h event now0 ->
  src_path second = src_path event ->
  (debounce_seconds config <= 3600)%Q ->
  ((t0 - now1) # 1000000 < debounce_seconds config)%Q ->
  now2 <= t0 ->
  Forall (read_by t0) ds ->
  let h1 := created h event now0 now1 now2 in
  let h2 := foldl deliver h1 ds in
  let h3 := created h2 second t0 t1 t2 in
  h3 = h2
  /\ (forall q, created (mkHandler (processed_files h2) q) second t0 t1 t2
                = mkHandler (processed_files h2) q)
  /\ (length (filter (fun p => p = src_path event) (event_queue h3))
      <= S (length (filter (fun p => p = src_path event) (event_queue h))))%nat.
Proof.
  intros (Hfile & Hpat & Hrec) Hpath Hd Hw Hmono Hall h1 h2 h3.
  assert (Hcut : now2 - one_hour < now1).
  { apply (within_window_earlier now1 t0 now2) in Hw; [|done].
    by apply within_window_within_hour. }
  assert (Hl1 : processed_files h1 !! src_path event = Some now1).
  { unfold h1, on_created, put_nowait. rewrite Hfile, Hpat, Hrec. simpl.
    case_match; simpl; by apply mark_processed_lookup. }
  destruct (deliveries_keep_entry ds h1 (src_path event) now1 t0 Hd Hw Hl1 Hall)
    as [Hl2 Hq2]. fold h2 in Hl2, Hq2.
  assert (Hdisc : forall q, created (mkHandler (processed_files h2) q) second t0 t1 t2
                            = mkHandler (processed_files h2) q).
  { intros q. apply (created_discards_recent _ _ _ _ _ now1); [|done].
    simpl. by rewrite Hpath. }
  assert (H32 : h3 = h2).
  { unfold h3. specialize (Hdisc (event_queue h2)). by destruct h2. }
  split_and!; [done|done|].
  rewrite H32, Hq2. unfold h1.
  destruct (created_queue h event now0 now1 now2) as [->| ->]; [lia|].
  rewrite filter_app, length_app.
  pose proof (length_filter (fun p => p = src_path event) [src_path event]).
  simpl in *. lia.
Qed.

End Debounce.

(** [PurePath.match] for the patterns of the default configuration: a
    pattern [*suffix] matches the names that end with the suffix, [.*] the
    names that start with a dot. *)
Definition match_default (file_path pattern : string) : bool :=
  if bool_decide (pattern = ".*") then Py.startswith "." file_path
  else Py.endswith (Py.drop_chars 1 pattern) file_path.

(** C8, at the scenario of the specification: [task.md] arrives, the same
    path arrives again 0.5 s later under the default debounce of 2 s. *)
Lemma duplicate_within_debounce_discarded_witness :
  let first := mkEvent false "task.md" in
  let h1 := on_created match_default default_config (mkHandler ∅ [])
              first 1000000 1000010 1000020 in
  event_queue h1 = ["task.md"]
  /\ on_created match_default default_config h1 first 1500010 1500020 1500030
     = h1.
Proof.
  split; [reflexivity|].
  destruct (duplicate_within_debounce_discarded match_default default_config
              (mkHandler ∅ []) (mkEvent false "task.md") 1000000 1000010 1000020
              [] (mkEvent false "task.md") 1500010 1500020 1500030)
    as (H & _).
  - by vm_compute.
  - reflexivity.
  - by vm_compute.
  - by vm_compute.
  - lia.
  - constructor.
  - exact H.
Defined.

(** A configuration with a debounce window of two hours. *)
Definition long_window_config : WatcherConfig :=
  {| watch_patterns := ["*.md"; "*.txt"]; ignore_patterns := ["*.tmp"; ".*"];
     debounce_seconds := 7200; max_queue_size := 100 |}.

(** C8 (as stated) fails for a debounce window longer than an hour.  With a
    window of 7200 s, [task.md] is accepted at second 0; [other.md] is
    accepted at second 3601, and its [_mark_processed] drops the entry of
    [task.md], which is older than one hour; [task.md] arrives again at
    second 3602, within the window, and is queued a second time. *)
Lemma duplicate_within_long_window_queued_again :
  let first := mkEvent false "task.md" in
  let other := mkEvent false "other.md" in
  let h1 := on_created match_default long_window_config (mkHandler ∅ [])
              first 0 0 0 in
  let h2 := on_created match_default long_window_config h1
              other 3601000000 3601000000 3601000000 in
  let h3 := on_created match_default long_window_config h2
              first 3602000000 3602000000 3602000000 in
  accepted match_default long_window_config (mkHandler ∅ []) first 0
  /\ ((3602000000 - 0) # 1000000 < debounce_seconds long_window_config)%Q
  /\ event_queue h1 = ["task.md"]
  /\ processed_files h1 !! "task.md" = Some 0
  /\ processed_files h2 !! "task.md" = None
  /\ event_queue h3 = ["task.md"; "other.md"; "task.md"].
Proof. vm_compute. repeat split. Qed.

End WatcherFacts.

(* ===================================================================== *)
(** ** More facts about the plan execution engine                      *)
(* ===================================================================== *)

Module EngineMore.

Import Engine EngineFacts.

Section Runs.

Variable _execute_action : string -> Step -> Plan -> outcome.

Local Abbreviation execute_step := (_execute_step _execute_action).
Local Abbreviation run := (exec_loop _execute_action).

(** [_execute_step] rewrites the status, the counter and the outputs of the
    step it runs and nothing else of it. *)
Lemma execute_step_keeps_identity plan i s plan' result :
  steps plan !! i = Some s ->
  execute_step plan i = Some (plan', result) ->
  exists s', steps plan' = <[i := s']> (steps plan)
             /\ id s' = id s /\ dependencies s' = dependencies s
             /\ actions s' = actions s /\ max_attempts s' = max_attempts s
             /\ attempts s' = attempts s + 1.
Proof.
  intros Hs. unfold _execute_step. rewrite Hs.
  destruct (run_actions _ _ _ _ _) as [e|outputs].
  - unfold _handle_step_failure. case_bool_decide; intros [= <- <-];
      eexists; simpl; rewrite list_insert_insert_eq; split_and!; done.
  - destruct (_validate_step_outputs _ _).
    + intros [= <- <-]. eexists; simpl; rewrite list_insert_insert_eq;
        split_and!; done.
    + unfold _handle_step_failure. case_bool_decide; intros [= <- <-];
        eexists; simpl; rewrite list_insert_insert_eq; split_and!; done.
Qed.

(** An induction principle for the outer loop: a property of the step list
    kept by selection and by the execution of the selected step is kept by
    any number of iterations. *)
Lemma exec_loop_invariant (P : list Step -> Prop) :
  (forall plan plan' r,
     _get_next_step plan = (plan', r) -> P (steps plan) -> P (steps plan')) ->
  (forall plan k s plan' result,
     steps plan !! k = Some s -> eligible (steps plan) s -> P (steps plan) ->
     execute_step plan k = Some (plan', result) -> P (steps plan')) ->
  forall n plan plan',
    P (steps plan) -> run n plan = Some plan' -> P (steps plan').
Proof.
  intros Hsel Hexec. induction n as [|n IH]; intros plan plan' HP; simpl.
  { by intros [= <-]. }
  destruct (_is_plan_complete plan); [by intros [= <-]|].
  unfold _evaluate_plan_state, _update_plan_after_step.
  destruct (_get_next_step plan) as [plan1 [k|]] eqn:Hnext.
  - pose proof (Hsel _ _ _ Hnext HP) as HP1.
    pose proof Hnext as Hspec.
    apply get_next_step_spec in Hspec as (_ & Hlook & _ & s & Hs & He).
    simpl in *.
    assert (Hs1 : steps plan1 !! k = Some s).
    { rewrite Hlook. by rewrite decide_False by lia. }
    assert (He1 : eligible (steps plan1) s).
    { unfold eligible in *. destruct He as (Hp & Hd & Ha).
      split_and!; [done| |done].
      (* the dependency check reads the marked list *)
      revert Hd. unfold _get_next_step in Hnext.
      destruct (next_step_loop _ _ _) as [l1 r1] eqn:Hloop. simplify_eq/=.
      clear -Hloop. intros Hd.
      assert (forall m i l l' r' t, next_step_loop m i l = (l', r') ->
                _are_dependencies_met t l' = _are_dependencies_met t l) as Hgen.
      { clear. induction m as [|m IHm]; intros i l l' r' t H; simpl in H;
          [by simplify_eq|].
        destruct (l !! i) as [st|] eqn:Hi; [|by simplify_eq].
        destruct (bool_decide (status st = PENDING)) eqn:Hp; simpl in H;
          [|by eapply IHm].
        apply bool_decide_eq_true in Hp.
        destruct (_are_dependencies_met st l); simpl in H; [|by eapply IHm].
        destruct (bool_decide _); [|by simplify_eq].
        rewrite (IHm _ _ _ _ t H). by apply deps_met_mark_failed. }
      by rewrite (Hgen _ _ _ _ _ s Hloop). }
    destruct (execute_step plan1 k) as [[plan2 result]|] eqn:Hex; [|done].
    pose proof (Hexec _ _ _ _ _ Hs1 He1 HP1 Hex) as HP2.
    destruct (_requires_human_intervention _ _).
    + intros [= <-]. simpl. by destruct (_should_replan _ _).
    + apply IH. by destruct (_should_replan _ _).
  - intros [= <-]. pose proof (Hsel _ _ _ Hnext HP).
    by destruct (_has_blocked_steps _).
Qed.

Lemma get_next_step_keeps_other plan plan' r j s :
  _get_next_step plan = (plan', r) ->
  steps plan !! j = Some s -> ~ exhausted (steps plan) s ->
  steps plan' !! j = Some s.
Proof.
  intros H Hs Hne. apply get_next_step_spec in H as (_ & Hlook & _).
  rewrite Hlook, Hs. case_decide; [|done]. simpl. unfold mark.
  by rewrite decide_False.
Qed.

(** X1: a step that is not PENDING (COMPLETED, FAILED, SKIPPED, BLOCKED or
    left IN_PROGRESS) is never touched again: after any number of loop
    iterations, and after a whole run, it is the same step. *)
Theorem settled_steps_never_change plan j s :
  steps plan !! j = Some s -> status s <> PENDING ->
  (forall n plan', run n plan = Some plan' -> steps plan' !! j = Some s)
  /\ (forall plan', execute_plan_iteratively _execute_action plan = inr plan' ->
                    steps plan' !! j = Some s).
Proof.
  intros Hs Hp.
  assert (Hloop : forall n p p', steps p !! j = Some s ->
            run n p = Some p' -> steps p' !! j = Some s).
  { intros n p p'.
    apply (exec_loop_invariant (fun l => l !! j = Some s)).
    - intros q q' r Hnext Hq. apply (get_next_step_keeps_other _ _ _ _ _ Hnext Hq).
      unfold exhausted. tauto.
    - intros q k t q' result Ht He Hq Hex.
      destruct (execute_step_keeps_identity _ _ _ _ _ Ht Hex) as (t' & -> & _).
      rewrite list_lookup_insert_ne; [done|].
      intros ->. unfold eligible in He. simplify_eq. tauto. }
  split; [intros n plan'; by apply Hloop|].
  intros plan'. unfold execute_plan_iteratively, _write_plan_markdown.
  case_bool_decide; [done|]. simpl.
  destruct (steps plan) as [|first rest] eqn:Hsteps; [done|].
  destruct (exec_loop _ _ _) as [p|] eqn:Hrun; [|done].
  apply Hloop in Hrun; [|simpl; by rewrite Hsteps].
  unfold _finalize_plan. intros Hfin.
  repeat (case_match; simplify_eq/=); done.
Qed.

(** *** Dependencies that can never be met *)

Lemma find_list_find (dep : string) (l : list Step) :
  List.find (fun x => bool_decide (id x = dep)) l
  = snd <$> list_find (fun x => id x = dep) l.
Proof.
  induction l as [|x l IH]; [done|].
  cbn [List.find list_find]. rewrite IH.
  case_bool_decide; [by rewrite decide_True|rewrite decide_False by done].
  by destruct (list_find _ l) as [[??]|].
Qed.

Lemma list_find_same_ids (dep : string) (l l' : list Step) p d :
  (forall j, id <$> l' !! j = id <$> l !! j) ->
  list_find (fun x => id x = dep) l' = Some (p, d) ->
  exists d0, list_find (fun x => id x = dep) l = Some (p, d0).
Proof.
  intros Hid H. apply list_find_Some in H as (Hp & Hd & Hbefore).
  pose proof (Hid p) as Hidp. rewrite Hp in Hidp. simpl in Hidp.
  destruct (l !! p) as [d0|] eqn:Hp0; [|done]. simpl in Hidp.
  exists d0. apply list_find_Some. split_and!; [done|congruence|].
  intros j y Hy Hj Hyd. pose proof (Hid j) as Hidj. rewrite Hy in Hidj.
  destruct (l' !! j) as [y'|] eqn:Hy'; [|done]. simpl in Hidj.
  apply (Hbefore j y' Hy' Hj). congruence.
Qed.

(** A set of positions of the plan is stuck when each step there is PENDING
    and has a dependency id that names no step of the plan or whose first
    bearer is itself in the set: a missing step, the step itself, a cycle. *)
Definition stuck (l : list Step) (S : nat -> Prop) : Prop :=
  forall j, S j ->
    exists s dep,
      l !! j = Some s /\ status s = PENDING /\ dep ∈ dependencies s
      /\ forall p d, list_find (fun x => id x = dep) l = Some (p, d) -> S p.

Lemma stuck_not_met l0 S l j s :
  stuck l0 S ->
  (forall i, id <$> l !! i = id <$> l0 !! i) ->
  (forall i, S i -> l !! i = l0 !! i) ->
  S j -> l !! j = Some s ->
  _are_dependencies_met s l = false.
Proof.
  intros Hstuck Hid Hsame Hj Hs. apply not_true_is_false.
  rewrite are_dependencies_met_spec. intros Hmet.
  destruct (Hstuck j Hj) as (s0 & dep & Hs0 & _ & Hdep & Hres).
  rewrite Hsame, Hs0 in Hs by done. simplify_eq.
  destruct (Hmet dep Hdep) as (d & Hfind & Hdone).
  rewrite find_list_find in Hfind.
  destruct (list_find _ l) as [[p d']|] eqn:Hlf; simplify_eq/=.
  destruct (list_find_same_ids dep l0 l p d Hid Hlf) as (d0 & Hlf0).
  pose proof (Hres p d0 Hlf0) as Hp.
  destruct (Hstuck p Hp) as (sp & _ & Hsp & Hpend & _).
  apply list_find_Some in Hlf as (Hd & _). rewrite Hsame, Hsp in Hd by done.
  simplify_eq. congruence.
Qed.

(** X2: the steps of a stuck set are never run and never marked: after any
    number of loop iterations, and after a whole run, each of them is as it
    was.  A plan with a dependency cycle or a dependency on an unknown id
    therefore leaves those steps PENDING instead of looping on them. *)
Theorem unsatisfiable_dependencies_never_run plan (S : nat -> Prop) :
  stuck (steps plan) S ->
  (forall n plan', run n plan = Some plan' ->
     forall j, S j -> steps plan' !! j = steps plan !! j)
  /\ (forall plan', execute_plan_iteratively _execute_action plan = inr plan' ->
        forall j, S j -> steps plan' !! j = steps plan !! j).
Proof.
  intros Hstuck.
  set (l0 := steps plan).
  set (Q := fun l : list Step =>
              (forall i, id <$> l !! i = id <$> l0 !! i)
              /\ (forall i, S i -> l !! i = l0 !! i)).
  assert (Hloop : forall n p p', Q (steps p) -> run n p = Some p' -> Q (steps p')).
  { intros n p p'. apply (exec_loop_invariant Q).
    - intros q q' r Hnext [Hid Hsame]. split.
      + intros i. rewrite <-Hid.
        pose proof Hnext as Hspec.
        apply get_next_step_spec in Hspec as (_ & Hlook & _).
        rewrite Hlook. case_decide; [|done].
        destruct (steps q !! i) as [t|]; [|done]. simpl. unfold mark.
        by case_decide.
      + intros i Hi. rewrite <-Hsame by done.
        destruct (steps q !! i) as [t|] eqn:Ht.
        * apply (get_next_step_keeps_other _ _ _ _ _ Hnext Ht).
          unfold exhausted.
          rewrite (stuck_not_met l0 S (steps q) i t Hstuck Hid Hsame Hi Ht).
          intros (_ & ? & _). discriminate.
        * pose proof Hnext as Hspec.
          apply get_next_step_spec in Hspec as (_ & Hlook & _).
          rewrite Hlook, Ht. by case_decide.
    - intros q k t q' result Ht He [Hid Hsame] Hex.
      destruct (execute_step_keeps_identity _ _ _ _ _ Ht Hex)
        as (t' & -> & Hidt & _).
      assert (Hk : ~ S k).
      { intros Hk. unfold eligible in He.
        rewrite (stuck_not_met l0 S (steps q) k t Hstuck Hid Hsame Hk Ht) in He.
        destruct He as (_ & ? & _). discriminate. }
      split.
      + intros i. destruct (decide (i = k)) as [->|Hne].
        * rewrite list_lookup_insert_eq by (by eapply lookup_lt_Some).
          rewrite <-Hid, Ht. simpl. by rewrite Hidt.
        * rewrite list_lookup_insert_ne by done. apply Hid.
      + intros i Hi. rewrite list_lookup_insert_ne; [by apply Hsame|].
        by intros <-. }
  assert (HQ0 : forall st, Q (steps (set_plan_status plan st))).
  { by split. }
  split.
  - intros n plan' Hrun. by apply (Hloop n plan plan' (HQ0 (plan_status plan))).
  - intros plan'. unfold execute_plan_iteratively, _write_plan_markdown.
    case_bool_decide; [done|]. simpl.
    destruct (steps plan) as [|first rest] eqn:Hsteps; [done|].
    destruct (exec_loop _ _ _) as [p|] eqn:Hrun; [|done].
    apply Hloop in Hrun; [|apply HQ0]. destruct Hrun as [_ Hsame].
    unfold _finalize_plan. intros Hfin j Hj.
    assert (steps plan' = steps p) as ->.
    { repeat (case_match; simplify_eq/=); done. }
    rewrite Hsame by done. unfold l0. by rewrite ?Hsteps.
Qed.

(** *** The run in which nothing fails *)

(** The collaborator returns on every call. *)
Definition never_raises : Prop :=
  forall a s p, exists v, _execute_action a s p = Returned v.

Lemma run_actions_returns acts s p outputs :
  never_raises ->
  exists outputs',
    run_actions _execute_action acts s p outputs = inr outputs'
    /\ (acts <> [] \/ outputs <> ∅ -> outputs' <> ∅).
Proof.
  intros Hret. revert outputs.
  induction acts as [|a acts IH]; intros outputs; simpl.
  - exists outputs. split; [done|]. intros [?|?]; done.
  - destruct (Hret a s p) as [v ->].
    destruct (IH (<[a := v]> outputs)) as (o' & -> & Hne).
    exists o'. split; [done|]. intros _. apply Hne. right.
    apply insert_non_empty.
Qed.

(** The first [c] steps of [l0] have been run once and are COMPLETED, the
    others are as in [l0]. *)
Definition completed_up_to (l0 : list Step) (c : nat) (l : list Step) : Prop :=
  length l = length l0
  /\ (forall j s, (j < c)%nat -> l0 !! j = Some s ->
        exists s', l !! j = Some s' /\ status s' = COMPLETED
                   /\ attempts s' = attempts s + 1 /\ id s' = id s)
  /\ (forall j, (c <= j)%nat -> l !! j = l0 !! j).

(** Every step is PENDING with attempts left and at least one action, and
    every dependency id is first borne by an earlier step. *)
Definition runnable_in_order (l0 : list Step) : Prop :=
  (forall j s, l0 !! j = Some s ->
     status s = PENDING /\ attempts s < max_attempts s /\ actions s <> [])
  /\ (forall j s dep, l0 !! j = Some s -> dep ∈ dependencies s ->
        exists p d, list_find (fun x => id x = dep) l0 = Some (p, d)
                    /\ (p < j)%nat).

Lemma completed_up_to_ids l0 c l :
  completed_up_to l0 c l -> forall i, id <$> l !! i = id <$> l0 !! i.
Proof.
  intros (Hlen & Hdone & Hrest) i.
  destruct (decide (i < c)%nat) as [Hi|Hi]; [|by rewrite Hrest by lia].
  destruct (l0 !! i) as [s|] eqn:Hs.
  - destruct (Hdone i s Hi Hs) as (s' & -> & _ & _ & Hid). simpl. by rewrite Hid.
  - apply lookup_ge_None in Hs. rewrite <-Hlen in Hs.
    apply lookup_ge_None in Hs. by rewrite Hs.
Qed.

Lemma completed_up_to_eligible l0 c l s :
  runnable_in_order l0 -> completed_up_to l0 c l ->
  l0 !! c = Some s -> eligible l s.
Proof.
  intros [Hfresh Horder] Hc Hs. pose proof Hc as (Hlen & Hdone & Hrest).
  destruct (Hfresh c s Hs) as (Hp & Ha & _).
  unfold eligible. split_and!; [done| |done].
  apply are_dependencies_met_spec. intros dep Hdep.
  destruct (Horder c s dep Hs Hdep) as (p & d & Hfind & Hpc).
  assert (exists d', list_find (fun x => id x = dep) l = Some (p, d')) as [d' Hfind'].
  { apply (list_find_same_ids dep l l0 p d); [|done].
    intros i. symmetry. by apply (completed_up_to_ids l0 c l). }
  exists d'. rewrite find_list_find, Hfind'. split; [done|].
  apply list_find_Some in Hfind' as (Hd' & _).
  apply list_find_Some in Hfind as (Hd & _).
  destruct (Hdone p d Hpc Hd) as (s' & Hs' & Hst & _). by simplify_eq.
Qed.

Lemma completed_up_to_all l0 c l :
  (length l0 <= c)%nat -> completed_up_to l0 c l ->
  completed_up_to l0 (length l0) l.
Proof.
  intros Hc (Hlen & Hdone & Hrest). split_and!; [done| |].
  - intros j s Hj Hs. apply Hdone; [lia|done].
  - intros j Hj. rewrite (lookup_ge_None_2 l0) by done.
    apply lookup_ge_None_2. lia.
Qed.

Lemma runnable_run n c plan l0 :
  never_raises -> runnable_in_order l0 ->
  completed_up_to l0 c (steps plan) ->
  (length l0 - c <= n)%nat ->
  exists plan', run n plan = Some plan'
                /\ completed_up_to l0 (length l0) (steps plan').
Proof.
  intros Hret Hrun. revert c plan.
  induction n as [|n IH]; intros c plan Hc Hn.
  { exists plan. split; [done|]. apply (completed_up_to_all l0 c); [lia|done]. }
  pose proof Hc as (Hlen & Hdone & Hrest). pose proof Hrun as [Hfresh Horder].
  cbn [exec_loop].
  destruct (decide (length l0 <= c)%nat) as [Hge|Hlt].
  { assert (_is_plan_complete plan = true) as ->.
    { unfold _is_plan_complete. apply forallb_forall. intros s' Hin.
      apply list_elem_of_In, list_elem_of_lookup in Hin as [j Hj].
      pose proof (lookup_lt_Some _ _ _ Hj) as Hjl. rewrite Hlen in Hjl.
      destruct (lookup_lt_is_Some_2 l0 j Hjl) as [s Hs].
      destruct (Hdone j s ltac:(lia) Hs) as (s'' & Hs'' & Hst & _).
      simplify_eq. rewrite Hst. done. }
    exists plan. split; [done|]. by apply (completed_up_to_all l0 c). }
  destruct (lookup_lt_is_Some_2 l0 c ltac:(lia)) as [s Hs].
  pose proof (completed_up_to_eligible l0 c (steps plan) s Hrun Hc Hs) as He.
  assert (Hsc : steps plan !! c = Some s) by (by rewrite Hrest).
  assert (_is_plan_complete plan = false) as ->.
  { apply not_true_is_false. unfold _is_plan_complete.
    rewrite forallb_forall. intros Hall.
    specialize (Hall s). destruct He as (Hp & _).
    rewrite Hp in Hall. simpl in Hall.
    assert (false = true) by (apply Hall, list_elem_of_In, list_elem_of_lookup; eauto).
    done. }
  unfold _evaluate_plan_state, _update_plan_after_step.
  destruct (_get_next_step plan) as [plan1 r] eqn:Hnext.
  pose proof Hnext as Hspec.
  apply get_next_step_spec in Hspec as (_ & Hlook & Hnone & Hr). simpl in *.
  assert (r = Some c) as ->.
  { destruct r as [k|]; simpl in *.
    - destruct Hr as (t & Ht & Het).
      destruct (decide (k < c)%nat) as [Hkc|Hkc].
      + pose proof (lookup_lt_Some _ _ _ Ht) as Hkl. rewrite Hlen in Hkl.
        destruct (lookup_lt_is_Some_2 l0 k Hkl) as [t0 Ht0].
        destruct (Hdone k t0 Hkc Ht0) as (t' & Ht' & Hst & _).
        simplify_eq. destruct Het as (Hp & _). congruence.
      + destruct (decide (k = c)) as [->|Hne]; [done|].
        destruct (Hnone c s ltac:(lia) Hsc). done.
    - destruct (Hnone c s ltac:(lia) Hsc). done. }
  simpl in *.
  assert (Hsteps1 : steps plan1 = steps plan).
  { apply list_eq. intros j. rewrite Hlook. case_decide as Hj; [|done].
    destruct (steps plan !! j) as [t|] eqn:Ht; [|done]. simpl. f_equal.
    pose proof (lookup_lt_Some _ _ _ Ht) as Hjl. rewrite Hlen in Hjl.
    destruct (lookup_lt_is_Some_2 l0 j Hjl) as [t0 Ht0].
    destruct (Hdone j t0 Hj Ht0) as (t' & Ht' & Hst & _). simplify_eq.
    unfold mark. rewrite decide_False; [done|]. unfold exhausted. intros (Hp & _).
    congruence. }
  unfold _execute_step. rewrite Hsteps1, Hsc.
  set (s1 := set_attempts (set_status s IN_PROGRESS) (attempts s + 1)).
  destruct (Hfresh c s Hs) as (_ & _ & Hacts).
  destruct (run_actions_returns (actions s1) s1
              (set_steps plan1 (<[c := s1]> (steps plan))) ∅ Hret)
    as (outputs & -> & Hne).
  assert (_validate_step_outputs s1 outputs = true) as ->.
  { unfold _validate_step_outputs. apply bool_decide_eq_true.
    assert (size outputs <> 0%nat); [|lia].
    rewrite map_size_empty_iff. apply Hne. by left. }
  unfold _requires_human_intervention.
  cbn [new_result r_status r_confidence].
  rewrite (bool_decide_eq_false_2 ("SUCCESS" = "FAILED")) by done.
  cbn [andb].
  match goal with
  | |- context [exec_loop _ n ?p] =>
      destruct (IH (S c) p) as (plan' & Hrun' & Hall)
  end.
  - assert (Hst : forall q : Plan, steps (if _should_replan q
                 (new_result "SUCCESS" outputs None None)
               then _replan q (new_result "SUCCESS" outputs None None)
               else q) = steps q).
    { intros q. by destruct (_should_replan _ _). }
    rewrite Hst. cbn [steps set_steps]. rewrite list_insert_insert_eq.
    split_and!.
    + by rewrite length_insert.
    + intros j t Hj Ht. destruct (decide (j = c)) as [->|Hjc].
      * simplify_eq. eexists. rewrite list_lookup_insert_eq by (rewrite Hlen; lia).
        split_and!; done.
      * rewrite list_lookup_insert_ne by done. apply Hdone; [lia|done].
    + intros j Hj. rewrite list_lookup_insert_ne by lia. apply Hrest. lia.
  - lia.
  - exists plan'. split; [done|done].
Qed.

(** The run of a plan that is runnable in order, under a collaborator
    that never raises. *)
Lemma runnable_plan_completes plan first rest :
  never_raises ->
  steps plan = first :: rest ->
  runnable_in_order (steps plan) ->
  1 <= max_attempts first ->
  exists plan',
    execute_plan_iteratively _execute_action plan = inr plan'
    /\ plan_status plan' = P_COMPLETED
    /\ length (steps plan') = length (steps plan)
    /\ forall j s, steps plan !! j = Some s ->
         exists s', steps plan' !! j = Some s' /\ status s' = COMPLETED
                    /\ attempts s' = attempts s + 1.
Proof.
  intros Hret Hsteps Hrun Hbudget.
  unfold execute_plan_iteratively, _write_plan_markdown.
  cbn [steps set_plan_status]. rewrite bool_decide_eq_false_2 by (by rewrite Hsteps).
  rewrite Hsteps. rewrite <-Hsteps.
  destruct (runnable_run
              (Z.to_nat (Z.of_nat (length (steps plan)) * max_attempts first))
              0 (set_plan_status plan P_IN_PROGRESS) (steps plan) Hret Hrun)
    as (p & -> & Hlen & Hdone & _).
  { split_and!; [done| |done]. intros; lia. }
  { nia. }
  assert (Hall : forall t, t ∈ steps p -> status t = COMPLETED).
  { intros t Ht. apply list_elem_of_lookup in Ht as [j Hj].
    pose proof (lookup_lt_Some _ _ _ Hj) as Hjl. rewrite Hlen in Hjl.
    destruct (lookup_lt_is_Some_2 (steps plan) j Hjl) as [t0 Ht0].
    destruct (Hdone j t0 Hjl Ht0) as (t' & Ht' & Hst & _). by simplify_eq. }
  assert (Hcount : count_status COMPLETED (steps p) = length (steps p)).
  { unfold count_status. clear -Hall. induction (steps p) as [|t l IH]; [done|].
    rewrite filter_cons_True by (apply Hall; by left). simpl. f_equal.
    apply IH. intros t' Ht'. apply Hall. by right. }
  unfold _finalize_plan. cbv zeta. rewrite Hcount.
  rewrite (bool_decide_eq_true_2
             (Z.of_nat (length (steps p)) = Z.of_nat (length (steps p)))) by done.
  rewrite bool_decide_eq_false_2 by (rewrite Hlen, Hsteps; simpl; lia).
  eexists. split; [done|]. split_and!; [done|done|].
  intros j s Hs. destruct (Hdone j s (lookup_lt_Some _ _ _ Hs) Hs)
    as (s' & ? & ? & ? & _). eauto.
Qed.

(** X3: when the collaborator never raises, every step is PENDING with
    attempts left and at least one action, every dependency id is first
    borne by an earlier step, and the first step allows at least one attempt
    (the loop's budget is its bound times the number of steps), the run ends
    COMPLETED with every step COMPLETED after exactly one attempt. *)
Theorem run_without_failures_completes plan first rest :
  never_raises ->
  steps plan = first :: rest ->
  runnable_in_order (steps plan) ->
  1 <= max_attempts first ->
  exists plan',
    execute_plan_iteratively _execute_action plan = inr plan'
    /\ plan_status plan' = P_COMPLETED
    /\ length (steps plan') = length (steps plan)
    /\ forall j s, steps plan !! j = Some s ->
         exists s', steps plan' !! j = Some s' /\ status s' = COMPLETED
                    /\ attempts s' = attempts s + 1.
Proof. apply runnable_plan_completes. Qed.

(** *** The iteration budget *)

(** The attempts made on all the steps of a plan. *)
Definition total_attempts (l : list Step) : Z := foldr Z.add 0 (attempts <$> l).

Lemma total_attempts_same l l' :
  (forall j, attempts <$> l' !! j = attempts <$> l !! j) ->
  total_attempts l' = total_attempts l.
Proof.
  intros H. unfold total_attempts. f_equal. apply list_eq. intros j.
  by rewrite !list_lookup_fmap.
Qed.

Lemma total_attempts_insert l i s s' :
  l !! i = Some s ->
  total_attempts (<[i := s']> l) = total_attempts l - attempts s + attempts s'.
Proof.
  unfold total_attempts. revert i.
  induction l as [|x l IH]; intros [|i] H; simplify_eq/=; [lia|].
  rewrite (IH i H). lia.
Qed.

Lemma get_next_step_total_attempts plan plan' r :
  _get_next_step plan = (plan', r) ->
  total_attempts (steps plan') = total_attempts (steps plan).
Proof.
  intros H. apply get_next_step_spec in H as (_ & Hlook & _).
  apply total_attempts_same. intros j. rewrite Hlook.
  case_decide; [|done]. destruct (steps plan !! j) as [t|]; [|done].
  simpl. unfold mark. by case_decide.
Qed.

Lemma exec_loop_total_attempts n plan plan' :
  run n plan = Some plan' ->
  total_attempts (steps plan') <= total_attempts (steps plan) + Z.of_nat n.
Proof.
  revert plan. induction n as [|n IH]; intros plan; cbn [exec_loop].
  { intros [= <-]. lia. }
  destruct (_is_plan_complete plan); [intros [= <-]; lia|].
  unfold _evaluate_plan_state, _update_plan_after_step.
  destruct (_get_next_step plan) as [plan1 [k|]] eqn:Hnext.
  - pose proof (get_next_step_total_attempts _ _ _ Hnext) as Hsum.
    destruct (steps plan1 !! k) as [s|] eqn:Hs;
      [|by unfold _execute_step; rewrite Hs].
    destruct (execute_step plan1 k) as [[plan2 result]|] eqn:Hex; [|done].
    destruct (execute_step_keeps_identity _ _ _ _ _ Hs Hex)
      as (s' & Hsteps & _ & _ & _ & _ & Hatt).
    assert (Hsum2 : total_attempts (steps plan2) = total_attempts (steps plan) + 1).
    { rewrite Hsteps, (total_attempts_insert _ _ _ _ Hs). lia. }
    assert (Hst : steps (if _should_replan plan2 result
                         then _replan plan2 result else plan2) = steps plan2).
    { by destruct (_should_replan _ _). }
    destruct (_requires_human_intervention _ _).
    + intros [= <-]. simpl. rewrite Hst. lia.
    + intros Hrun. apply IH in Hrun. rewrite Hst in Hrun. lia.
  - intros [= <-]. pose proof (get_next_step_total_attempts _ _ _ Hnext).
    assert (steps (if _has_blocked_steps plan1 then _handle_blocked_plan plan1
                   else plan1) = steps plan1) as ->
      by (by destruct (_has_blocked_steps _)).
    lia.
Qed.

(** X4: the whole run makes at most [len(plan.steps) * max_attempts] attempts,
    with [max_attempts] read from the first step alone: the bounds of the
    other steps do not enter the budget. *)
Theorem attempts_budget_from_first_step plan first rest plan' :
  steps plan = first :: rest ->
  execute_plan_iteratively _execute_action plan = inr plan' ->
  total_attempts (steps plan')
  <= total_attempts (steps plan)
     + Z.max 0 (Z.of_nat (length (steps plan)) * max_attempts first).
Proof.
  intros Hsteps. unfold execute_plan_iteratively, _write_plan_markdown.
  cbn [steps set_plan_status].
  rewrite bool_decide_eq_false_2 by (by rewrite Hsteps).
  rewrite Hsteps. rewrite <-Hsteps.
  destruct (exec_loop _ _ _) as [p|] eqn:Hrun; [|done].
  apply exec_loop_total_attempts in Hrun. simpl in Hrun.
  unfold _finalize_plan. intros Hfin.
  assert (steps plan' = steps p) as ->.
  { repeat (case_match; simplify_eq/=); done. }
  lia.
Qed.

(** X5: when the first step allows no attempt ([max_attempts <= 0]) the loop
    body never runs, whatever the other steps allow: no step is selected,
    marked or executed, and the plan is finalized on the statuses it came
    with. *)
Theorem no_budget_no_run plan first rest :
  steps plan = first :: rest ->
  max_attempts first <= 0 ->
  exists plan',
    execute_plan_iteratively _execute_action plan = inr plan'
    /\ steps plan' = steps plan
    /\ (plan_status plan' = P_COMPLETED
        <-> (4 * length (steps plan) <= 5 * count_status COMPLETED (steps plan))%nat)
    /\ (plan_status plan' = P_COMPLETED \/ plan_status plan' = P_FAILED).
Proof.
  intros Hsteps Hmax. unfold execute_plan_iteratively, _write_plan_markdown.
  cbn [steps set_plan_status].
  rewrite bool_decide_eq_false_2 by (by rewrite Hsteps).
  rewrite Hsteps. rewrite <-Hsteps.
  assert (Z.to_nat (Z.of_nat (length (steps plan)) * max_attempts first) = 0%nat)
    as -> by nia.
  cbn [exec_loop].
  pose proof (count_status_le COMPLETED (steps plan)) as Hle.
  unfold _finalize_plan. cbn [steps set_plan_status].
  rewrite (bool_decide_eq_false_2 (Z.of_nat (length (steps plan)) = 0))
    by (rewrite Hsteps; simpl; lia).
  eexists. split; [done|].
  case_bool_decide as Hall; [|destruct (Qle_bool _ _) eqn:Hq]; simpl.
  - split_and!; [done| |by left]. split; [lia|done].
  - split_and!; [done| |by left]. split; [|done]. intros _.
    apply Qle_bool_iff in Hq. unfold Qle in Hq. simpl in Hq. lia.
  - split_and!; [done| |by right]. split; [done|]. intros H4.
    assert (Qle_bool (inject_Z (Z.of_nat (length (steps plan))) * (8 # 10))
              (inject_Z (Z.of_nat (count_status COMPLETED (steps plan)))) = true);
      [|congruence].
    apply Qle_bool_iff. unfold Qle. simpl. lia.
Qed.

End Runs.

(** *** Plans the engine creates *)

Section Created.

Import Creation.

(** [str.lower], whatever it does to the text. *)
Variable str_lower : string -> string.

Local Abbreviation classify := (_classify_task_type str_lower).

Lemma linear_chain_runnable (a b c : list string) (n1 n2 n3 : string) (rest : list Step) :
  a <> [] -> b <> [] -> c <> [] ->
  (rest = [] \/ exists n4 d, d <> [] /\ rest = [new_step "step-004" n4 d ["step-003"]]) ->
  runnable_in_order
    (new_step "step-001" n1 a [] :: new_step "step-002" n2 b ["step-001"]
     :: new_step "step-003" n3 c ["step-002"] :: rest).
Proof.
  intros Ha Hb Hc Hrest. split.
  - intros j s H.
    destruct Hrest as [->|(n4 & d & Hd & ->)];
      destruct j as [|[|[|[|j]]]]; simplify_eq/=; split_and!; (lia || done).
  - intros j s dep H Hdep.
    destruct Hrest as [->|(n4 & d & Hd & ->)];
      destruct j as [|[|[|[|j]]]]; simplify_eq/=;
      try (by apply elem_of_nil in Hdep);
      apply list_elem_of_singleton in Hdep as ->.
    + eexists 0%nat, _. split; [reflexivity|lia].
    + eexists 1%nat, _. split; [reflexivity|lia].
    + eexists 0%nat, _. split; [reflexivity|lia].
    + eexists 1%nat, _. split; [reflexivity|lia].
    + eexists 2%nat, _. split; [reflexivity|lia].
Qed.

(** X6: a task that brings no steps of its own, with [str.lower] taken as
    the library gives it.  When its objective is classified INTEGRATION,
    plan creation raises [AttributeError] (the method
    [_create_integration_steps] does not exist).  Otherwise the plan is
    created, and under every collaborator that never raises its run ends
    COMPLETED with every step COMPLETED on its first attempt. *)
Theorem created_plans_complete exec task_objective task_description plan_id :
  never_raises exec ->
  let objective :=
    default (default "Unknown objective" task_description) task_objective in
  match analyze_and_create_plan str_lower task_objective task_description None
          plan_id with
  | inl e =>
      e = AttributeError
      /\ _classify_task_type str_lower objective = "INTEGRATION"
  | inr plan =>
      _classify_task_type str_lower objective <> "INTEGRATION"
      /\ objective = Engine.objective plan
      /\ exists plan',
           execute_plan_iteratively exec plan = inr plan'
           /\ plan_status plan' = P_COMPLETED
           /\ length (steps plan') = length (steps plan)
           /\ forall j s', steps plan' !! j = Some s' ->
                status s' = COMPLETED /\ attempts s' = 1
  end.
Proof.
  intros Hret objective.
  assert (Hrun : forall l first rest,
            l = first :: rest -> runnable_in_order l -> max_attempts first = 3 ->
            (forall j s, l !! j = Some s -> attempts s = 0) ->
            exists plan',
              execute_plan_iteratively exec
                (mkPlan plan_id objective l P_NOT_STARTED) = inr plan'
              /\ plan_status plan' = P_COMPLETED
              /\ length (steps plan') = length l
              /\ forall j s', steps plan' !! j = Some s' ->
                   status s' = COMPLETED /\ attempts s' = 1).
  { intros l first rest Hl Hrunnable Hmax Hzero.
    destruct (runnable_plan_completes exec
                (mkPlan plan_id objective l P_NOT_STARTED) first rest)
      as (plan' & Hex & Hst & Hlen & Hall); [done|done|done|lia|].
    exists plan'. split_and!; [done..|].
    intros j s' Hs'. cbn [steps] in *.
    pose proof (lookup_lt_Some _ _ _ Hs') as Hj. rewrite Hlen in Hj.
    destruct (lookup_lt_is_Some_2 l j Hj) as [s Hs].
    destruct (Hall j s Hs) as (s'' & ? & ? & Hatt). simplify_eq.
    rewrite Hatt, (Hzero j s Hs). done. }
  unfold analyze_and_create_plan, _decompose_into_steps, _write_plan_markdown.
  fold objective. cbv zeta.
  unfold _create_data_processing_steps, _create_report_generation_steps,
    _create_generic_steps.
  cbn [steps].
  destruct (bool_decide (classify objective = "DATA_PROCESSING"))
    eqn:Hdata.
  { apply bool_decide_eq_true in Hdata.
    rewrite bool_decide_eq_false_2 by done.
    split_and!; [by rewrite Hdata|done|].
    eapply Hrun; [reflexivity| |done|].
    - apply linear_chain_runnable; [done..|]. right. eexists _, _. split; [|reflexivity]. done.
    - intros [|[|[|[|j]]]] s H; by simplify_eq/=. }
  destruct (bool_decide (classify objective = "REPORT_GENERATION"))
    eqn:Hreport.
  { apply bool_decide_eq_true in Hreport.
    rewrite bool_decide_eq_false_2 by done.
    split_and!; [by rewrite Hreport|done|].
    eapply Hrun; [reflexivity| |done|].
    - apply linear_chain_runnable; [done..|]. right. eexists _, _. split; [|reflexivity]. done.
    - intros [|[|[|[|j]]]] s H; by simplify_eq/=. }
  destruct (bool_decide (classify objective = "INTEGRATION"))
    eqn:Hint.
  { by apply bool_decide_eq_true in Hint. }
  apply bool_decide_eq_false in Hint.
  rewrite bool_decide_eq_false_2 by done.
  split_and!; [done|done|].
  eapply Hrun; [reflexivity| |done|].
  - apply linear_chain_runnable; [done..|]. by left.
  - intros [|[|[|j]]] s H; by simplify_eq/=.
Qed.

(** X7: a task that brings its own steps.  Plan creation raises
    [ZeroDivisionError] exactly when the list is empty (the first write of
    the plan file divides by the number of steps); otherwise the plan has
    one PENDING step per entry, in order, with no attempt made and the
    default bound of three attempts, and it keeps the actions and the
    dependencies of the entries. *)
Theorem supplied_steps_planned task_objective task_description specs plan_id :
  match analyze_and_create_plan str_lower task_objective task_description
          (Some specs) plan_id with
  | inl e => specs = [] /\ e = PlanError ZeroDivisionError
  | inr plan =>
      specs <> [] /\ length (steps plan) = length specs
      /\ forall j spec, specs !! j = Some spec ->
           exists s, steps plan !! j = Some s
             /\ status s = PENDING /\ attempts s = 0 /\ max_attempts s = 3
             /\ actions s = default [] (s_actions spec)
             /\ dependencies s = default [] (s_dependencies spec)
  end.
Proof.
  unfold analyze_and_create_plan, _decompose_into_steps, _write_plan_markdown.
  cbn [steps]. case_bool_decide as Hnil.
  - split; [|done]. by destruct specs.
  - cbn [steps]. split_and!.
    + by intros ->.
    + by rewrite length_imap.
    + intros j spec Hj. eexists. rewrite list_lookup_imap, Hj. simpl.
      split_and!; done.
Qed.

End Created.

(** A FAILED step, then a step that depends on it and a free one. *)
Definition plan_after_failure : Plan :=
  mkPlan "plan-x1" "objective"
    [done_step "step-001" FAILED;
     new_step "step-002" "B" ["b"] ["step-001"];
     new_step "step-003" "C" ["c"] []]
    P_NOT_STARTED.

(** X1, at the FAILED first step of [plan_after_failure]. *)
Lemma settled_steps_never_change_witness :
  exists plan',
    execute_plan_iteratively always_returns plan_after_failure = inr plan'
    /\ steps plan' !! 0%nat = Some (done_step "step-001" FAILED).
Proof.
  eexists. split; [vm_compute; reflexivity|].
  apply (settled_steps_never_change always_returns plan_after_failure 0
           (done_step "step-001" FAILED)).
  - reflexivity.
  - discriminate.
  - vm_compute. reflexivity.
Defined.

(** Two steps that wait for each other, one that waits for a step that is
    not in the plan, and a free one. *)
Definition plan_with_cycle : Plan :=
  mkPlan "plan-x2" "objective"
    [new_step "step-001" "A" ["a"] ["step-002"];
     new_step "step-002" "B" ["b"] ["step-001"];
     new_step "step-003" "C" ["c"] ["step-009"];
     new_step "step-004" "D" ["d"] []]
    P_NOT_STARTED.

Lemma plan_with_cycle_stuck :
  stuck (steps plan_with_cycle) (fun j => (j < 3)%nat).
Proof.
  intros j Hj.
  destruct j as [|[|[|j]]]; [| | |lia].
  - eexists _, "step-002". split_and!; [reflexivity|reflexivity|by left|].
    intros p d H. vm_compute in H. injection H as <- _. lia.
  - eexists _, "step-001". split_and!; [reflexivity|reflexivity|by left|].
    intros p d H. vm_compute in H. injection H as <- _. lia.
  - eexists _, "step-009". split_and!; [reflexivity|reflexivity|by left|].
    intros p d H. vm_compute in H. discriminate.
Defined.

(** X2, at the first three positions of [plan_with_cycle]. *)
Lemma unsatisfiable_dependencies_never_run_witness :
  exists plan',
    execute_plan_iteratively always_returns plan_with_cycle = inr plan'
    /\ forall j, (j < 3)%nat -> steps plan' !! j = steps plan_with_cycle !! j.
Proof.
  eexists. split; [vm_compute; reflexivity|].
  apply (unsatisfiable_dependencies_never_run always_returns plan_with_cycle
           (fun j => (j < 3)%nat) plan_with_cycle_stuck).
  vm_compute. reflexivity.
Defined.

Lemma plan_linear_runnable : runnable_in_order (steps plan_linear).
Proof.
  split.
  - intros j s H. destruct j as [|[|[|j]]]; simplify_eq/=;
      split_and!; (lia || done).
  - intros j s dep H Hdep. destruct j as [|[|[|j]]]; simplify_eq/=.
    + by apply elem_of_nil in Hdep.
    + apply list_elem_of_singleton in Hdep as ->.
      eexists 0%nat, _. split; [reflexivity|lia].
    + apply list_elem_of_singleton in Hdep as ->.
      eexists 1%nat, _. split; [reflexivity|lia].
Defined.

(** X3, at the linear plan A -> B -> C under the base collaborator. *)
Lemma run_without_failures_completes_witness :
  exists plan',
    execute_plan_iteratively always_returns plan_linear = inr plan'
    /\ plan_status plan' = P_COMPLETED
    /\ length (steps plan') = length (steps plan_linear)
    /\ forall j s, steps plan_linear !! j = Some s ->
         exists s', steps plan' !! j = Some s' /\ status s' = COMPLETED
                    /\ attempts s' = attempts s + 1.
Proof.
  apply (run_without_failures_completes always_returns plan_linear
           (new_step "step-001" "A" ["a"] [])
           [new_step "step-002" "B" ["b"] ["step-001"];
            new_step "step-003" "C" ["c"] ["step-002"]]).
  - intros a s p. by exists a.
  - reflexivity.
  - exact plan_linear_runnable.
  - simpl. lia.
Defined.

(** X4, at the linear plan under the collaborator that fails twice. *)
Lemma attempts_budget_from_first_step_witness :
  exists plan',
    execute_plan_iteratively fails_twice plan_linear = inr plan'
    /\ total_attempts (steps plan')
        <= total_attempts (steps plan_linear)
           + Z.max 0 (Z.of_nat (length (steps plan_linear)) * 3).
Proof.
  eexists. split; [vm_compute; reflexivity|].
  apply (attempts_budget_from_first_step fails_twice plan_linear
           (new_step "step-001" "A" ["a"] [])
           [new_step "step-002" "B" ["b"] ["step-001"];
            new_step "step-003" "C" ["c"] ["step-002"]]).
  - reflexivity.
  - vm_compute. reflexivity.
Defined.

(** X6, at an ASCII objective classified REPORT_GENERATION, under the base
    collaborator; on ASCII text [str.lower] is [Py.lower]. *)
Lemma created_plans_complete_witness :
  exists plan',
    execute_plan_iteratively always_returns
      (mkPlan "plan-x6" "Weekly summary"
         Creation._create_report_generation_steps P_NOT_STARTED) = inr plan'
    /\ plan_status plan' = P_COMPLETED.
Proof.
  pose proof (created_plans_complete Py.lower always_returns
                (Some "Weekly summary") None "plan-x6"
                (fun a s p => ex_intro _ a eq_refl)) as H.
  change (Creation.analyze_and_create_plan _ _ _ _ _)
    with (@inr Creation.exn Plan
            (mkPlan "plan-x6" "Weekly summary"
               Creation._create_report_generation_steps P_NOT_STARTED)) in H.
  destruct H as (_ & _ & plan' & H1 & H2 & _). eauto.
Defined.

(** X8, at the plan whose first step fails for good. *)
Lemma run_never_ends_awaiting_approval_witness :
  exists plan',
    execute_plan_iteratively always_returns plan_critical_step_fails = inr plan'
    /\ (plan_status plan' = P_COMPLETED \/ plan_status plan' = P_FAILED).
Proof.
  eexists. split; [vm_compute; reflexivity|].
  apply (run_never_ends_awaiting_approval always_returns plan_critical_step_fails).
  vm_compute. reflexivity.
Defined.

(** X9, at the first step of [plan_critical_step_fails]. *)
Lemma engine_results_never_escalate_witness :
  exists plan' result,
    _execute_step always_returns plan_critical_step_fails 0 = Some (plan', result)
    /\ forall p, _requires_human_intervention p result = false.
Proof.
  apply (engine_results_never_escalate always_returns plan_critical_step_fails 0
           (new_step "step-001" "A" [] [])).
  reflexivity.
Defined.

(** X10, at a plan without steps. *)
Lemma run_without_steps_witness :
  execute_plan_iteratively always_returns
    (mkPlan "plan-x10" "objective" [] P_NOT_STARTED) = inl ZeroDivisionError.
Proof.
  apply (run_without_steps always_returns). reflexivity.
Defined.

(** A first step that allows no attempt before two ordinary steps. *)
Definition plan_without_budget : Plan :=
  mkPlan "plan-x5" "objective"
    [mkStep "step-001" "A" ["a"] PENDING [] 0 0 ∅ true "MEDIUM";
     new_step "step-002" "B" ["b"] [];
     new_step "step-003" "C" ["c"] []]
    P_NOT_STARTED.

(** X5, at [plan_without_budget]. *)
Lemma no_budget_no_run_witness :
  exists plan',
    execute_plan_iteratively always_returns plan_without_budget = inr plan'
    /\ steps plan' = steps plan_without_budget
    /\ (plan_status plan' = P_COMPLETED
        <-> (4 * length (steps plan_without_budget)
             <= 5 * count_status COMPLETED (steps plan_without_budget))%nat)
    /\ (plan_status plan' = P_COMPLETED \/ plan_status plan' = P_FAILED).
Proof.
  apply (no_budget_no_run always_returns plan_without_budget
           (mkStep "step-001" "A" ["a"] PENDING [] 0 0 ∅ true "MEDIUM")
           [new_step "step-002" "B" ["b"] []; new_step "step-003" "C" ["c"] []]).
  - reflexivity.
  - simpl. lia.
Defined.


End EngineMore.

(* ===================================================================== *)
(** ** More facts about the approval manager                           *)
(* ===================================================================== *)

Module ApprovalMore.

Import Py Approval ApprovalFacts.

Section Gate.

Variable yaml_safe_load : string -> option (gmap string string).
Variable fromisoformat : string -> option Z.
Variable _generate_approval_file : ApprovalRequest -> string.
Variable original_execute : Task -> string.

Local Abbreviation loop := (monitor_loop yaml_safe_load fromisoformat).
Local Abbreviation create_request :=
  (create_approval_request _generate_approval_file).
Local Abbreviation checked_execute :=
  (execute_with_approval_check yaml_safe_load fromisoformat
     _generate_approval_file original_execute).

(** One of the three enum constructors of [create_approval_request] is
    called on a string that is not a value of its enum. *)
Definition invalid_enum (task : Task) : Prop :=
  default "api_call" (t_action_type task) ∉ ActionType_values
  \/ default "medium" (t_impact_level task) ∉ ImpactLevel_values
  \/ default "reversible" (t_reversibility task) ∉ Reversibility_values.

Lemma build_request_invalid m approval_id task details now1 now2 :
  invalid_enum task ->
  build_request m approval_id task details now1 now2 = None.
Proof.
  unfold invalid_enum, build_request, enum_of.
  intros [H|[H|H]]; repeat case_bool_decide; done.
Qed.

Lemma create_request_invalid m task details timestamp now1 now2 w :
  invalid_enum task ->
  create_request m task details timestamp now1 now2 w = (Exn ValueError, w).
Proof.
  intros H. unfold create_approval_request, bind, _generate_approval_id,
    get_files, ret, raise. simpl.
  by rewrite build_request_invalid.
Qed.

Lemma checked_execute_invalid env m task timestamp now1 now2 start_time fuel w :
  is_sensitive_action m task = true ->
  invalid_enum task ->
  checked_execute env m task timestamp now1 now2 start_time fuel w
  = (Exn ValueError, w).
Proof.
  intros Hs H. unfold execute_with_approval_check. rewrite Hs.
  unfold bind. by rewrite create_request_invalid.
Qed.

(** X11: a sensitive task whose action type, impact level or reversibility
    is not a value of its enum never reaches a human: the wrapped
    [executor.execute] raises [ValueError] while the request is built, before
    any document is written, and the wrapped executor is not invoked. *)
Theorem invalid_enum_raises_before_writing env m task details timestamp
    now1 now2 start_time fuel w :
  is_sensitive_action m task = true ->
  invalid_enum task ->
  create_request m task details timestamp now1 now2 w = (Exn ValueError, w)
  /\ checked_execute env m task timestamp now1 now2 start_time fuel w
     = (Exn ValueError, w).
Proof.
  intros Hs H. split.
  - by apply create_request_invalid.
  - by apply checked_execute_invalid.
Qed.

(** X12: under the default rules, [database_write] is the only action type
    of the sensitive list that is a value of [ActionType]: for every other
    one (send_email, post_linkedin, post_twitter, external_api_call,
    delete_file, financial_transaction) the wrapped [executor.execute] raises
    [ValueError], writes no approval document and executes nothing. *)
Theorem listed_action_types_cannot_be_requested env m task a timestamp
    now1 now2 start_time fuel w :
  approval_rules m = default_rules ->
  t_action_type task = Some a ->
  a ∈ sensitive_actions default_rules ->
  a <> "database_write" ->
  is_sensitive_action m task = true
  /\ checked_execute env m task timestamp now1 now2 start_time fuel w
     = (Exn ValueError, w).
Proof.
  intros Hrules Ha Hin Hne.
  assert (Hs : is_sensitive_action m task = true).
  { unfold is_sensitive_action. rewrite Hrules, Ha. simpl default.
    by rewrite bool_decide_eq_true_2. }
  split; [done|]. apply checked_execute_invalid; [done|].
  left. rewrite Ha. simpl default.
  cbn [sensitive_actions default_rules] in Hin.
  unfold ActionType_values.
  set_unfold. intros Hv.
  destruct Hin as [->|[->|[->|[->|[->|[->|[->|[]]]]]]]]; try done;
    repeat (destruct Hv as [Hv|Hv]; [discriminate|]); done.
Qed.

(** X13: under the default rules the company-policy check never decides:
    every task it flags has an action type of the sensitive list, so a task
    is sensitive exactly when its action type is listed, its impact level is
    high or critical, its data sensitivity is high or pii, or it is
    irreversible. *)
Theorem policy_check_never_decides m task :
  approval_rules m = default_rules ->
  (_violates_policy m task = true ->
   default "" (t_action_type task) ∈ sensitive_actions default_rules)
  /\ (is_sensitive_action m task = true
      <-> default "" (t_action_type task) ∈ sensitive_actions default_rules
          \/ default "low" (t_impact_level task) ∈ ["high"; "critical"]
          \/ default "none" (t_data_sensitivity task) ∈ ["high"; "pii"]
          \/ default "reversible" (t_reversibility task) = "irreversible").
Proof.
  intros Hrules.
  assert (Hpol : _violates_policy m task = true ->
            default "" (t_action_type task) ∈ sensitive_actions default_rules).
  { unfold _violates_policy.
    destruct (bool_decide (t_action_type task = Some "send_email")) eqn:H1.
    { apply bool_decide_eq_true in H1. rewrite H1. intros _.
      cbn [sensitive_actions default_rules default]. set_unfold. auto 10. }
    destruct (bool_decide (t_action_type task = Some "financial_transaction")) eqn:H2.
    { apply bool_decide_eq_true in H2. rewrite H2. intros _.
      cbn [sensitive_actions default_rules default]. set_unfold. auto 10. }
    destruct (bool_decide (t_action_type task = Some "post_linkedin")) eqn:H3.
    { apply bool_decide_eq_true in H3. rewrite H3. intros _.
      cbn [sensitive_actions default_rules default]. set_unfold. auto 10. }
    destruct (bool_decide (t_action_type task = Some "post_twitter")) eqn:H4.
    { apply bool_decide_eq_true in H4. rewrite H4. intros _.
      cbn [sensitive_actions default_rules default]. set_unfold. auto 10. }
    simpl. done. }
  split; [done|].
  unfold is_sensitive_action. rewrite Hrules. cbv zeta.
  case_bool_decide as H1; [by split; auto|].
  case_bool_decide as H2.
  { split; [|done]. intros _. left.
    cbn [always_require_approval sensitive_actions default_rules] in *.
    set_unfold. destruct H2 as [H2|[H2|[]]]; rewrite H2; auto 10. }
  case_bool_decide as H3; [by split; auto|].
  case_bool_decide as H4; [by split; auto|].
  case_bool_decide as H5; [by split; auto|].
  destruct (_violates_policy m task) eqn:Hv.
  - by destruct H1; apply Hpol.
  - split; [done|]. intros [?|[?|[?|?]]]; done.
Qed.

Lemma archive_approval_outcome m approval_id final_status w :
  (_archive_approval m approval_id final_status w).1 = Ok tt
  \/ exists e, (_archive_approval m approval_id final_status w).1 = Exn (OSError e).
Proof.
  unfold _archive_approval, bind, get_files, put_files, ret, raise.
  cbn beta iota. destruct (file_exists _ _); [|by left].
  destruct (rename _ _ _ (files w)); simpl; eauto.
Qed.

Lemma mark_expired_unfold m approval_id w :
  _mark_expired m approval_id w
  = match files w !! pending_file m approval_id with
    | Some content =>
        _archive_approval m approval_id "EXPIRED"
          (mkWorld (<[pending_file m approval_id := expired_text content]> (files w))
             (executed w))
    | None => (Ok tt, w)
    end.
Proof.
  unfold _mark_expired, bind, get_files, put_files, ret, pending_file. cbn beta iota.
  by destruct (files w !! _).
Qed.

Lemma mark_expired_outcome m approval_id w :
  (_mark_expired m approval_id w).1 = Ok tt
  \/ exists e, (_mark_expired m approval_id w).1 = Exn (OSError e).
Proof.
  rewrite mark_expired_unfold. destruct (files w !! _); [|by left].
  apply archive_approval_outcome.
Qed.

(** X14: a decision that comes after the timeout is ignored.  When the
    timeout has passed at the top of an iteration, the loop returns EXPIRED
    (or the archive raises [OSError]) whatever the document says by then, an
    APPROVED status included, and nothing is executed. *)
Theorem decision_after_timeout_ignored env m approval_id timeout_seconds
    start_time fuel j w :
  ~ (clock env j - start_time <= inject_Z timeout_seconds)%Q ->
  let out := monitor_loop yaml_safe_load fromisoformat env m approval_id
               timeout_seconds start_time (S fuel) j w in
  (out.1 = Ok (EXPIRED, None) \/ exists e, out.1 = Exn (OSError e))
  /\ executed out.2 = executed w.
Proof.
  intros Hlate out. subst out. cbn [monitor_loop].
  unfold bind, interfere. cbn beta iota.
  assert (Qle_bool (clock env j - start_time) (inject_Z timeout_seconds) = false)
    as ->.
  { apply not_true_is_false. by rewrite Qle_bool_iff. }
  cbn [negb]. unfold ret. cbn [files executed].
  pose proof (mark_expired_outcome m approval_id
                (mkWorld (before_poll env j (files w)) (executed w))) as Hout.
  pose proof (mark_expired_executed m approval_id
                (mkWorld (before_poll env j (files w)) (executed w))) as Hex.
  destruct (_mark_expired m approval_id _) as [[[]|e|] w']; simpl in *.
  - split; [by left|done].
  - split; [|done]. right. destruct Hout as [?|[e' ?]]; [done|].
    simplify_eq. eauto.
  - destruct Hout as [?|[e' ?]]; done.
Qed.

End Gate.

(** *** Concrete runs *)

(** An e-mail to a colleague: sensitive by its action type, which is not a
    value of [ActionType]. *)
Definition email_task : Task :=
  {| t_action_type := Some "send_email"; t_impact_level := None;
     t_data_sensitivity := None; t_reversibility := None;
     t_content := Some "Minutes attached";
     t_recipients := Some ["bob@company.com"]; t_amount := None;
     t_priority := None; t_requested_by := None; t_title := Some "Minutes";
     t_scope := None; t_action_details := None |}.

(** X11, at the e-mail task. *)
Lemma invalid_enum_raises_before_writing_witness :
  create_approval_request render (default_manager Posix) email_task ∅
    "20260213-101500" 0 0 empty_world = (Exn ValueError, empty_world)
  /\ execute_with_approval_check load_status no_date render run_task
       env_document_deleted (default_manager Posix) email_task
       "20260213-101500" 0 0 0 5 empty_world
     = (Exn ValueError, empty_world).
Proof.
  apply (invalid_enum_raises_before_writing load_status no_date render run_task
           env_document_deleted (default_manager Posix) email_task ∅
           "20260213-101500" 0 0 0 5 empty_world).
  - reflexivity.
  - left. apply (bool_decide_eq_false_1 _). vm_compute. reflexivity.
Defined.

(** X12, at the e-mail task. *)
Lemma listed_action_types_cannot_be_requested_witness :
  is_sensitive_action (default_manager Posix) email_task = true
  /\ execute_with_approval_check load_status no_date render run_task
       env_document_deleted (default_manager Posix) email_task
       "20260213-101500" 0 0 0 5 empty_world
     = (Exn ValueError, empty_world).
Proof.
  apply (listed_action_types_cannot_be_requested load_status no_date render
           run_task env_document_deleted (default_manager Posix) email_task
           "send_email" "20260213-101500" 0 0 0 5 empty_world).
  - reflexivity.
  - reflexivity.
  - apply (bool_decide_eq_true_1 _). vm_compute. reflexivity.
  - discriminate.
Defined.

(** X13, at the default manager and the e-mail task. *)
Lemma policy_check_never_decides_witness :
  is_sensitive_action (default_manager Posix) email_task = true
  <-> default "" (t_action_type email_task) ∈ sensitive_actions default_rules
      \/ default "low" (t_impact_level email_task) ∈ ["high"; "critical"]
      \/ default "none" (t_data_sensitivity email_task) ∈ ["high"; "pii"]
      \/ default "reversible" (t_reversibility email_task) = "irreversible".
Proof.
  apply (policy_check_never_decides (default_manager Posix) email_task).
  reflexivity.
Defined.

(** The document reads APPROVED, and the first clock reading of the monitor
    is already 4000 seconds after its start. *)
Definition world_approved_late : World :=
  mkWorld
    {[ pending_file (default_manager Posix) first_id
         := replace "status: PENDING" "status: APPROVED"
              (render_as first_id "Update ledger") ]}
    [].

Definition env_slow_start : Env :=
  {| clock := fun k => inject_Z (4000 + 30 * Z.of_nat k);
     before_poll := fun _ fs => fs;
     before_read := fun _ fs => fs;
     datetime_now := fun _ => 0 |}.

(** X14, at the approved document found after the default timeout. *)
Lemma decision_after_timeout_ignored_witness :
  let out := monitor_loop load_status no_date env_slow_start
               (default_manager Posix) first_id 3600 0 5 0 world_approved_late in
  (out.1 = Ok (EXPIRED, None) \/ exists e, out.1 = Exn (OSError e))
  /\ executed out.2 = [].
Proof.
  apply (decision_after_timeout_ignored load_status no_date env_slow_start
           (default_manager Posix) first_id 3600 0 4 0 world_approved_late).
  unfold Qle. simpl. lia.
Defined.

(** X15, at a request monitored with a timeout of 45 seconds and polled
    every 30 seconds: the third iteration is the first one past the
    timeout. *)
Lemma monitor_expires_witness :
  exists w',
    monitor_approval load_status no_date env_late_approval
      (default_manager Posix) first_id (Some 45) 0 5
      (create "20260213-101500" empty_world).2
    = (Ok (EXPIRED, None), w')
    /\ executed w' = []
    /\ files w' !! pending_file (default_manager Posix) first_id = None.
Proof.
  eexists. split_and!.
  - apply (monitor_expires load_status no_date env_late_approval
             (default_manager Posix) first_id (Some 45) 0
             (create "20260213-101500" empty_world).2 2 5
             (render_as first_id "Update ledger")).
    + intros j Hj. destruct j as [|[|j]]; [| |lia].
      * split_and!; [by vm_compute|by vm_compute; eexists|vm_compute; by left].
      * split_and!; [by vm_compute|by vm_compute; eexists|vm_compute; by left].
    + unfold Qle. simpl. lia.
    + reflexivity.
    + by left.
    + lia.
  - reflexivity.
  - vm_compute. reflexivity.
Defined.

(** X16, at the default manager (a poll every 30 seconds, a timeout of
    3600 seconds): 121 polls are enough. *)
Lemma monitor_loop_returns_witness :
  (0 < poll_interval (default_manager Posix))%Q
  /\ (monitor_loop load_status no_date env_late_approval (default_manager Posix)
        first_id 3600 0 122 0 (create "20260213-101500" empty_world).2).1
     <> OutOfFuel.
Proof.
  split; [reflexivity|].
  apply (monitor_loop_returns load_status no_date env_late_approval
           (default_manager Posix) first_id 3600 0 121 0
           (create "20260213-101500" empty_world).2).
  - reflexivity.
  - intros k. cbn [clock env_late_approval poll_interval default_manager].
    unfold clock_30, Qle. rewrite Nat2Z.inj_succ.
    cbn [Qnum Qden Qplus inject_Z]. lia.
  - reflexivity.
Defined.

End ApprovalMore.

(* ===================================================================== *)
(** ** More facts about inbox_watcher.py                                *)
(* ===================================================================== *)

Module InboxMore.

Import Py Inbox InboxFacts InboxHandler.

(** *** [move_file] *)

(** X17: [move_file] is all or nothing.  Either it returns [False] and the
    files are as they were (the source is missing, or on Windows the name it
    renames to is taken), or it returns [True] and exactly the source has
    moved, to the destination when that was free and to the name with the
    timestamp suffix otherwise; a file that was at the destination is still
    there. *)
Theorem move_file_all_or_nothing o fs source destination timestamp :
  let out := move_file o fs source destination timestamp in
  (out.2 = false /\ out.1 = fs
   /\ (fs !! source = None
       \/ o = Windows /\ is_Some (fs !! destination)
          /\ is_Some (fs !! disambiguated destination timestamp)
          /\ source <> disambiguated destination timestamp))
  \/ (out.2 = true
      /\ exists content target,
           fs !! source = Some content
           /\ out.1 = <[target := content]> (delete source fs)
           /\ (fs !! destination = None /\ target = destination
               \/ is_Some (fs !! destination)
                  /\ target = disambiguated destination timestamp)
           /\ (source <> destination ->
               out.1 !! destination = fs !! destination
               \/ fs !! destination = None)).
Proof.
  intros out. subst out. unfold move_file, file_exists.
  destruct (fs !! destination) as [existing|] eqn:Hd.
  - rewrite bool_decide_eq_true_2 by eauto.
    fold (disambiguated destination timestamp).
    assert (Hne : disambiguated destination timestamp <> destination).
    { unfold disambiguated. destruct destination as [d n]. simpl.
      intros [= H]. by apply disambiguated_name_differs in H. }
    unfold rename. destruct (fs !! source) as [content|] eqn:Hs.
    + destruct o.
      * right. simpl. split; [done|]. exists content, (disambiguated destination timestamp).
        split_and!; [done|done|right; eauto|].
        intros Hsd. left.
        rewrite lookup_insert_ne by done. by rewrite lookup_delete_ne.
      * unfold file_exists.
        destruct (bool_decide (is_Some (fs !! disambiguated destination timestamp)))
          eqn:Ht; simpl.
        -- apply bool_decide_eq_true in Ht.
           destruct (bool_decide (source = disambiguated destination timestamp))
             eqn:Hst; simpl.
           ++ right. split; [done|]. exists content, (disambiguated destination timestamp).
              split_and!; [done|done|right; eauto|].
              intros Hsd. left.
              rewrite lookup_insert_ne by done. by rewrite lookup_delete_ne.
           ++ left. apply bool_decide_eq_false in Hst.
              split_and!; [done|done|]. right. split_and!; eauto.
        -- right. split; [done|]. exists content, (disambiguated destination timestamp).
           split_and!; [done|done|right; eauto|].
           intros Hsd. left.
           rewrite lookup_insert_ne by done. by rewrite lookup_delete_ne.
    + left. simpl. split_and!; [done|done|by left].
  - rewrite (bool_decide_eq_false_2 (is_Some None)) by (by intros [? ?]).
    unfold rename. destruct (fs !! source) as [content|] eqn:Hs.
    + right.
      assert (Hout : match o with
                     | Posix => inr (<[destination := content]> (delete source fs))
                     | Windows =>
                         if file_exists destination fs
                            && negb (bool_decide (source = destination))
                         then inl FileExistsError
                         else inr (<[destination := content]> (delete source fs))
                     end
                     = (inr (<[destination := content]> (delete source fs))
                        : os_error + gmap path string)).
      { destruct o; [done|]. unfold file_exists. rewrite Hd.
        by rewrite (bool_decide_eq_false_2 (is_Some None)) by (by intros [? ?]). }
      rewrite Hout. simpl. split; [done|]. exists content, destination.
      split_and!; [done|done|by left|by right].
    + left. simpl. split_and!; [done|done|by left].
Qed.

(** *** Routing back into the inbox *)

Lemma move_file_target o fs source destination timestamp :
  (move_file o fs source destination timestamp).2 = true ->
  exists content target,
    fs !! source = Some content
    /\ (move_file o fs source destination timestamp).1
       = <[target := content]> (delete source fs)
    /\ (target = destination \/ target = disambiguated destination timestamp).
Proof.
  unfold move_file. cbv zeta.
  destruct (file_exists destination fs);
    unfold rename; (destruct (fs !! source) as [content|]; [|done]);
    (destruct o; simpl; [|destruct (file_exists _ fs && _); simpl; [done|]]);
    intros _; eexists content, _; (split_and!; [done|reflexivity|]);
    [right|right|left|left]; reflexivity.
Qed.

Lemma rfind_dot_go_get s k last i :
  rfind_dot_go s k last = Some i ->
  last = Some i \/ (k <= i)%nat /\ String.get (i - k) s = Some "."%char.
Proof.
  revert k last. induction s as [|c s IH]; intros k last; simpl; [by left|].
  intros H. apply IH in H as [H|[Hk H]].
  - case_bool_decide as Hc; [|by left]. simplify_eq. right.
    split; [done|]. by rewrite Nat.sub_diag.
  - right. split; [lia|].
    replace (i - k)%nat with (S (i - S k)) by lia. done.
Qed.

(** No character of the string is a dot. *)
Definition dot_free (pre : string) : Prop :=
  forall i, String.get i pre <> Some "."%char.

Lemma stem_keeps_prefix pre name :
  dot_free pre ->
  exists k, (String.length pre <= k)%nat
            /\ stem (pre ++ name) = String.substring 0 k (pre ++ name).
Proof.
  intros Hfree. unfold stem.
  eexists. split; [|reflexivity].
  pose proof (length_append pre name) as Hlen.
  unfold suffix. destruct (rfind_dot_go _ 0 None) as [i|] eqn:Hi; simpl; [|lia].
  case_bool_decide as Hrange; simpl; [|lia].
  unfold drop_chars. rewrite length_substring by lia.
  apply rfind_dot_go_get in Hi as [?|[_ Hget]]; [done|].
  rewrite Nat.sub_0_r in Hget.
  destruct (decide (i < String.length pre)%nat) as [Hlt|Hge]; [|lia].
  rewrite <-(append_correct1 pre name i Hlt) in Hget. by destruct (Hfree i).
Qed.

Lemma prefix_of_substring pre name k rest :
  (String.length pre <= k)%nat ->
  String.prefix pre (String.substring 0 k (pre ++ name) ++ rest) = true.
Proof.
  revert k. induction pre as [|c pre IH]; intros k Hk; simpl.
  - by destruct (String.substring _ _ _ ++ rest).
  - destruct k as [|k]; simpl in *; [lia|].
    destruct (ascii_dec c c); [|done]. apply IH. lia.
Qed.

Lemma disambiguated_keeps_prefix pre name timestamp :
  dot_free pre ->
  startswith pre
    (stem (pre ++ name) ++ "_" ++ timestamp ++ suffix (pre ++ name)) = true.
Proof.
  intros Hfree. destruct (stem_keeps_prefix pre name Hfree) as (k & Hk & ->).
  by apply prefix_of_substring.
Qed.

Lemma clarification_dot_free : dot_free "[CLARIFICATION]".
Proof. intros i. do 16 (destruct i as [|i]; [discriminate|]). discriminate. Qed.

Lemma blocked_dot_free : dot_free "[BLOCKED]".
Proof. intros i. do 10 (destruct i as [|i]; [discriminate|]). discriminate. Qed.

Lemma on_created_prefixed s event now :
  startswith "[CLARIFICATION]" (src_path event).2 = true
  \/ startswith "[BLOCKED]" (src_path event).2 = true ->
  on_created s event now = s.
Proof.
  intros H. unfold on_created.
  destruct (is_directory event); [done|].
  destruct (negb _); [done|].
  by destruct H as [-> | ->]; rewrite ?orb_true_r.
Qed.

(** X18: a file that triage sends back into the inbox does not come round
    again.  For the statuses [needs_clarification] and [blocked] a
    successful [_route_file] leaves the file in the inbox under a name that
    starts with its marker, also when the name it wanted was taken and the
    timestamp suffix was added, and [on_created] ignores the creation event
    of that name in every state. *)
Theorem routed_back_file_is_ignored o fs file_path status timestamp :
  status = "needs_clarification" \/ status = "blocked" ->
  let out := _route_file o fs file_path (Some status) timestamp in
  out.2 = true ->
  exists content target,
    fs !! file_path = Some content
    /\ out.1 = <[target := content]> (delete file_path fs)
    /\ target.1 = INBOX_PATH
    /\ forall s now, on_created s (mkEvent false target) now = s.
Proof.
  intros Hstatus out Hok. subst out. unfold _route_file in *.
  destruct Hstatus as [-> | ->]; cbn [default] in *.
  - rewrite (bool_decide_eq_false_2 ("needs_clarification" = "needs_action"))
      in * by done.
    rewrite (bool_decide_eq_true_2 ("needs_clarification" = "needs_clarification"))
      in * by done.
    cbv zeta in *.
    destruct (move_file_target _ _ _ _ _ Hok) as (content & target & Hs & Hfs & Ht).
    exists content, target. split_and!; [done|done|by destruct Ht as [-> | ->]|].
    intros s now. apply on_created_prefixed. left. cbn [src_path].
    destruct Ht as [-> | ->]; cbn [snd disambiguated].
    + apply (prefix_of_substring "[CLARIFICATION]" "" 15 _). simpl. lia.
    + apply (disambiguated_keeps_prefix "[CLARIFICATION]" ("-" ++ file_path.2)).
      apply clarification_dot_free.
  - rewrite (bool_decide_eq_false_2 ("blocked" = "needs_action")) in * by done.
    rewrite (bool_decide_eq_false_2 ("blocked" = "needs_clarification"))
      in * by done.
    rewrite (bool_decide_eq_true_2 ("blocked" = "blocked")) in * by done.
    cbv zeta in *.
    destruct (move_file_target _ _ _ _ _ Hok) as (content & target & Hs & Hfs & Ht).
    exists content, target. split_and!; [done|done|by destruct Ht as [-> | ->]|].
    intros s now. apply on_created_prefixed. right. cbn [src_path].
    destruct Ht as [-> | ->]; cbn [snd disambiguated].
    + apply (prefix_of_substring "[BLOCKED]" "" 9 _). simpl. lia.
    + apply (disambiguated_keeps_prefix "[BLOCKED]" ("-" ++ file_path.2)).
      apply blocked_dot_free.
Qed.

(** *** The handler over time *)

Section Handler.

Variable process_file : gmap path string -> path -> gmap path string * bool.

Local Abbreviation tick := (process_pending_files process_file).

(** What happens to the handler, one call at a time: a creation event is
    delivered, the main loop calls [process_pending_files], or somebody else
    changes the files. *)
Inductive inbox_op :=
  | Created (event : Event) (now : Q)
  | Tick (current_time : Q)
  | Outside (change : gmap path string -> gmap path string).

Definition inbox_step (c : State * gmap path string) (o : inbox_op)
    : State * gmap path string :=
  match o with
  | Created event now => (on_created c.1 event now, c.2)
  | Tick current_time => tick c.1 c.2 current_time
  | Outside change => (c.1, change c.2)
  end.

Lemma dict_set_keys k v d p :
  p ∈ (dict_set k v d).*1 -> p = k \/ p ∈ d.*1.
Proof.
  induction d as [|[k' v'] d IH]; simpl.
  - set_unfold. intros [?|[]]. by left.
  - case_bool_decide; simpl; set_unfold; intros [?|?]; auto.
    destruct IH as [?|?]; auto.
Qed.

Lemma on_created_processed s event now :
  processed_files (on_created s event now) = processed_files s.
Proof. unfold on_created. by repeat case_match. Qed.

Lemma on_created_pending s event now p :
  p ∈ (pending_files (on_created s event now)).*1 ->
  p ∈ (pending_files s).*1 \/ p ∉ processed_files s.
Proof.
  unfold on_created.
  destruct (is_directory event); [by left|].
  destruct (negb _); [by left|].
  destruct (_ || _); [by left|].
  case_bool_decide as Hp; [by left|]. simpl.
  intros [->|?]%dict_set_keys; auto.
Qed.

Lemma process_all_spec fs processed l :
  let out := process_all process_file fs processed l in
  processed ⊆ out.2 /\ forall p, p ∈ out.2 -> p ∈ processed \/ p ∈ l.
Proof.
  revert fs processed. induction l as [|q l IH]; intros fs processed; simpl.
  - split; [done|]. auto.
  - destruct (negb _).
    + destruct (IH fs processed) as [H1 H2]. split; [done|].
      intros p Hp. destruct (H2 p Hp) as [?|?]; [by left|].
      right. apply elem_of_cons. by right.
    + destruct (process_file fs q) as [fs' []].
      * destruct (IH fs' ({[q]} ∪ processed)) as [H1 H2]. split.
        { intros x Hx. apply H1, elem_of_union. by right. }
        intros p Hp. destruct (H2 p Hp) as [[Hq|?]%elem_of_union|?].
        -- apply elem_of_singleton in Hq as ->. right. apply elem_of_cons. by left.
        -- by left.
        -- right. apply elem_of_cons. by right.
      * destruct (IH fs' processed) as [H1 H2]. split; [done|].
        intros p Hp. destruct (H2 p Hp) as [?|?]; [by left|].
        right. apply elem_of_cons. by right.
Qed.

Lemma tick_spec s fs current_time :
  let out := tick s fs current_time in
  pending_files out.1
  = List.filter (fun entry => negb (stabilized current_time entry)) (pending_files s)
  /\ processed_files s ⊆ processed_files out.1
  /\ forall p, p ∈ processed_files out.1 ->
       p ∈ processed_files s
       \/ exists t, (p, t) ∈ pending_files s /\ stabilized current_time (p, t) = true.
Proof.
  unfold process_pending_files.
  pose proof (process_all_spec fs (processed_files s)
                (List.filter (stabilized current_time) (pending_files s)).*1)
    as [H1 H2].
  destruct (process_all _ _ _ _) as [fs' processed]. simpl in *.
  split_and!; [done|done|].
  intros p Hp. destruct (H2 p Hp) as [?|Hin]; [by left|]. right.
  apply list_elem_of_fmap in Hin as ([p' t] & -> & Hin).
  apply list_elem_of_In, filter_In in Hin as [Hin Hst].
  exists t. split; [by apply list_elem_of_In|done].
Qed.

(** X19: [process_pending_files] gives every file one chance.  An entry
    stays pending exactly while it is younger than the stabilization delay
    of two seconds; an entry that has reached it leaves the dictionary
    whether its file was triaged, failed triage or had disappeared, so a
    failed file is not tried again.  The processed set only grows, and only
    by paths whose entry had reached the delay. *)
Theorem pending_files_get_one_chance s fs current_time :
  let out := tick s fs current_time in
  (forall p t, (p, t) ∈ pending_files out.1
     <-> (p, t) ∈ pending_files s
         /\ (current_time - t < FILE_STABLE_DELAY)%Q)
  /\ processed_files s ⊆ processed_files out.1
  /\ (forall p, p ∈ processed_files out.1 ->
        p ∈ processed_files s
        \/ exists t, (p, t) ∈ pending_files s
                     /\ (FILE_STABLE_DELAY <= current_time - t)%Q).
Proof.
  intros out. destruct (tick_spec s fs current_time) as (Hpend & Hsub & Hnew).
  fold out in Hpend, Hsub, Hnew. split_and!; [|done|].
  - intros p t. rewrite Hpend. rewrite !list_elem_of_In, filter_In.
    unfold stabilized. simpl.
    rewrite negb_true_iff, <-not_true_iff_false, Qle_bool_iff.
    split; intros [? ?]; (split; [done|]).
    + by apply Qnot_le_lt.
    + by apply Qlt_not_le.
  - intros p Hp. destruct (Hnew p Hp) as [?|(t & Hin & Hst)]; [by left|].
    right. exists t. split; [done|]. by apply Qle_bool_iff.
Qed.

(** X20: a path triaged once is never triaged again.  Once a path is in the
    processed set and not pending, no sequence of creation events, calls of
    [process_pending_files] and changes made by others brings it back into
    the pending dictionary: a new file that arrives under the name of a file
    triaged earlier is ignored for the life of the process. *)
Theorem processed_path_never_pending_again s fs p (ops : list inbox_op) :
  p ∈ processed_files s ->
  p ∉ (pending_files s).*1 ->
  let c := foldl inbox_step (s, fs) ops in
  p ∈ processed_files c.1 /\ p ∉ (pending_files c.1).*1.
Proof.
  revert s fs. induction ops as [|o ops IH]; intros s fs Hp Hnp; [done|].
  cbn [foldl].
  destruct (inbox_step (s, fs) o) as [s' fs'] eqn:Hstep. apply IH.
  - destruct o as [event now|current_time|change]; simpl in Hstep; simplify_eq.
    + by rewrite on_created_processed.
    + destruct (tick_spec s fs current_time) as (_ & Hsub & _).
      rewrite Hstep in Hsub. simpl in Hsub. by apply Hsub.
    + done.
  - destruct o as [event now|current_time|change]; simpl in Hstep; simplify_eq.
    + intros [?|?]%on_created_pending; done.
    + destruct (tick_spec s fs current_time) as (Hpend & _ & _).
      rewrite Hstep in Hpend. simpl in Hpend. rewrite Hpend.
      intros Hin. apply Hnp.
      apply list_elem_of_fmap in Hin as (e & -> & Hin).
      apply list_elem_of_In, filter_In in Hin as [Hin _].
      apply list_elem_of_fmap. exists e. split; [done|].
      by apply list_elem_of_In.
    + done.
Qed.

End Handler.

(** *** Concrete runs *)

Definition inbox_task : path := (INBOX_PATH, "task.md").

(** The inbox holds [task.md] and, from an earlier round, a
    [[CLARIFICATION]-task.md]. *)
Definition inbox_with_earlier_round : gmap path string :=
  <[inbox_task := "unclear request"]>
    (<[(INBOX_PATH, "[CLARIFICATION]-task.md") := "earlier request"]> ∅).

(** X18, at a file sent back for clarification while the marked name is
    taken. *)
Lemma routed_back_file_is_ignored_witness :
  let out := _route_file Posix inbox_with_earlier_round inbox_task
               (Some "needs_clarification") "20260213-101500" in
  exists content target,
    inbox_with_earlier_round !! inbox_task = Some content
    /\ out.1 = <[target := content]> (delete inbox_task inbox_with_earlier_round)
    /\ target.1 = INBOX_PATH
    /\ forall s now, on_created s (mkEvent false target) now = s.
Proof.
  apply (routed_back_file_is_ignored Posix inbox_with_earlier_round inbox_task
           "needs_clarification" "20260213-101500").
  - by left.
  - vm_compute. reflexivity.
Defined.

(** Triage that sends every file to the action queue. *)
Definition triage_to_action (fs : gmap path string) (file_path : path)
    : gmap path string * bool :=
  _route_file Posix fs file_path (Some "needs_action") "20260213-101500".

(** X20, at a path triaged earlier for which a creation event arrives
    again, followed by a call of [process_pending_files]. *)
Lemma processed_path_never_pending_again_witness :
  let c := foldl (inbox_step triage_to_action)
             (mkState [] {[inbox_task]}, {[inbox_task := "second file"]})
             [Created (mkEvent false inbox_task) 10; Tick 13] in
  inbox_task ∈ processed_files c.1 /\ inbox_task ∉ (pending_files c.1).*1.
Proof.
  apply (processed_path_never_pending_again triage_to_action
           (mkState [] {[inbox_task]}) {[inbox_task := "second file"]}
           inbox_task).
  - cbn [processed_files]. by apply elem_of_singleton.
  - cbn [pending_files fmap list_fmap]. apply not_elem_of_nil.
Defined.

End InboxMore.

(* ===================================================================== *)
(** ** Facts about the task router                                      *)
(* ===================================================================== *)

Module RouterFacts.

Import Py Router.

Lemma matches_rule_spec event rule :
  _matches_rule event rule = true
  <-> (forall skill, rule_skill rule = Some skill ->
         default "" (e_matched_skill event) = skill)
      /\ (forall action_type, rule_action_type rule = Some action_type ->
            e_action_type event = Some action_type).
Proof.
  unfold _matches_rule.
  destruct (rule_skill rule) as [skill|], (rule_action_type rule) as [a|];
    repeat case_bool_decide; simpl; try (destruct (_ && _));
    split; try done; try (intros [H1 H2]); try (split; intros ? [= <-]; done);
    try (by specialize (H1 _ eq_refl)); try (by specialize (H2 _ eq_refl)).
Qed.

(** X21: a task goes to the action queue only on an auto-approve rule.
    [_check_approval_required] answers [False] exactly when the reasoning
    does not ask for approval, its confidence is at least 80 (an absent
    confidence counts as 0) and some auto-approve rule matches the event;
    the require-approval rules never change the answer, and without rules
    every task requires approval. *)
Theorem approval_required_unless_auto_approved router event reasoning :
  (_check_approval_required router event reasoning = false
   <-> requires_approval reasoning = false
       /\ (80 <= default 0 (confidence reasoning))%Q
       /\ exists rule, rule ∈ auto_approve (approval_rules router)
                       /\ _matches_rule event rule = true)
  /\ (forall rules,
        _check_approval_required
          (mkRouter (needs_action_path router) (needs_approval_path router)
             (mkRules (auto_approve (approval_rules router)) rules))
          event reasoning
        = _check_approval_required router event reasoning)
  /\ (approval_rules router = default_rules ->
      _check_approval_required router event reasoning = true).
Proof.
  assert (Hiff : _check_approval_required router event reasoning = false
   <-> requires_approval reasoning = false
       /\ (80 <= default 0 (confidence reasoning))%Q
       /\ exists rule, rule ∈ auto_approve (approval_rules router)
                       /\ _matches_rule event rule = true).
  { unfold _check_approval_required.
    destruct (requires_approval reasoning); [by split; [|intros [? _]]|].
    destruct (Qle_bool 80 _) eqn:Hq; simpl.
    - apply Qle_bool_iff in Hq.
      destruct (existsb _ (auto_approve _)) eqn:Hex.
      + split; [|done]. intros _. split_and!; [done|done|].
        apply existsb_exists in Hex as (rule & Hin & Hm).
        exists rule. split; [by apply list_elem_of_In|done].
      + split; [intros H; by destruct (existsb _ (require_approval _))|].
        intros (_ & _ & rule & Hin & Hm).
        assert (existsb (_matches_rule event) (auto_approve (approval_rules router))
                = true); [|congruence].
        apply existsb_exists. exists rule. split; [by apply list_elem_of_In|done].
    - split; [done|]. intros (_ & Hle & _).
      apply Qle_bool_iff in Hle. congruence. }
  split_and!; [done| |].
  - intros rules. unfold _check_approval_required. cbn [approval_rules auto_approve].
    destruct (requires_approval reasoning); [done|].
    destruct (negb _); [done|].
    destruct (existsb _ (auto_approve _)); [done|].
    by do 2 destruct (existsb _ _).
  - intros Hrules. apply not_false_iff_true. rewrite Hiff, Hrules.
    intros (_ & _ & rule & Hin & _). by apply elem_of_nil in Hin.
Qed.

Section Routing.

Variable _generate_task_content : Event -> Reasoning -> string -> string.

Local Abbreviation route := (route_task _generate_task_content).

(** X22: the MCP keys decide nothing.  A rule under [auto_approve] that
    names neither a skill nor an action type matches every event, whether
    the rule sets [any_mcp_call] and whether the event needs an MCP call: a
    confident task for which the reasoning asks no approval is then written
    to the action queue. *)
Theorem rule_without_skill_or_type_approves_everything router fs event reasoning
    created timestamp rule :
  rule ∈ auto_approve (approval_rules router) ->
  rule_skill rule = None ->
  rule_action_type rule = None ->
  requires_approval reasoning = false ->
  (80 <= default 0 (confidence reasoning))%Q ->
  _matches_rule event rule = true
  /\ _check_approval_required router event reasoning = false
  /\ (route router fs event reasoning created timestamp).2.1
     = needs_action_path router.
Proof.
  intros Hin Hskill Htype Hreq Hconf.
  assert (Hm : _matches_rule event rule = true).
  { apply matches_rule_spec. rewrite Hskill, Htype. by split. }
  assert (Hc : _check_approval_required router event reasoning = false).
  { unfold _check_approval_required. rewrite Hreq.
    rewrite (proj2 (Qle_bool_iff _ _) Hconf). simpl.
    assert (existsb (_matches_rule event) (auto_approve (approval_rules router))
            = true) as ->; [|done].
    apply existsb_exists. exists rule. split; [by apply list_elem_of_In|done]. }
  split_and!; [done|done|].
  unfold route_task. by rewrite Hc.
Qed.

(** The file name [_create_task_file] gives an event at a clock reading. *)
Definition task_file_name (event : Event) (timestamp : string) : string :=
  "task-" ++ timestamp ++ "-"
  ++ replace " " "_" (default "unknown" (e_type event)) ++ ".md".

(** X23: task files are named by the second and the event type only.  Two
    events whose types agree up to spaces for underscores, routed to the same
    queue within one second, get the same file: the second call returns the
    path of the first and replaces its content, and the files are as if the
    first task had never been routed. *)
Theorem tasks_of_one_second_share_a_file router fs event1 reasoning1 created1
    event2 reasoning2 created2 timestamp :
  replace " " "_" (default "unknown" (e_type event1))
  = replace " " "_" (default "unknown" (e_type event2)) ->
  _check_approval_required router event1 reasoning1
  = _check_approval_required router event2 reasoning2 ->
  let first := route router fs event1 reasoning1 created1 timestamp in
  let second := route router first.1 event2 reasoning2 created2 timestamp in
  second.2 = first.2
  /\ second.2.2 = task_file_name event2 timestamp
  /\ second.1 !! second.2
     = Some (_generate_task_content event2 reasoning2 created2)
  /\ second.1 = (route router fs event2 reasoning2 created2 timestamp).1.
Proof.
  intros Htype Hcheck first second. subst first second.
  unfold route_task, _create_task_file, task_file_name.
  rewrite Hcheck, Htype.
  destruct (_check_approval_required router event2 reasoning2); simpl;
    rewrite insert_insert_eq, lookup_insert_eq; done.
Qed.

End Routing.

(** *** Concrete runs *)

(** A rule that only says [any_mcp_call: true]. *)
Definition mcp_rule : Rule := mkRule None None true.

Definition router_with_mcp_rule : TaskRouter :=
  mkRouter "memory/Needs_Action" "memory/Needs_Approval" (mkRules [mcp_rule] []).

Definition router_without_rules : TaskRouter :=
  mkRouter "memory/Needs_Action" "memory/Needs_Approval" default_rules.

(** A file event that needs no MCP call. *)
Definition file_event (type : string) : Event :=
  mkEvent (Some type) None None false.

Definition confident : Reasoning := mkReasoning false (Some 90%Q).

Definition content_of (event : Event) (reasoning : Reasoning) (created : string)
    : string :=
  "# Task: " ++ default "Unknown" (e_type event) ++ " at " ++ created.

(** X21, at a router without rules. *)
Lemma approval_required_unless_auto_approved_witness :
  _check_approval_required router_without_rules (file_event "file_change")
    confident = true.
Proof.
  destruct (approval_required_unless_auto_approved router_without_rules
              (file_event "file_change") confident) as (_ & _ & H).
  apply H. reflexivity.
Defined.

(** X22, at a confident file event that needs no MCP call. *)
Lemma rule_without_skill_or_type_approves_everything_witness :
  _matches_rule (file_event "file_change") mcp_rule = true
  /\ _check_approval_required router_with_mcp_rule (file_event "file_change")
       confident = false
  /\ (route_task content_of router_with_mcp_rule ∅ (file_event "file_change")
        confident "2026-02-13 10:15:00" "20260213-101500").2.1
     = needs_action_path router_with_mcp_rule.
Proof.
  apply (rule_without_skill_or_type_approves_everything content_of
           router_with_mcp_rule ∅ (file_event "file_change") confident
           "2026-02-13 10:15:00" "20260213-101500" mcp_rule).
  - by left.
  - reflexivity.
  - reflexivity.
  - reflexivity.
  - vm_compute. discriminate.
Defined.

(** X23, at two events of one second whose types differ by a space. *)
Lemma tasks_of_one_second_share_a_file_witness :
  let first := route_task content_of router_without_rules ∅
                 (file_event "file change") confident
                 "2026-02-13 10:15:00" "20260213-101500" in
  let second := route_task content_of router_without_rules first.1
                  (file_event "file_change") confident
                  "2026-02-13 10:15:00" "20260213-101500" in
  second.2 = first.2
  /\ second.2.2 = task_file_name (file_event "file_change") "20260213-101500"
  /\ second.1 !! second.2
     = Some (content_of (file_event "file_change") confident "2026-02-13 10:15:00")
  /\ second.1 = (route_task content_of router_without_rules ∅
                   (file_event "file_change") confident
                   "2026-02-13 10:15:00" "20260213-101500").1.
Proof.
  apply (tasks_of_one_second_share_a_file content_of router_without_rules ∅
           (file_event "file change") confident "2026-02-13 10:15:00"
           (file_event "file_change") confident "2026-02-13 10:15:00"
           "20260213-101500").
  - vm_compute. reflexivity.
  - reflexivity.
Defined.

End RouterFacts.

(* ===================================================================== *)
(** ** Facts about the agent trigger                                    *)
(* ===================================================================== *)

Module TriggerFacts.

Import Trigger.

(** The file was there and was a regular file when the trigger looked. *)
Definition found (f : Probe) : bool := p_exists f && p_is_file f.

Definition trigger_all (c : Counters) (probes : list Probe) : Counters :=
  foldl (fun c f => (trigger_agent c f).1) c probes.

Lemma trigger_agent_counts c f :
  let out := trigger_agent c f in
  processing_count out.1 = processing_count c + 1
  /\ success_count out.1 + failure_count out.1
     = success_count c + failure_count c + (if found f then 1 else 0)
  /\ success_count out.1
     = success_count c + (if out.2 then 1 else 0)
  /\ (out.2 = true <-> found f = true /\ p_stat_ok f = true).
Proof.
  unfold trigger_agent, found.
  destruct (p_exists f), (p_is_file f), (p_stat_ok f); simpl;
    (split_and!; [lia|lia|lia|]); split; try done; intros [? ?]; done.
Qed.

(** X24: the counters of the trigger do not add up.  Over any sequence of
    calls [processing_count] counts every call, while [success_count] and
    [failure_count] together count only the calls that found a regular file:
    a file that is gone when the trigger looks is counted as processed and
    as neither outcome. *)
Theorem trigger_counters c (probes : list Probe) :
  let c' := trigger_all c probes in
  processing_count c' = processing_count c + Z.of_nat (length probes)
  /\ success_count c' + failure_count c'
     = success_count c + failure_count c
       + Z.of_nat (length (List.filter found probes))
  /\ success_count c <= success_count c'
  /\ failure_count c <= failure_count c'.
Proof.
  revert c. induction probes as [|f probes IH]; intros c; simpl.
  { split_and!; lia. }
  destruct (IH (trigger_agent c f).1) as (H1 & H2 & H3 & H4).
  destruct (trigger_agent_counts c f) as (G1 & G2 & G3 & _).
  unfold trigger_all in *. simpl in *.
  assert (G4 : failure_count c <= failure_count (trigger_agent c f).1).
  { unfold trigger_agent, _execute_agent_loop. repeat case_match; simpl; lia. }
  destruct (found f), (trigger_agent c f).2; simpl in *; split_and!; lia.
Qed.

End TriggerFacts.

(* ===================================================================== *)
(** ** More facts about the watcher service's event handler            *)
(* ===================================================================== *)

Module WatcherMore.

Import Watcher WatcherFacts.

Section Queue.

Variable path_match : string -> string -> bool.
Variable config : WatcherConfig.

Local Abbreviation created := (on_created path_match config).
Local Abbreviation recently := (_is_recently_processed config).
Local Abbreviation should_process := (_should_process_file path_match config).

(** What happens to the handler and its queue: the observer thread delivers
    a creation event, or the processor thread takes the head of the queue. *)
Inductive queue_op :=
  | Deliver (event : Event) (now0 now1 now2 : Z)
  | Take.

Definition queue_step (h : Handler) (o : queue_op) : Handler :=
  match o with
  | Deliver event now0 now1 now2 => created h event now0 now1 now2
  | Take => mkHandler (processed_files h) (tail (event_queue h))
  end.

(** The queue is at its bound. *)
Definition queue_full (q : list string) : Prop :=
  0 < max_queue_size config /\ max_queue_size config <= Z.of_nat (length q).

Lemma created_queue_bound h event now0 now1 now2 :
  0 < max_queue_size config ->
  Z.of_nat (length (event_queue h)) <= max_queue_size config ->
  Z.of_nat (length (event_queue (created h event now0 now1 now2)))
  <= max_queue_size config.
Proof.
  intros Hpos Hle. unfold on_created, put_nowait.
  destruct (is_directory event); [done|].
  destruct (negb _); [done|].
  destruct (_is_recently_processed _ _ _ _); [done|].
  rewrite (bool_decide_eq_true_2 (0 < max_queue_size config)) by done.
  case_bool_decide; simpl; [done|].
  rewrite length_app. simpl. lia.
Qed.

(** X25: the queue never grows past its bound.  With a positive
    [max_queue_size], whatever creation events are delivered and whenever
    the processor takes items, a queue within the bound stays within it. *)
Theorem queue_stays_within_bound h (ops : list queue_op) :
  0 < max_queue_size config ->
  Z.of_nat (length (event_queue h)) <= max_queue_size config ->
  Z.of_nat (length (event_queue (foldl queue_step h ops))) <= max_queue_size config.
Proof.
  intros Hpos. revert h. induction ops as [|o ops IH]; intros h Hle; [done|].
  cbn [foldl]. apply IH. destruct o as [event now0 now1 now2|]; simpl.
  - by apply created_queue_bound.
  - destruct (event_queue h); simpl in *; lia.
Qed.

(** X26: the debounce window is half open.  A creation event for a path
    marked at [last] that is read when at least [debounce_seconds] have
    passed is accepted again: the path is marked anew and, when the queue
    has room, put on the queue. *)
Theorem event_after_debounce_accepted h event now0 now1 now2 last :
  is_directory event = false ->
  should_process (src_path event) = true ->
  processed_files h !! src_path event = Some last ->
  (debounce_seconds config <= (now0 - last) # 1000000)%Q ->
  ~ queue_full (event_queue h) ->
  created h event now0 now1 now2
  = mkHandler (_mark_processed (processed_files h) (src_path event) now1 now2)
      (event_queue h ++ [src_path event]).
Proof.
  intros Hfile Hpat Hl Hout Hroom. unfold on_created.
  rewrite Hfile, Hpat. simpl.
  assert (recently (processed_files h) (src_path event) now0 = false) as ->.
  { unfold _is_recently_processed. rewrite Hl.
    apply negb_false_iff. by apply Qle_bool_iff. }
  unfold put_nowait.
  assert (bool_decide (0 < max_queue_size config)
          && bool_decide (max_queue_size config
                          <= Z.of_nat (length (event_queue h))) = false) as ->.
  { apply not_true_is_false. intros [H1 H2]%andb_true_iff.
    apply bool_decide_eq_true in H1, H2. by apply Hroom. }
  done.
Qed.


End Queue.

(** *** Concrete runs *)

(** A queue of one place that is taken. *)
Definition tiny_config : WatcherConfig :=
  {| watch_patterns := ["*.md"; "*.txt"]; ignore_patterns := ["*.tmp"; ".*"];
     debounce_seconds := 2; max_queue_size := 1 |}.

Definition busy_handler : Handler := mkHandler ∅ ["first.md"].

(** X25, at a queue of one place, three deliveries and a take. *)
Lemma queue_stays_within_bound_witness :
  0 < max_queue_size tiny_config
  /\ Z.of_nat (length (event_queue
        (foldl (queue_step match_default tiny_config) busy_handler
           [Deliver (mkEvent false "a.md") 10 11 12;
            Take;
            Deliver (mkEvent false "b.md") 20 21 22;
            Deliver (mkEvent false "c.md") 30 31 32])))
     <= max_queue_size tiny_config.
Proof.
  split; [reflexivity|].
  apply (queue_stays_within_bound match_default tiny_config busy_handler
           [Deliver (mkEvent false "a.md") 10 11 12;
            Take;
            Deliver (mkEvent false "b.md") 20 21 22;
            Deliver (mkEvent false "c.md") 30 31 32]).
  - reflexivity.
  - vm_compute. discriminate.
Defined.

(** [task.md] was marked at second 1. *)
Definition marked_handler : Handler := mkHandler {[ "task.md" := 1000000 ]} [].

Definition task_event : Event := mkEvent false "task.md".

(** X26, at the default configuration: [task.md] arrives again exactly two
    seconds after it was marked. *)
Lemma event_after_debounce_accepted_witness :
  on_created match_default default_config marked_handler task_event
    3000000 3000010 3000020
  = mkHandler
      (_mark_processed (processed_files marked_handler) (src_path task_event)
         3000010 3000020)
      (event_queue marked_handler ++ [src_path task_event]).
Proof.
  apply (event_after_debounce_accepted match_default default_config
           marked_handler task_event 3000000 3000010 3000020 1000000).
  - reflexivity.
  - vm_compute. reflexivity.
  - vm_compute. reflexivity.
  - vm_compute. discriminate.
  - intros [_ H]. vm_compute in H. by apply H.
Defined.


End WatcherMore.

(* ===================================================================== *)
(** ** Facts about FileWatcherHandler                                   *)
(* ===================================================================== *)

Module FileWatcherFacts.

Import FileWatcher.

Section Dedup.

Variable path_match : string -> string -> bool.
Variable md5_hexdigest : string -> string.
Variable patterns : list string.

Local Abbreviation file_hash := (_get_file_hash md5_hexdigest).
Local Abbreviation created := (on_created path_match md5_hexdigest patterns).

(** Every call of the callback is recorded in the set, and no two calls
    have the same hash. *)
Definition deduplicated (h : Handler) : Prop :=
  (forall event, event ∈ callbacks h -> file_hash event ∈ processed_files h)
  /\ NoDup (file_hash <$> callbacks h).

Lemma created_deduplicated h event :
  deduplicated h -> deduplicated (created h event).
Proof.
  intros [Hin Hnd]. unfold on_created.
  destruct (is_directory event); [done|].
  destruct (negb _); [done|].
  case_bool_decide as Hnew; [done|]. split; simpl.
  - intros e [He|He]%elem_of_app.
    + apply elem_of_union. right. by apply Hin.
    + apply list_elem_of_singleton in He as ->.
      apply elem_of_union. left. by apply elem_of_singleton.
  - rewrite fmap_app. apply NoDup_app. split_and!; [done| |].
    + intros x Hx [->|[]%elem_of_nil]%elem_of_cons.
      apply list_elem_of_fmap in Hx as (e & Heq & He).
      apply Hnew. rewrite Heq. by apply Hin.
    + simpl. apply NoDup_singleton.
Qed.

Lemma created_grows h event :
  processed_files h ⊆ processed_files (created h event).
Proof.
  unfold on_created. repeat case_match; simpl; try done.
  intros x Hx. apply elem_of_union. by right.
Qed.

(** X28: the callback is called once per hash, for good.  From a fresh
    handler, whatever creation events arrive, no two calls of the callback
    have the same hash; and an event whose hash is in the set is dropped at
    every later time, since the set is never pruned: a file created again
    with the same modification time, or created again while [stat] fails,
    is not reported. *)
Theorem callback_once_per_hash (events later : list Event) event :
  let h := foldl created (mkHandler ∅ []) events in
  NoDup (file_hash <$> callbacks h)
  /\ (file_hash event ∈ processed_files h ->
      let h' := foldl created h later in
      created h' event = h'
      /\ file_hash event ∈ processed_files h').
Proof.
  intros h.
  assert (Hinv : forall l h0, deduplicated h0 -> deduplicated (foldl created h0 l)).
  { induction l as [|e l IH]; intros h0 H0; [done|].
    cbn [foldl]. by apply IH, created_deduplicated. }
  assert (Hmono : forall l h0 x, x ∈ processed_files h0 ->
                    x ∈ processed_files (foldl created h0 l)).
  { induction l as [|e l IH]; intros h0 x Hx; [done|].
    cbn [foldl]. apply IH. by apply (created_grows h0 e). }
  split.
  - apply (Hinv events (mkHandler ∅ [])). split; simpl.
    + intros e He. by apply elem_of_nil in He.
    + apply NoDup_nil_2.
  - intros Hin h'. assert (Hin' : file_hash event ∈ processed_files h').
    { by apply Hmono. }
    split; [|done]. unfold on_created.
    destruct (is_directory event); [done|].
    destruct (negb _); [done|].
    by rewrite bool_decide_eq_true_2.
Qed.

End Dedup.

(** *** A concrete run *)

(** A stand-in for the digest that returns its input. *)
Definition plain_hash (s : string) : string := s.

(** [a.md] is reported twice with the same modification time, then [b.md]
    while [stat] fails. *)
Definition three_events : list Event :=
  [mkEvent false "a.md" (Some "1.0"); mkEvent false "a.md" (Some "1.0");
   mkEvent false "b.md" None].

(** X28, at these events, followed by [b.md] once more. *)
Lemma callback_once_per_hash_witness :
  let h := foldl (on_created WatcherFacts.match_default plain_hash ["*.md"])
             (mkHandler ∅ []) three_events in
  NoDup (_get_file_hash plain_hash <$> callbacks h)
  /\ on_created WatcherFacts.match_default plain_hash ["*.md"] h
       (mkEvent false "b.md" None) = h.
Proof.
  destruct (callback_once_per_hash WatcherFacts.match_default plain_hash ["*.md"]
              three_events [] (mkEvent false "b.md" None)) as [H1 H2].
  split; [exact H1|]. apply H2.
  apply (bool_decide_unpack _). vm_compute. exact I.
Defined.

End FileWatcherFacts.
